(** * Younis Bank: the ledger engine of [younis_bank.py]

    A shallow embedding of the money codec ([to_cents], [from_cents]), of the
    SQLite store the program keeps its accounts and transactions in, and of
    the operations that change balances ([add_tx], [deposit], [withdraw],
    [transfer]) or read the history ([get_history], [Session.do_history]),
    followed by the properties of the ledger.

    Conventions of the embedding.
    - A Python [str] is the list of its code points; the model covers the
      code points below 256, one [ascii] each.
    - A Python [int] is a [Z].  SQLite stores 64-bit signed integers: binding
      a Python [int] outside that range to a statement raises
      [OverflowError], which the model keeps; so it does the [ValueError] of
      a conversion between [int] and [str] of more than 4300 digits.
    - An exception is a value of [exn]; a call either returns or raises.
    - The store is threaded explicitly.  A connection carries the committed
      database and the working copy of the open transaction, so that
      [commit] and the rollback of [with get_conn() as conn] are written out.
    - The readings of the clock ([now_iso()]) are arguments of the
      operations that take them. *)

From Stdlib Require Import ZArith List String Ascii Bool Lia Sorted Permutation
  DecimalString DecimalPos DecimalN.
Import ListNotations.
Local Open Scope string_scope.
Local Open Scope list_scope.
Local Open Scope Z_scope.

(** ** Python values: strings, exceptions, results *)

(** Python's [str]; a literal is read through the coercion. *)
Definition str := list ascii.
Coercion list_ascii_of_string : string >-> list.

(** The exceptions the program meets, each with its message. *)
Inductive exn : Type :=
| ValueError (msg : string)
| OverflowError (msg : string)
| IntegrityError (msg : string).

(** A call returns a value or raises. *)
Inductive result (A : Type) : Type :=
| Ok (a : A)
| Raise (e : exn).
Arguments Ok {A} a.
Arguments Raise {A} e.

Definition is_ok {A} (r : result A) : bool :=
  match r with Ok _ => true | Raise _ => false end.

(** The methods of [str] and the conversions between [str] and [int] that
    the program calls, as CPython has them: a conversion of more than 4300
    digits raises [ValueError] ([sys.set_int_max_str_digits], which the
    program leaves at its default), and the errors carry the messages of
    the interpreter. *)
Module PyStr.

(** The code point of a character. *)
Definition code (c : ascii) : Z := Z.of_N (N_of_ascii c).

(** [str.isspace] on one code point below 256. *)
Definition isspace (c : ascii) : bool :=
  let n := code c in
  ((9 <=? n) && (n <=? 13)) || ((28 <=? n) && (n <=? 32))
  || (n =? 133) || (n =? 160).

(** Decimal digits: ['0'] to ['9']. *)
Definition isdecimal (c : ascii) : bool :=
  let n := code c in (48 <=? n) && (n <=? 57).

(** [str.isdigit] on one code point: the decimal digits and the
    superscripts one, two and three. *)
Definition isdigit_char (c : ascii) : bool :=
  let n := code c in
  isdecimal c || (n =? 178) || (n =? 179) || (n =? 185).

Definition is_ascii (c : ascii) : bool := code c <? 128.

(** The text without the characters of class [p] it starts with. *)
Fixpoint lstrip_by (p : ascii -> bool) (s : str) : str :=
  match s with
  | [] => []
  | c :: s' => if p c then lstrip_by p s' else s
  end.

(** The text without the characters of class [p] at both ends. *)
Definition strip_by (p : ascii -> bool) (s : str) : str :=
  rev (lstrip_by p (rev (lstrip_by p s))).

(** [s.strip()] *)
Definition strip (s : str) : str := strip_by isspace s.

(** [s.lstrip(c)] for a one-character argument. *)
Definition lstrip_char (c : ascii) (s : str) : str :=
  lstrip_by (Ascii.eqb c) s.

(** [s.replace(c, "")] for a one-character [c]. *)
Definition remove_char (c : ascii) (s : str) : str :=
  filter (fun x => negb (Ascii.eqb x c)) s.

(** [s.count(c)] *)
Definition count (c : ascii) (s : str) : Z :=
  Z.of_nat (List.length (filter (Ascii.eqb c) s)).

(** [s.split(c)] *)
Fixpoint split (c : ascii) (s : str) : list str :=
  match s with
  | [] => [[]]
  | x :: s' =>
      if Ascii.eqb x c then [] :: split c s'
      else match split c s' with
           | p :: ps => (x :: p) :: ps
           | [] => [[x]]
           end
  end.

(** [s.startswith(c)] for a one-character [c]. *)
Definition startswith (c : ascii) (s : str) : bool :=
  match s with
  | x :: _ => Ascii.eqb x c
  | [] => false
  end.

(** [len(s)] *)
Definition len (s : str) : Z := Z.of_nat (List.length s).

(** [s.isdigit()]: at least one character, all of them digits. *)
Definition isdigit (s : str) : bool :=
  match s with
  | [] => false
  | _ => forallb isdigit_char s
  end.

(** The value of a decimal digit. *)
Definition digit_value (c : ascii) : Z := code c - 48.

(** [str(n)] for [0 <= n]: the decimal numeral. *)
Definition of_nonneg (n : Z) : str :=
  NilZero.string_of_uint (N.to_uint (Z.to_N n)).

(** The most digits that [int()] reads and that [str()] writes: the default
    of [sys.set_int_max_str_digits], which the program leaves as it is. *)
Definition max_str_digits : Z := 4300.

(** [str.isprintable] on one code point below 256. *)
Definition isprintable (c : ascii) : bool :=
  let n := code c in
  ((32 <=? n) && (n <? 127)) || ((161 <=? n) && negb (n =? 173)).

Definition hex_digit (n : Z) : ascii :=
  nth (Z.to_nat n) (list_ascii_of_string "0123456789abcdef") "0"%char.

(** The characters [repr] writes besides those of the text. *)
Definition backslash : ascii := "092"%char.
Definition single_quote : ascii := "039"%char.
Definition double_quote : ascii := "034"%char.

(** One character of [repr(s)], between the quotes [q]. *)
Definition repr_char (q c : ascii) : str :=
  if Ascii.eqb c q || Ascii.eqb c backslash then [backslash; c]
  else if Ascii.eqb c "009" then [backslash; "t"%char]
  else if Ascii.eqb c "010" then [backslash; "n"%char]
  else if Ascii.eqb c "013" then [backslash; "r"%char]
  else if isprintable c then [c]
  else [backslash; "x"%char; hex_digit (code c / 16); hex_digit (code c mod 16)].

(** [repr(s)]: in single quotes, unless [s] has a single quote and no
    double quote. *)
Definition repr (s : str) : str :=
  let q :=
    if existsb (Ascii.eqb single_quote) s
       && negb (existsb (Ascii.eqb double_quote) s)
    then double_quote else single_quote in
  q :: flat_map (repr_char q) s ++ [q].

(** The errors of the conversions: [int()] on what is no numeral, which
    shows the first 200 characters of [repr(s)], and [int()] and [str()]
    beyond [max_str_digits]. *)
Definition invalid_literal (s : str) : exn :=
  ValueError
    (string_of_list_ascii
       ("invalid literal for int() with base 10: " ++ firstn 200 (repr s))).

Definition digits_limit_int (digits : Z) : exn :=
  ValueError
    (string_of_list_ascii
       ("Exceeds the limit (" ++ of_nonneg max_str_digits
        ++ " digits) for integer string conversion: value has "
        ++ of_nonneg digits
        ++ " digits; use sys.set_int_max_str_digits() to increase the limit")).

Definition digits_limit_str : exn :=
  ValueError
    (string_of_list_ascii
       ("Exceeds the limit (" ++ of_nonneg max_str_digits
        ++ " digits) for integer string conversion; "
        ++ "use sys.set_int_max_str_digits() to increase the limit")).

(** The digits of an [int()] literal after its sign, as far as they go:
    decimal digits, with single underscores allowed between two digits.
    The scan counts the digits, computes their value and gives what is left
    of the text; an underscore that no digit precedes or no digit follows
    is an error. *)
Fixpoint scan_digits (digits acc : Z) (after_digit : bool) (s : str)
  : option (Z * Z * str) :=
  match s with
  | [] => Some (digits, acc, [])
  | c :: s' =>
      if isdecimal c then
        scan_digits (digits + 1) (10 * acc + digit_value c) true s'
      else if Ascii.eqb c "_" then
        if after_digit then
          match s' with
          | d :: _ => if isdecimal d then scan_digits digits acc false s' else None
          | [] => None
          end
        else None
      else Some (digits, acc, s)
  end.

(** White space of the C locale, what [int()] strips from ASCII text. *)
Definition isspace_c (c : ascii) : bool :=
  let n := code c in ((9 <=? n) && (n <=? 13)) || (n =? 32).

(** What [int()] makes of a character before it reads the text: outside
    ASCII, white space becomes a blank and the rest ['?'] (no decimal digit
    lies between 128 and 255). *)
Definition to_ascii (c : ascii) : ascii :=
  if is_ascii c then c else if isspace c then " "%char else "?"%char.

(** [int(s)] in base 10: the surrounding C white space goes, then an
    optional sign, then come the digits.  More than [max_str_digits] digits
    are refused before the rest of the text is looked at. *)
Definition int (s : str) : result Z :=
  let t := map to_ascii s in
  let t := strip_by isspace_c t in
  let '(neg, body) :=
    match t with
    | c :: r =>
        if Ascii.eqb c "-" then (true, r)
        else if Ascii.eqb c "+" then (false, r)
        else (false, t)
    | [] => (false, t)
    end in
  match scan_digits 0 0 false body with
  | None => Raise (invalid_literal s)
  | Some (digits, n, rest) =>
      if max_str_digits <? digits then Raise (digits_limit_int digits)
      else
        match rest with
        | [] =>
            if digits =? 0 then Raise (invalid_literal s)
            else Ok (if neg then - n else n)
        | _ => Raise (invalid_literal s)
        end
  end.

(** [str(n)], also what [f"{n}"] gives: refused when the numeral has more
    than [max_str_digits] digits. *)
Definition of_int (n : Z) : result str :=
  let digits := of_nonneg (Z.abs n) in
  if max_str_digits <? len digits then Raise digits_limit_str
  else Ok (if n <? 0 then "-"%char :: digits else digits).

(** [f"{n:02d}"]: zero padding up to two characters, sign included. *)
Definition format_02d (n : Z) : result str :=
  match of_int n with
  | Raise e => Raise e
  | Ok s => Ok (if len s <? 2 then "0"%char :: s else s)
  end.

End PyStr.

(** ** MoneyCodec *)

(** [to_cents]: the amount in cents of a decimal text.  The unpacking
    [whole, frac = parts] raises when [parts] has not two items, which the
    test on the number of points rules out. *)
Definition to_cents (amount_str : str) : result Z :=
  let amount_str := PyStr.remove_char "," (PyStr.strip amount_str) in
  let amount_str :=
    if PyStr.startswith "$" amount_str then tl amount_str else amount_str in
  if 1 <? PyStr.count "." amount_str then
    Raise (ValueError "Invalid amount format")
  else
    let parts := PyStr.split "." amount_str in
    let unpacked : result (str * str) :=
      match parts with
      | [whole] => Ok (whole, "00" : str)
      | [whole; frac] =>
          if 2 <? PyStr.len frac then
            Raise (ValueError "Too many decimal places; use at most 2")
          else Ok (whole, firstn 2 (frac ++ "00"))
      | [] => Raise (ValueError "not enough values to unpack (expected 2, got 0)")
      | _ => Raise (ValueError "too many values to unpack (expected 2)")
      end in
    match unpacked with
    | Raise e => Raise e
    | Ok (whole, frac) =>
        let whole := match whole with [] => ("0" : str) | _ => whole end in
        if (PyStr.startswith "-" whole && PyStr.isdigit (tl whole))
           || PyStr.isdigit whole
        then
          if negb (PyStr.isdigit frac) then Raise (ValueError "Invalid cents")
          else
            let sign := if PyStr.startswith "-" whole then -1 else 1 in
            match PyStr.int (PyStr.lstrip_char "-" whole) with
            | Raise e => Raise e
            | Ok whole_abs =>
                match PyStr.int frac with
                | Raise e => Raise e
                | Ok cents => Ok (sign * (whole_abs * 100 + cents))
                end
            end
        else Raise (ValueError "Invalid amount")
    end.

(** [from_cents]: the decimal text of an amount in cents. *)
Definition from_cents (cents : Z) : result str :=
  let sign : str := if cents <? 0 then "-" else "" in
  let cents := Z.abs cents in
  match PyStr.of_int (cents / 100) with
  | Raise e => Raise e
  | Ok whole =>
      match PyStr.format_02d (cents mod 100) with
      | Raise e => Raise e
      | Ok frac => Ok (sign ++ whole ++ "." ++ frac)
      end
  end.

(** ** The store

    The three relations of [init_db].  A table is the list of its rows in
    insertion order; [AUTOINCREMENT] keeps, per table, the largest rowid ever
    given ([sqlite_sequence]).  Rowids are taken from [Z]: the ceiling
    2^63 - 1 of SQLite's rowids, 9.2e18 insertions away, is left out.
    [PRAGMA foreign_keys] is set on the connection of [init_db] only, so the
    connections of the operations do not enforce the [REFERENCES] clauses. *)

(** The range of an SQLite [INTEGER]. *)
Definition int64_min : Z := -9223372036854775808.
Definition int64_max : Z := 9223372036854775807.

Definition fits_int64 (z : Z) : bool := (int64_min <=? z) && (z <=? int64_max).

(** Equality of two strings, as [=] compares [TEXT] values. *)
Fixpoint str_eqb (a b : str) : bool :=
  match a, b with
  | [], [] => true
  | x :: a', y :: b' => Ascii.eqb x y && str_eqb a' b'
  | _, _ => false
  end.

Record UserRow : Type := {
  u_id : Z;
  u_username : str;
  u_salt : str;
  u_password_hash : str;
  u_created_at : str
}.

Record AccountRow : Type := {
  a_id : Z;
  a_user_id : Z;
  a_name : str;
  a_type : str;
  a_balance_cents : Z;
  a_created_at : str
}.

Record TxRow : Type := {
  t_id : Z;
  t_account_id : Z;
  t_kind : str;
  t_amount_cents : Z;
  t_balance_after_cents : Z;
  t_note : str;
  t_created_at : str
}.

Record Db : Type := {
  users : list UserRow;
  users_seq : Z;
  accounts : list AccountRow;
  accounts_seq : Z;
  transactions : list TxRow;
  transactions_seq : Z
}.

Definition empty_db : Db :=
  {| users := []; users_seq := 0; accounts := []; accounts_seq := 0;
     transactions := []; transactions_seq := 0 |}.

(** The rowid [AUTOINCREMENT] gives next: one more than the largest rowid the
    table holds or ever held. *)
Definition next_rowid (seq : Z) (ids : list Z) : Z :=
  fold_right Z.max seq ids + 1.

(** The dataclasses. *)
Record User : Type := { id_of_user : Z; username : str }.

Record Account : Type := {
  id : Z;
  user_id : Z;
  name : str;
  type : str;
  balance_cents : Z
}.

Definition Account_of_row (r : AccountRow) : Account :=
  {| id := a_id r; user_id := a_user_id r; name := a_name r;
     type := a_type r; balance_cents := a_balance_cents r |}.

(** What a call evaluates to when the function has no [return]. *)
Inductive value : Type :=
| VNone
| VInt (z : Z).

(** ** State and exceptions *)

(** A computation on a state [S] that returns an [A] or raises, and leaves a
    state either way. *)
Definition ST (S A : Type) : Type := S -> result A * S.

Definition ret {S A} (a : A) : ST S A := fun s => (Ok a, s).

Definition raise {S A} (e : exn) : ST S A := fun s => (Raise e, s).

Definition bind {S A B} (m : ST S A) (k : A -> ST S B) : ST S B :=
  fun s =>
    match m s with
    | (Ok a, s') => k a s'
    | (Raise e, s') => (Raise e, s')
    end.

Notation "x <- m ;; k" := (bind m (fun x => k))
  (at level 61, m at next level, right associativity).
Notation "m ;;; k" := (bind m (fun _ => k))
  (at level 61, right associativity).

(** A connection: the committed database and the working copy that the
    statements of the open transaction read and write. *)
Record Conn : Type := { committed : Db; working : Db }.

(** The engine's functions run on the database file. *)
Definition Op (A : Type) : Type := ST Db A.

(** The body of a [with get_conn() as conn] block runs on the connection. *)
Definition Sql (A : Type) : Type := ST Conn A.

(** [conn.commit()] *)
Definition commit : Sql unit :=
  fun c => (Ok tt, {| committed := working c; working := working c |}).

(** [get_conn()]: a fresh connection on the file, with nothing pending.
    Failures to open the file ([OSError]) are left out. *)
Definition get_conn (db : Db) : Conn := {| committed := db; working := db |}.

(** [with get_conn() as conn: body]: when the block ends the connection
    commits what is pending, when the block raises it rolls back to what was
    last committed. *)
Definition with_conn {A} (body : Sql A) : Op A :=
  fun db =>
    match body (get_conn db) with
    | (Ok a, c) => (Ok a, working c)
    | (Raise e, c) => (Raise e, committed c)
    end.

(** Binding Python integers to the [?] of a statement. *)
Fixpoint bind_ints (params : list Z) : Sql unit :=
  match params with
  | [] => ret tt
  | z :: rest =>
      if fits_int64 z then bind_ints rest
      else raise (OverflowError "Python int too large to convert to SQLite INTEGER")
  end.

(** A query reads the working copy; a statement that writes changes it. *)
Definition read {A} (q : Db -> A) : Sql A :=
  fun c => (Ok (q (working c)), c).

Definition write (f : Db -> Db) : Sql unit :=
  fun c => (Ok tt, {| committed := committed c; working := f (working c) |}).

(** ** The statements *)

Definition member (x : str) (l : list str) : bool := existsb (str_eqb x) l.

(** The values the two [CHECK] constraints allow. *)
Definition account_types : list str := ["checking" : str; "savings" : str].

Definition tx_kinds : list str :=
  ["deposit" : str; "withdraw" : str; "transfer_in" : str; "transfer_out" : str].

(** [SELECT ... FROM accounts WHERE user_id=? AND name=?], [fetchone()] *)
Definition select_account (user_id : Z) (name : str) (db : Db) : option AccountRow :=
  find (fun r => (a_user_id r =? user_id) && str_eqb (a_name r) name) (accounts db).

(** [SELECT balance_cents FROM accounts WHERE id=?], [fetchone()] *)
Definition select_balance (account_id : Z) (db : Db) : option Z :=
  option_map a_balance_cents (find (fun r => a_id r =? account_id) (accounts db)).

(** A row of [accounts] with another balance. *)
Definition set_balance (new_balance : Z) (r : AccountRow) : AccountRow :=
  {| a_id := a_id r; a_user_id := a_user_id r; a_name := a_name r;
     a_type := a_type r; a_balance_cents := new_balance;
     a_created_at := a_created_at r |}.

(** [UPDATE accounts SET balance_cents=? WHERE id=?] *)
Definition update_balance (new_balance account_id : Z) (db : Db) : Db :=
  {| users := users db; users_seq := users_seq db;
     accounts :=
       map (fun r => if a_id r =? account_id then set_balance new_balance r else r)
         (accounts db);
     accounts_seq := accounts_seq db;
     transactions := transactions db;
     transactions_seq := transactions_seq db |}.

(** [INSERT INTO transactions (...) VALUES (?,?,?,?,?,?)] *)
Definition insert_transaction (account_id : Z) (kind : str)
    (amount_cents balance_after : Z) (note now : str) : Sql unit :=
  bind_ints [account_id; amount_cents; balance_after] ;;;
  if negb (member kind tx_kinds) then
    raise (IntegrityError "CHECK constraint failed: kind IN ('deposit','withdraw','transfer_in','transfer_out')")
  else
    write (fun db =>
      let rowid := next_rowid (transactions_seq db) (map t_id (transactions db)) in
      {| users := users db; users_seq := users_seq db;
         accounts := accounts db; accounts_seq := accounts_seq db;
         transactions :=
           transactions db ++
           [{| t_id := rowid; t_account_id := account_id; t_kind := kind;
               t_amount_cents := amount_cents;
               t_balance_after_cents := balance_after;
               t_note := note; t_created_at := now |}];
         transactions_seq := rowid |}).

(** [INSERT INTO accounts (...) VALUES (?,?,?,?,?)], giving [cur.lastrowid] *)
Definition insert_account (user_id : Z) (name type_ : str) (balance : Z)
    (now : str) : Sql Z :=
  bind_ints [user_id; balance] ;;;
  db <- read (fun db => db) ;;
  if negb (member type_ account_types) then
    raise (IntegrityError "CHECK constraint failed: type IN ('checking','savings')")
  else if existsb (fun r => (a_user_id r =? user_id) && str_eqb (a_name r) name)
            (accounts db) then
    raise (IntegrityError "UNIQUE constraint failed: accounts.user_id, accounts.name")
  else
    let rowid := next_rowid (accounts_seq db) (map a_id (accounts db)) in
    write (fun db =>
      {| users := users db; users_seq := users_seq db;
         accounts :=
           accounts db ++
           [{| a_id := rowid; a_user_id := user_id; a_name := name;
               a_type := type_; a_balance_cents := balance;
               a_created_at := now |}];
         accounts_seq := rowid;
         transactions := transactions db;
         transactions_seq := transactions_seq db |}) ;;;
    ret rowid.

(** [INSERT INTO users (...) VALUES (?,?,?,?)], giving [cur.lastrowid] *)
Definition insert_user (username salt pw_hash now : str) : Sql Z :=
  db <- read (fun db => db) ;;
  if existsb (fun r => str_eqb (u_username r) username) (users db) then
    raise (IntegrityError "UNIQUE constraint failed: users.username")
  else
    let rowid := next_rowid (users_seq db) (map u_id (users db)) in
    write (fun db =>
      {| users :=
           users db ++
           [{| u_id := rowid; u_username := username; u_salt := salt;
               u_password_hash := pw_hash; u_created_at := now |}];
         users_seq := rowid;
         accounts := accounts db; accounts_seq := accounts_seq db;
         transactions := transactions db;
         transactions_seq := transactions_seq db |}) ;;;
    ret rowid.

(** A row of [get_history]: kind, amount, balance after, note, created at. *)
Definition HistoryRow : Type := (str * Z * Z * str * str)%type.

Definition history_row (t : TxRow) : HistoryRow :=
  (t_kind t, t_amount_cents t, t_balance_after_cents t, t_note t, t_created_at t).

(** [ORDER BY id DESC]: the rows sorted on their rowid, largest first. *)
Fixpoint insert_desc (t : TxRow) (l : list TxRow) : list TxRow :=
  match l with
  | [] => [t]
  | x :: l' => if t_id x <=? t_id t then t :: l else x :: insert_desc t l'
  end.

Definition order_by_id_desc (l : list TxRow) : list TxRow :=
  fold_right insert_desc [] l.

(** [LIMIT ?]: a negative bound is no bound. *)
Definition sql_limit {A} (limit : Z) (l : list A) : list A :=
  if limit <? 0 then l else firstn (Z.to_nat limit) l.

(** [SELECT kind, ... FROM transactions WHERE account_id=? ORDER BY id DESC
    LIMIT ?], [fetchall()] *)
Definition select_history (account_id limit : Z) (db : Db) : list HistoryRow :=
  map history_row
    (sql_limit limit
       (order_by_id_desc
          (filter (fun t => t_account_id t =? account_id) (transactions db)))).

(** ** AccountService *)

(** [create_user], with the salt and the derived key of [hash_password] as
    arguments. *)
Definition create_user (username salt pw_hash now1 now2 : str) : Op User :=
  with_conn (
    user_id <- insert_user username salt pw_hash now1 ;;
    insert_account user_id "Checking" "checking" 0 now2 ;;;
    commit ;;;
    ret {| id_of_user := user_id; username := username |}).

Definition get_account (user_id : Z) (name : str) : Op (option Account) :=
  with_conn (
    bind_ints [user_id] ;;;
    row <- read (select_account user_id name) ;;
    ret (option_map Account_of_row row)).

Definition create_account (user_id : Z) (name type_ now : str) : Op Account :=
  if negb (member type_ account_types) then
    raise (ValueError "type must be 'checking' or 'savings'")
  else
    with_conn (
      acc_id <- insert_account user_id name type_ 0 now ;;
      commit ;;;
      ret {| id := acc_id; user_id := user_id; name := name; type := type_;
             balance_cents := 0 |}).

(** ** TransactionEngine *)

Definition add_tx (account_id : Z) (kind : str) (amount_cents : Z)
    (note now : str) : Sql unit :=
  bind_ints [account_id] ;;;
  row <- read (select_balance account_id) ;;
  match row with
  | None => raise (ValueError "Account not found")
  | Some balance =>
      let new_balance := balance + amount_cents in
      if new_balance <? 0 then raise (ValueError "Insufficient funds")
      else
        bind_ints [new_balance; account_id] ;;;
        write (update_balance new_balance account_id) ;;;
        insert_transaction account_id kind amount_cents new_balance note now
  end.

Definition deposit (user_id : Z) (account_name : str) (amount_cents : Z)
    (note now : str) : Op value :=
  if amount_cents <=? 0 then raise (ValueError "Deposit must be positive")
  else
    acc <- get_account user_id account_name ;;
    match acc with
    | None => raise (ValueError "Account not found")
    | Some acc =>
        with_conn (
          add_tx (id acc) "deposit" amount_cents note now ;;;
          commit) ;;;
        ret VNone
    end.

Definition withdraw (user_id : Z) (account_name : str) (amount_cents : Z)
    (note now : str) : Op value :=
  if amount_cents <=? 0 then raise (ValueError "Withdrawal must be positive")
  else
    acc <- get_account user_id account_name ;;
    match acc with
    | None => raise (ValueError "Account not found")
    | Some acc =>
        with_conn (
          add_tx (id acc) "withdraw" (- amount_cents) note now ;;;
          commit) ;;;
        ret VNone
    end.

(** [cur.execute("BEGIN IMMEDIATE")]: opens the transaction; with one
    connection at a time there is no lock to wait for. *)
Definition begin_immediate : Sql unit := ret tt.

Definition transfer (user_id : Z) (from_acc to_acc : str) (amount_cents : Z)
    (note now1 now2 : str) : Op value :=
  if amount_cents <=? 0 then raise (ValueError "Transfer amount must be positive")
  else
    src <- get_account user_id from_acc ;;
    dst <- get_account user_id to_acc ;;
    match src, dst with
    | Some src, Some dst =>
        if id src =? id dst then
          raise (ValueError "Cannot transfer to the same account")
        else
          with_conn (
            begin_immediate ;;;
            add_tx (id src) "transfer_out" (- amount_cents) note now1 ;;;
            add_tx (id dst) "transfer_in" amount_cents note now2 ;;;
            commit) ;;;
          ret VNone
    | _, _ => raise (ValueError "Account not found")
    end.

Definition get_history (user_id : Z) (account_name : str) (limit : Z)
  : Op (list HistoryRow) :=
  acc <- get_account user_id account_name ;;
  match acc with
  | None => raise (ValueError "Account not found")
  | Some acc =>
      with_conn (
        bind_ints [id acc; limit] ;;;
        read (select_history (id acc) limit))
  end.

(** A call of [get_history] that gives [limit] or leaves it out: the
    parameter is declared [limit: int = 20]. *)
Definition get_history_call (user_id : Z) (account_name : str)
    (limit : option Z) : Op (list HistoryRow) :=
  get_history user_id account_name
    (match limit with Some l => l | None => 20 end).

(** [Session.do_history], from the two lines read from the terminal to the
    rows it prints. *)
Definition do_history (self_user : User) (name_input limit_input : str)
  : Op (list HistoryRow) :=
  let name := PyStr.strip name_input in
  let limit_str :=
    match PyStr.strip limit_input with
    | [] => ("20" : str)
    | s => s
    end in
  match PyStr.int limit_str with
  | Raise e => raise e
  | Ok n =>
      let limit := Z.max 1 (Z.min 200 n) in
      get_history (id_of_user self_user) name limit
  end.

(** ** The operations as data, and runs *)

Inductive operation : Type :=
| CreateUser (username salt pw_hash now1 now2 : str)
| CreateAccount (user_id : Z) (name type_ now : str)
| Deposit (user_id : Z) (account_name : str) (amount_cents : Z) (note now : str)
| Withdraw (user_id : Z) (account_name : str) (amount_cents : Z) (note now : str)
| Transfer (user_id : Z) (from_acc to_acc : str) (amount_cents : Z)
    (note now1 now2 : str)
| GetHistory (user_id : Z) (account_name : str) (limit : Z)
| DoHistory (user : User) (name_input limit_input : str).

(** The database an operation leaves, whether it returned or raised. *)
Definition exec (o : operation) (db : Db) : Db :=
  match o with
  | CreateUser u s h n1 n2 => snd (create_user u s h n1 n2 db)
  | CreateAccount u n t now => snd (create_account u n t now db)
  | Deposit u a amt note now => snd (deposit u a amt note now db)
  | Withdraw u a amt note now => snd (withdraw u a amt note now db)
  | Transfer u f t amt note n1 n2 => snd (transfer u f t amt note n1 n2 db)
  | GetHistory u a l => snd (get_history u a l db)
  | DoHistory u n l => snd (do_history u n l db)
  end.

Definition run (ops : list operation) (db : Db) : Db :=
  fold_left (fun d o => exec o d) ops db.

(** ** The invariants of the ledger *)

Definition nonneg_balances (db : Db) : Prop :=
  Forall (fun a => 0 <= a_balance_cents a) (accounts db).

(** The sum of the signed amounts of the transactions of one account. *)
Definition sum_amounts (account_id : Z) (txs : list TxRow) : Z :=
  fold_right
    (fun t acc => if t_account_id t =? account_id then t_amount_cents t + acc else acc)
    0 txs.

Definition consistent (db : Db) : Prop :=
  forall a, In a (accounts db) ->
    a_balance_cents a = sum_amounts (a_id a) (transactions db).

(** Every transaction is the transaction of an account of the table. *)
Definition referential (db : Db) : Prop :=
  forall t, In t (transactions db) ->
    exists a, In a (accounts db) /\ a_id a = t_account_id t.

Definition ledger_inv (db : Db) : Prop := consistent db /\ referential db.

(** What the schema says of the table [accounts]: the primary key, and the
    64-bit integers of its columns. *)
Record schema_ok (db : Db) : Prop := {
  primary_key : NoDup (map a_id (accounts db));
  columns_fit :
    forall a, In a (accounts db) ->
      fits_int64 (a_id a) = true /\ fits_int64 (a_user_id a) = true /\
      fits_int64 (a_balance_cents a) = true
}.

(** The errors of the engine that the properties name. *)
Definition insufficient_funds : exn := ValueError "Insufficient funds".
Definition account_not_found : exn := ValueError "Account not found".
Definition same_account_transfer : exn :=
  ValueError "Cannot transfer to the same account".

(** ** Definitions for the statements and the proofs *)

(** An operation keeps [P] when the database it leaves satisfies [P] if the
    one it started from does. *)
Definition op_preserves (P : Db -> Prop) {A} (m : Op A) : Prop :=
  forall db, P db -> P (snd (m db)).

(** A block of statements keeps [P] when, from a connection whose committed
    database and working copy satisfy [P], it leaves a committed database
    that satisfies [P], and a working copy that does if it returns. *)
Definition sql_preserves (P : Db -> Prop) {A} (m : Sql A) : Prop :=
  forall c, P (committed c) -> P (working c) ->
    P (committed (snd (m c))) /\
    (is_ok (fst (m c)) = true -> P (working (snd (m c)))).

(** The working copy after the [UPDATE] and the [INSERT] of [add_tx]. *)
Definition posted (account_id : Z) (kind : str) (amount_cents new_balance : Z)
    (note now : str) (db : Db) : Db :=
  let db1 := update_balance new_balance account_id db in
  let rowid := next_rowid (transactions_seq db1) (map t_id (transactions db1)) in
  {| users := users db1; users_seq := users_seq db1;
     accounts := accounts db1; accounts_seq := accounts_seq db1;
     transactions :=
       transactions db1 ++
       [{| t_id := rowid; t_account_id := account_id; t_kind := kind;
           t_amount_cents := amount_cents;
           t_balance_after_cents := new_balance;
           t_note := note; t_created_at := now |}];
     transactions_seq := rowid |}.

(** The errors of the binding of an integer and of the [CHECK] on [kind]. *)
Definition overflow_error : exn :=
  OverflowError "Python int too large to convert to SQLite INTEGER".

Definition invalid_kind : exn :=
  IntegrityError "CHECK constraint failed: kind IN ('deposit','withdraw','transfer_in','transfer_out')".

(** [add_tx], branch by branch. *)
Definition add_tx_outcome (account_id : Z) (kind : str) (amount : Z)
    (note now : str) (c : Conn) : result unit * Conn :=
  if negb (fits_int64 account_id) then (Raise overflow_error, c)
  else
    match select_balance account_id (working c) with
    | None => (Raise account_not_found, c)
    | Some b =>
        if b + amount <? 0 then (Raise insufficient_funds, c)
        else if negb (fits_int64 (b + amount)) then (Raise overflow_error, c)
        else
          let c1 := {| committed := committed c;
                       working := update_balance (b + amount) account_id (working c) |} in
          if negb (fits_int64 amount) then (Raise overflow_error, c1)
          else if negb (member kind tx_kinds) then (Raise invalid_kind, c1)
          else
            (Ok tt, {| committed := committed c;
                       working := posted account_id kind amount (b + amount)
                                    note now (working c) |})
    end.

(** The working copy after the [INSERT] of [insert_account]. *)
Definition account_added (user_id : Z) (name type_ : str) (balance : Z)
    (now : str) (db : Db) : Db :=
  let rowid := next_rowid (accounts_seq db) (map a_id (accounts db)) in
  {| users := users db; users_seq := users_seq db;
     accounts :=
       accounts db ++
       [{| a_id := rowid; a_user_id := user_id; a_name := name;
           a_type := type_; a_balance_cents := balance; a_created_at := now |}];
     accounts_seq := rowid;
     transactions := transactions db;
     transactions_seq := transactions_seq db |}.

(** A database to run the operations on: one user, a checking account that
    received one deposit, and an empty savings account. *)
Definition demo_db : Db :=
  {| users :=
       [{| u_id := 1; u_username := "alice"; u_salt := "salt";
           u_password_hash := "key"; u_created_at := "2024-01-01T00:00:00Z" |}];
     users_seq := 1;
     accounts :=
       [{| a_id := 1; a_user_id := 1; a_name := "Checking";
           a_type := "checking"; a_balance_cents := 10000;
           a_created_at := "2024-01-01T00:00:00Z" |};
        {| a_id := 2; a_user_id := 1; a_name := "Savings";
           a_type := "savings"; a_balance_cents := 0;
           a_created_at := "2024-01-03T00:00:00Z" |}];
     accounts_seq := 2;
     transactions :=
       [{| t_id := 1; t_account_id := 1; t_kind := "deposit";
           t_amount_cents := 10000; t_balance_after_cents := 10000;
           t_note := "pay"; t_created_at := "2024-01-02T00:00:00Z" |}];
     transactions_seq := 1 |}.

(** The operations that build it. *)
Definition demo_ops : list operation :=
  [CreateUser "alice" "salt" "key" "2024-01-01T00:00:00Z" "2024-01-01T00:00:00Z";
   Deposit 1 "Checking" 10000 "pay" "2024-01-02T00:00:00Z";
   CreateAccount 1 "Savings" "savings" "2024-01-03T00:00:00Z"].

(** The two entries of a transfer of [amount] from [src] to [dst], and the
    two balances, are in [db'] on top of [db]; nothing else differs in the
    tables of accounts and users. *)
Definition transfer_committed (db : Db) (src dst : AccountRow) (amount : Z)
    (db' : Db) : Prop :=
  exists out inn,
    transactions db' = transactions db ++ [out; inn] /\
    (t_account_id out = a_id src /\ t_kind out = ("transfer_out" : str) /\
     t_amount_cents out = - amount /\
     t_balance_after_cents out = a_balance_cents src - amount) /\
    (t_account_id inn = a_id dst /\ t_kind inn = ("transfer_in" : str) /\
     t_amount_cents inn = amount /\
     t_balance_after_cents inn = a_balance_cents dst + amount) /\
    accounts db' =
      map (fun a =>
             if a_id a =? a_id src
             then set_balance (a_balance_cents src - amount) a
             else if a_id a =? a_id dst
                  then set_balance (a_balance_cents dst + amount) a
                  else a)
        (accounts db) /\
    users db' = users db.

(** Larger rowid, so more recent, first. *)
Definition newer_first (x y : TxRow) : Prop := t_id y <= t_id x.

(** The rowids of the transactions grow along the table: a later entry has a
    larger rowid. *)
Definition rowids_increasing (db : Db) : Prop :=
  StronglySorted Z.lt (map t_id (transactions db)).

(** [demo_db] with a savings account that holds the largest balance the
    column can store. *)
Definition vault_db : Db :=
  {| users := users demo_db; users_seq := users_seq demo_db;
     accounts :=
       [{| a_id := 1; a_user_id := 1; a_name := "Checking";
           a_type := "checking"; a_balance_cents := 10000;
           a_created_at := "2024-01-01T00:00:00Z" |};
        {| a_id := 2; a_user_id := 1; a_name := "Savings";
           a_type := "savings"; a_balance_cents := 9223372036854775807;
           a_created_at := "2024-01-03T00:00:00Z" |}];
     accounts_seq := accounts_seq demo_db;
     transactions := transactions demo_db;
     transactions_seq := transactions_seq demo_db |}.

(** What holds of every decimal digit, as a test on one character. *)
Definition decimal_char_facts (c : ascii) : bool :=
  implb (PyStr.isdecimal c)
    (PyStr.isdigit_char c && PyStr.is_ascii c && negb (PyStr.isspace c)
     && negb (PyStr.isspace_c c) && negb (Ascii.eqb c "-")
     && negb (Ascii.eqb c "+") && negb (Ascii.eqb c "_")
     && negb (Ascii.eqb c ".") && negb (Ascii.eqb c ",")
     && negb (Ascii.eqb c "$")
     && negb (Ascii.eqb "." c) && negb (Ascii.eqb "-" c)
     && (0 <=? PyStr.digit_value c) && (PyStr.digit_value c <=? 9)).

(** The text before the first [c], and the text after it if there is one:
    [s.split(c)] cuts there first. *)
Fixpoint before_char (c : ascii) (s : str) : str :=
  match s with
  | [] => []
  | x :: s' => if Ascii.eqb x c then [] else x :: before_char c s'
  end.

Fixpoint after_char (c : ascii) (s : str) : option str :=
  match s with
  | [] => None
  | x :: s' => if Ascii.eqb x c then Some s' else after_char c s'
  end.

(** The number a string of decimal digits denotes. *)
Definition decimal_value (s : str) : Z :=
  fold_left (fun acc c => 10 * acc + PyStr.digit_value c) s 0.

(** What holds of every character [str.isdigit] takes, as a test on one
    character. *)
Definition digit_char_facts (c : ascii) : bool :=
  implb (PyStr.isdigit_char c)
    (Ascii.eqb (PyStr.to_ascii c) (if PyStr.isdecimal c then c else "?"%char)
     && negb (Ascii.eqb c "-") && negb (Ascii.eqb c "+")
     && negb (Ascii.eqb c ".") && negb (Ascii.eqb c ",")
     && negb (Ascii.eqb c "$") && negb (PyStr.isspace c)).

(** What [int()] sees of a string of digits: the decimal digits, and ['?']
    for the superscripts. *)
Definition seen (c : ascii) : ascii := if PyStr.isdecimal c then c else "?"%char.

(** The characters of a decimal numeral. *)
Definition uint_chars (d : Decimal.uint) : str :=
  list_ascii_of_string (NilEmpty.string_of_uint d).

Module ParseAmount.

(** The text once the symbols recognised around the number are stripped:
    surrounding white space, thousands separators, one leading currency
    symbol. *)
Definition stripped (text : str) : str :=
  let t := PyStr.remove_char "," (PyStr.strip text) in
  if PyStr.startswith "$" t then tl t else t.

(** The optional sign. *)
Definition has_sign (t : str) : bool := PyStr.startswith "-" t.

Definition unsigned (t : str) : str := if has_sign t then tl t else t.

(** The whole part, before the decimal point, and the fractional part,
    after it. *)
Definition whole_digits (t : str) : str := before_char "." (unsigned t).

Definition fraction (t : str) : str :=
  match after_char "." t with
  | Some v => v
  | None => []
  end.

Definition more_than_one_point (t : str) : bool := 1 <? PyStr.count "." t.

Definition too_many_fraction_digits (t : str) : bool :=
  2 <? PyStr.len (fraction t).

(** Something other than a decimal digit is left once the sign and the
    decimal point are stripped too. *)
Definition non_digit_remains (t : str) : bool :=
  negb (forallb PyStr.isdecimal (whole_digits t)
        && forallb PyStr.isdecimal (fraction t)).

(** A sign that no digit follows in the whole part. *)
Definition sign_without_digit (t : str) : bool :=
  has_sign t && match whole_digits t with [] => true | _ => false end.

(** More digits in the whole part than [int()] reads. *)
Definition too_many_digits (t : str) : bool :=
  PyStr.max_str_digits <? PyStr.len (whole_digits t).

(** The three reasons to fail that the specification gives. *)
Definition fails_as_stated (text : str) : bool :=
  let t := stripped text in
  more_than_one_point t || too_many_fraction_digits t || non_digit_remains t.

(** The reasons for which the code fails. *)
Definition fails (text : str) : bool :=
  let t := stripped text in
  more_than_one_point t || too_many_fraction_digits t || non_digit_remains t
  || sign_without_digit t || too_many_digits t.

(** The amount in cents: the fractional part is padded to two digits on
    the right, the sign applies to the whole value. *)
Definition cents (text : str) : Z :=
  let t := stripped text in
  (if has_sign t then -1 else 1)
  * (decimal_value (whole_digits t) * 100
     + decimal_value (firstn 2 (fraction t ++ "00"))).

End ParseAmount.

(** What [to_cents] does with the whole part and the padded fractional part
    once it has them. *)
Definition parse_parts (whole frac : str) : result Z :=
  let whole := match whole with [] => ("0" : str) | _ => whole end in
  if (PyStr.startswith "-" whole && PyStr.isdigit (tl whole))
     || PyStr.isdigit whole
  then
    if negb (PyStr.isdigit frac) then Raise (ValueError "Invalid cents")
    else
      let sign := if PyStr.startswith "-" whole then -1 else 1 in
      match PyStr.int (PyStr.lstrip_char "-" whole) with
      | Raise e => Raise e
      | Ok whole_abs =>
          match PyStr.int frac with
          | Raise e => Raise e
          | Ok cents => Ok (sign * (whole_abs * 100 + cents))
          end
      end
  else Raise (ValueError "Invalid amount").

(** The characters [from_cents] writes, and what holds of them. *)
Definition amount_char (c : ascii) : bool :=
  PyStr.isdecimal c || Ascii.eqb c "-" || Ascii.eqb c ".".

Definition amount_char_facts (c : ascii) : bool :=
  implb (amount_char c)
    (negb (PyStr.isspace c) && negb (Ascii.eqb c ",") && negb (Ascii.eqb c "$")).

(** [f"{m:02d}"] for a remainder modulo 100: two decimal digits. *)
Definition two_digits_ok (m : Z) : bool :=
  match PyStr.format_02d m with
  | Ok [a; b] =>
      PyStr.isdecimal a && PyStr.isdecimal b && (decimal_value [a; b] =? m)
  | _ => false
  end.

(** ** The rest of the program: the accounts of a user, the users, the session

    The key derivation ([hashlib.pbkdf2_hmac] on the encoded password, with
    SHA-256 and [PBKDF2_ROUNDS] rounds) and the random salt
    ([secrets.token_bytes(16)]) come from the libraries: the functions that
    need them take them as [pbkdf2_hmac] and [token_bytes].  A [bytes] value
    is the list of its bytes, one [ascii] each.  What the session reads from
    the terminal is given as arguments; what it prints is left out. *)

(** [ORDER BY id]: the rows sorted on their rowid, smallest first. *)
Fixpoint insert_asc (r : AccountRow) (l : list AccountRow) : list AccountRow :=
  match l with
  | [] => [r]
  | x :: l' => if a_id r <=? a_id x then r :: l else x :: insert_asc r l'
  end.

Definition order_by_id (l : list AccountRow) : list AccountRow :=
  fold_right insert_asc [] l.

(** [SELECT ... FROM accounts WHERE user_id=? ORDER BY id], [fetchall()] *)
Definition select_accounts (user_id : Z) (db : Db) : list AccountRow :=
  order_by_id (filter (fun r => a_user_id r =? user_id) (accounts db)).

Definition list_accounts (user_id : Z) : Op (list Account) :=
  with_conn (
    bind_ints [user_id] ;;;
    rows <- read (select_accounts user_id) ;;
    ret (map Account_of_row rows)).

(** [SELECT id, username, salt, password_hash FROM users WHERE username=?],
    [fetchone()] *)
Definition select_user (username : str) (db : Db) : option UserRow :=
  find (fun r => str_eqb (u_username r) username) (users db).

(** The tuple [get_user_by_username] gives: id, username, salt, hash. *)
Definition UserTuple : Type := (Z * str * str * str)%type.

Definition user_tuple (r : UserRow) : UserTuple :=
  (u_id r, u_username r, u_salt r, u_password_hash r).

Definition get_user_by_username (username : str) : Op (option UserTuple) :=
  with_conn (
    row <- read (select_user username) ;;
    ret (option_map user_tuple row)).

Definition hash_password (pbkdf2_hmac : str -> str -> str) (token_bytes : str)
    (password : str) (salt : option str) : str * str :=
  let salt := match salt with None => token_bytes | Some s => s end in
  let dk := pbkdf2_hmac password salt in
  (salt, dk).

(** [secrets.compare_digest] is the equality of the two byte strings. *)
Definition verify_password (pbkdf2_hmac : str -> str -> str)
    (password salt hashed : str) : bool :=
  let '(_, dk) := hash_password pbkdf2_hmac [] password (Some salt) in
  str_eqb dk hashed.

(** [create_user(username, password)] from the password: [hash_password]
    draws the salt and derives the key that [create_user] stores. *)
Definition create_user_from_password (pbkdf2_hmac : str -> str -> str)
    (token_bytes username password now1 now2 : str) : Op User :=
  let '(salt, pw_hash) := hash_password pbkdf2_hmac token_bytes password None in
  create_user username salt pw_hash now1 now2.

(** [signup_flow], from the three answers to the user it signs up, if any. *)
Definition signup_flow (pbkdf2_hmac : str -> str -> str)
    (token_bytes username_input pw1 pw2 now1 now2 : str) : Op (option User) :=
  let username := PyStr.strip username_input in
  match username with
  | [] => ret None
  | _ =>
      row <- get_user_by_username username ;;
      match row with
      | Some _ => ret None
      | None =>
          if negb (str_eqb pw1 pw2) || (PyStr.len pw1 <? 6) then ret None
          else
            user <- create_user_from_password pbkdf2_hmac token_bytes username
                      pw1 now1 now2 ;;
            ret (Some user)
      end
  end.

(** [login_flow], from the two answers to the user it logs in, if any. *)
Definition login_flow (pbkdf2_hmac : str -> str -> str)
    (username_input password : str) : Op (option User) :=
  let username := PyStr.strip username_input in
  row <- get_user_by_username username ;;
  match row with
  | None => ret None
  | Some (user_id, username, salt, pw_hash) =>
      if verify_password pbkdf2_hmac password salt pw_hash
      then ret (Some {| id_of_user := user_id; username := username |})
      else ret None
  end.

(** [Session.do_deposit], [Session.do_withdraw], [Session.do_transfer]: the
    amount typed goes through [to_cents] before the engine is called. *)
Definition do_deposit (self_user : User)
    (name_input amount_input note_input now : str) : Op value :=
  let name := PyStr.strip name_input in
  match to_cents amount_input with
  | Raise e => raise e
  | Ok amount =>
      let note := PyStr.strip note_input in
      deposit (id_of_user self_user) name amount note now ;;;
      ret VNone
  end.

Definition do_withdraw (self_user : User)
    (name_input amount_input note_input now : str) : Op value :=
  let name := PyStr.strip name_input in
  match to_cents amount_input with
  | Raise e => raise e
  | Ok amount =>
      let note := PyStr.strip note_input in
      withdraw (id_of_user self_user) name amount note now ;;;
      ret VNone
  end.

Definition do_transfer (self_user : User)
    (src_input dst_input amount_input note_input now1 now2 : str) : Op value :=
  let src := PyStr.strip src_input in
  let dst := PyStr.strip dst_input in
  match to_cents amount_input with
  | Raise e => raise e
  | Ok amount =>
      let note := PyStr.strip note_input in
      transfer (id_of_user self_user) src dst amount note now1 now2 ;;;
      ret VNone
  end.

(** ** Definitions for the further properties *)

(** Whether an operation returns. *)
Definition returned (o : operation) (db : Db) : bool :=
  match o with
  | CreateUser u s h n1 n2 => is_ok (fst (create_user u s h n1 n2 db))
  | CreateAccount u n t now => is_ok (fst (create_account u n t now db))
  | Deposit u a amt note now => is_ok (fst (deposit u a amt note now db))
  | Withdraw u a amt note now => is_ok (fst (withdraw u a amt note now db))
  | Transfer u f t amt note n1 n2 => is_ok (fst (transfer u f t amt note n1 n2 db))
  | GetHistory u a l => is_ok (fst (get_history u a l db))
  | DoHistory u n l => is_ok (fst (do_history u n l db))
  end.

(** A block of statements that never touches what is committed. *)
Definition keeps_committed {A} (m : Sql A) : Prop :=
  forall c, committed (snd (m c)) = committed c.

(** A block of statements that leaves what is committed as it was when it
    raises. *)
Definition raises_uncommitted {A} (m : Sql A) : Prop :=
  forall c, is_ok (fst (m c)) = false -> committed (snd (m c)) = committed c.

(** A function that leaves the database as it was when it raises. *)
Definition op_atomic {A} (m : Op A) : Prop :=
  forall db, is_ok (fst (m db)) = false -> snd (m db) = db.

(** A function that never changes the database. *)
Definition op_readonly {A} (m : Op A) : Prop :=
  forall db, snd (m db) = db.

(** The working copy after the [INSERT] of [insert_user]. *)
Definition user_added (username salt pw_hash now : str) (db : Db) : Db :=
  let rowid := next_rowid (users_seq db) (map u_id (users db)) in
  {| users :=
       users db ++
       [{| u_id := rowid; u_username := username; u_salt := salt;
           u_password_hash := pw_hash; u_created_at := now |}];
     users_seq := rowid;
     accounts := accounts db; accounts_seq := accounts_seq db;
     transactions := transactions db;
     transactions_seq := transactions_seq db |}.

(** The errors of the constraints on the two tables. *)
Definition invalid_type : exn :=
  ValueError "type must be 'checking' or 'savings'".

Definition duplicate_account : exn :=
  IntegrityError "UNIQUE constraint failed: accounts.user_id, accounts.name".

Definition duplicate_username : exn :=
  IntegrityError "UNIQUE constraint failed: users.username".

(** An account of [user_id] named [name] is in the table. *)
Definition account_exists (user_id : Z) (name : str) (db : Db) : bool :=
  existsb (fun r => (a_user_id r =? user_id) && str_eqb (a_name r) name)
    (accounts db).

(** The owner and the name of an account: what [UNIQUE(user_id, name)]
    keeps distinct. *)
Definition owner_and_name (r : AccountRow) : Z * str := (a_user_id r, a_name r).

(** What the schema keeps unique. *)
Record keys_unique (db : Db) : Prop := {
  account_ids_unique : NoDup (map a_id (accounts db));
  account_names_unique : NoDup (map owner_and_name (accounts db));
  user_ids_unique : NoDup (map u_id (users db));
  usernames_unique : NoDup (map u_username (users db))
}.

(** What an account keeps for ever: everything but its balance. *)
Definition identity_of (r : AccountRow) : Z * Z * str * str * str :=
  (a_id r, a_user_id r, a_name r, a_type r, a_created_at r).

(** [db'] extends [db]: the transactions of [db] come first and unchanged in
    [db'], and so do the accounts, up to their balances, and the users. *)
Definition extends (db db' : Db) : Prop :=
  (exists new, transactions db' = transactions db ++ new) /\
  (exists new, map identity_of (accounts db') =
               map identity_of (accounts db) ++ new) /\
  (exists new, users db' = users db ++ new).

(** The money the bank holds: the sum of all balances. *)
Definition total_balance (db : Db) : Z :=
  fold_right (fun a s => a_balance_cents a + s) 0 (accounts db).

(** An entry is well formed: its kind is one of the four, the sign of its
    amount is the one of its kind, and the balance it records is not
    negative. *)
Definition entry_ok (t : TxRow) : Prop :=
  0 <= t_balance_after_cents t /\
  ((t_kind t = ("deposit" : str) /\ 0 < t_amount_cents t) \/
   (t_kind t = ("withdraw" : str) /\ t_amount_cents t < 0) \/
   (t_kind t = ("transfer_in" : str) /\ 0 < t_amount_cents t) \/
   (t_kind t = ("transfer_out" : str) /\ t_amount_cents t < 0)).

Definition entries_ok (db : Db) : Prop := Forall entry_ok (transactions db).

(** Every entry records the balance of its account at the time: the sum of
    the amounts of the account up to this entry, this entry included. *)
Definition running_balances (txs : list TxRow) : Prop :=
  forall before t after,
    txs = before ++ t :: after ->
    t_balance_after_cents t = sum_amounts (t_account_id t) (before ++ [t]).

Definition ledger_snapshots (db : Db) : Prop :=
  ledger_inv db /\ running_balances (transactions db).

(** What the statements leave in the table [accounts]: the ids are the
    numbers from 1 to the last one given, which is the number of rows, and
    the columns hold 64-bit integers and one of the two types. *)
Definition rows_ok (db : Db) : Prop :=
  accounts_seq db = Z.of_nat (List.length (accounts db)) /\
  Forall (fun a => 1 <= a_id a <= accounts_seq db /\
                   fits_int64 (a_user_id a) = true /\
                   fits_int64 (a_balance_cents a) = true /\
                   member (a_type a) account_types = true) (accounts db).

(** The accounts that are not those of user [u]. *)
Definition accounts_of_others (u : Z) (db : Db) : list AccountRow :=
  filter (fun r => negb (a_user_id r =? u)) (accounts db).

(** A key derivation to run the flows on. *)
Definition demo_pbkdf2 (password salt : str) : str := salt ++ password.

(** * Proofs *)

Arguments member : simpl never.
Arguments fits_int64 : simpl never.
Arguments next_rowid : simpl never.
Arguments select_balance : simpl never.
Arguments select_account : simpl never.
Arguments update_balance : simpl never.

(** ** Generic facts on the state and exception monad *)

Section Preservation.

Variable P : Db -> Prop.

Lemma op_preserves_ret {A} (a : A) : op_preserves P (ret a).
Proof. intros db H. exact H. Qed.

Lemma op_preserves_raise {A} (e : exn) : op_preserves P (@raise Db A e).
Proof. intros db H. exact H. Qed.

Lemma op_preserves_bind {A B} (m : Op A) (k : A -> Op B) :
  op_preserves P m -> (forall a, op_preserves P (k a)) -> op_preserves P (bind m k).
Proof.
  intros Hm Hk db H. unfold bind.
  specialize (Hm db H). destruct (m db) as [[a|e] db']; simpl in *.
  - apply Hk. exact Hm.
  - exact Hm.
Qed.

Lemma sql_preserves_ret {A} (a : A) : sql_preserves P (ret a).
Proof. intros c Hc Hw. simpl. auto. Qed.

Lemma sql_preserves_raise {A} (e : exn) : sql_preserves P (@raise Conn A e).
Proof. intros c Hc Hw. simpl. split; [exact Hc | discriminate]. Qed.

Lemma sql_preserves_bind {A B} (m : Sql A) (k : A -> Sql B) :
  sql_preserves P m -> (forall a, sql_preserves P (k a)) -> sql_preserves P (bind m k).
Proof.
  intros Hm Hk c Hc Hw. unfold bind.
  destruct (Hm c Hc Hw) as [Hc' Hw'].
  destruct (m c) as [[a|e] c']; simpl in *.
  - apply Hk; auto.
  - split; [exact Hc' | discriminate].
Qed.

Lemma sql_preserves_commit : sql_preserves P commit.
Proof. intros c Hc Hw. simpl. auto. Qed.

Lemma sql_preserves_read {A} (q : Db -> A) : sql_preserves P (read q).
Proof. intros c Hc Hw. simpl. auto. Qed.

Lemma sql_preserves_bind_ints (l : list Z) : sql_preserves P (bind_ints l).
Proof.
  induction l as [|z l IH]; simpl.
  - apply sql_preserves_ret.
  - destruct (fits_int64 z); [exact IH | apply sql_preserves_raise].
Qed.

Lemma sql_preserves_write (f : Db -> Db) :
  (forall db, P db -> P (f db)) -> sql_preserves P (write f).
Proof. intros Hf c Hc Hw. simpl. auto. Qed.

Lemma op_preserves_with_conn {A} (body : Sql A) :
  sql_preserves P body -> op_preserves P (with_conn body).
Proof.
  intros Hb db H. unfold with_conn.
  destruct (Hb (get_conn db) H H) as [Hc Hw].
  destruct (body _) as [[a|e] c']; simpl in *; auto.
Qed.

Lemma op_preserves_get_account (u : Z) (n : str) : op_preserves P (get_account u n).
Proof.
  apply op_preserves_with_conn.
  apply sql_preserves_bind; [apply sql_preserves_bind_ints | intros _].
  apply sql_preserves_bind; [apply sql_preserves_read | intros row].
  apply sql_preserves_ret.
Qed.

(** The three places that write: once they keep [P], every operation
    does. *)
Hypothesis add_tx_preserves :
  forall account_id kind amount note now,
    sql_preserves P (add_tx account_id kind amount note now).
Hypothesis insert_account_preserves :
  forall user_id name type_ now,
    sql_preserves P (insert_account user_id name type_ 0 now).
Hypothesis insert_user_preserves :
  forall username salt pw_hash now,
    sql_preserves P (insert_user username salt pw_hash now).

Lemma op_preserves_deposit u a amt note now :
  op_preserves P (deposit u a amt note now).
Proof.
  unfold deposit. destruct (amt <=? 0); [apply op_preserves_raise|].
  apply op_preserves_bind; [apply op_preserves_get_account | intros [acc|]].
  - apply op_preserves_bind; [| intros; apply op_preserves_ret].
    apply op_preserves_with_conn.
    apply sql_preserves_bind; [apply add_tx_preserves | intros _].
    apply sql_preserves_commit.
  - apply op_preserves_raise.
Qed.

Lemma op_preserves_withdraw u a amt note now :
  op_preserves P (withdraw u a amt note now).
Proof.
  unfold withdraw. destruct (amt <=? 0); [apply op_preserves_raise|].
  apply op_preserves_bind; [apply op_preserves_get_account | intros [acc|]].
  - apply op_preserves_bind; [| intros; apply op_preserves_ret].
    apply op_preserves_with_conn.
    apply sql_preserves_bind; [apply add_tx_preserves | intros _].
    apply sql_preserves_commit.
  - apply op_preserves_raise.
Qed.

Lemma op_preserves_transfer u f t amt note n1 n2 :
  op_preserves P (transfer u f t amt note n1 n2).
Proof.
  unfold transfer. destruct (amt <=? 0); [apply op_preserves_raise|].
  apply op_preserves_bind; [apply op_preserves_get_account | intros src].
  apply op_preserves_bind; [apply op_preserves_get_account | intros dst].
  destruct src as [src|]; [destruct dst as [dst|] |];
    try apply op_preserves_raise.
  destruct (id src =? id dst); [apply op_preserves_raise|].
  apply op_preserves_bind; [| intros; apply op_preserves_ret].
  apply op_preserves_with_conn.
  apply sql_preserves_bind; [apply sql_preserves_ret | intros _].
  apply sql_preserves_bind; [apply add_tx_preserves | intros _].
  apply sql_preserves_bind; [apply add_tx_preserves | intros _].
  apply sql_preserves_commit.
Qed.

Lemma op_preserves_get_history u a l : op_preserves P (get_history u a l).
Proof.
  unfold get_history.
  apply op_preserves_bind; [apply op_preserves_get_account | intros [acc|]].
  - apply op_preserves_with_conn.
    apply sql_preserves_bind; [apply sql_preserves_bind_ints | intros _].
    apply sql_preserves_read.
  - apply op_preserves_raise.
Qed.

Lemma op_preserves_do_history u n l : op_preserves P (do_history u n l).
Proof.
  unfold do_history. destruct (PyStr.int _).
  - apply op_preserves_get_history.
  - apply op_preserves_raise.
Qed.

Lemma op_preserves_create_account u n t now :
  op_preserves P (create_account u n t now).
Proof.
  unfold create_account. destruct (negb _); [apply op_preserves_raise|].
  apply op_preserves_with_conn.
  apply sql_preserves_bind; [apply insert_account_preserves | intros acc_id].
  apply sql_preserves_bind; [apply sql_preserves_commit | intros _].
  apply sql_preserves_ret.
Qed.

Lemma op_preserves_create_user u s h n1 n2 :
  op_preserves P (create_user u s h n1 n2).
Proof.
  unfold create_user. apply op_preserves_with_conn.
  apply sql_preserves_bind; [apply insert_user_preserves | intros uid].
  apply sql_preserves_bind; [apply insert_account_preserves | intros _].
  apply sql_preserves_bind; [apply sql_preserves_commit | intros _].
  apply sql_preserves_ret.
Qed.

Theorem exec_preserves (o : operation) : forall db, P db -> P (exec o db).
Proof.
  destruct o; simpl.
  - apply op_preserves_create_user.
  - apply op_preserves_create_account.
  - apply op_preserves_deposit.
  - apply op_preserves_withdraw.
  - apply op_preserves_transfer.
  - apply op_preserves_get_history.
  - apply op_preserves_do_history.
Qed.

Theorem run_preserves (ops : list operation) :
  forall db, P db -> P (run ops db).
Proof.
  induction ops as [|o ops IH]; intros db H; simpl.
  - exact H.
  - apply IH. apply exec_preserves. exact H.
Qed.

End Preservation.

(** ** What [add_tx] does to a connection *)

Lemma add_tx_eq account_id kind amount note now c :
  add_tx account_id kind amount note now c =
  add_tx_outcome account_id kind amount note now c.
Proof.
  unfold add_tx, add_tx_outcome, insert_transaction.
  cbv [bind read write raise ret bind_ints].
  destruct (fits_int64 account_id); cbn [negb]; [|reflexivity].
  destruct (select_balance account_id (working c)) as [b|]; [|reflexivity].
  destruct (b + amount <? 0); [reflexivity|].
  destruct (fits_int64 (b + amount)); cbn [negb]; [|reflexivity].
  destruct (fits_int64 amount); cbn [negb]; [|reflexivity].
  destruct (negb (member kind tx_kinds)); reflexivity.
Qed.

Ltac add_tx_branches :=
  rewrite ?add_tx_eq; unfold add_tx_outcome;
  repeat match goal with
         | |- context [if negb ?b then _ else _] => destruct b eqn:?; cbn [negb]
         | |- context [match select_balance ?i ?d with _ => _ end] =>
             destruct (select_balance i d) eqn:?
         | |- context [if ?x <? 0 then _ else _] => destruct (x <? 0) eqn:?
         end.

Lemma add_tx_committed account_id kind amount note now c :
  committed (snd (add_tx account_id kind amount note now c)) = committed c.
Proof. add_tx_branches; reflexivity. Qed.

(** [add_tx] returns when the account is there, the new balance is not
    negative and fits, the amount fits and the kind is one of the four; it
    then leaves the posted entry in the working copy. *)
Lemma add_tx_returns account_id kind amount note now c :
  forall b,
    fits_int64 account_id = true ->
    select_balance account_id (working c) = Some b ->
    0 <= b + amount ->
    fits_int64 (b + amount) = true ->
    fits_int64 amount = true ->
    member kind tx_kinds = true ->
    add_tx account_id kind amount note now c =
    (Ok tt, {| committed := committed c;
               working := posted account_id kind amount (b + amount) note now
                            (working c) |}).
Proof.
  intros b Hid Hsel Hnn Hfit Hamt Hkind.
  rewrite add_tx_eq. unfold add_tx_outcome.
  rewrite Hid, Hsel. cbn [negb].
  replace (b + amount <? 0) with false by (symmetry; apply Z.ltb_ge; lia).
  rewrite Hfit, Hamt, Hkind. reflexivity.
Qed.

Lemma add_tx_inv account_id kind amount note now c c' :
  add_tx account_id kind amount note now c = (Ok tt, c') ->
  exists b,
    select_balance account_id (working c) = Some b /\ 0 <= b + amount /\
    fits_int64 (b + amount) = true /\
    c' = {| committed := committed c;
            working := posted account_id kind amount (b + amount) note now
                         (working c) |}.
Proof.
  add_tx_branches; try discriminate.
  intros H. injection H as <-. eexists. repeat split; auto.
  apply Z.ltb_ge. assumption.
Qed.

(** [add_tx] raises [Insufficient funds] exactly when the balance it reads
    would become negative. *)
Lemma add_tx_insufficient account_id kind amount note now c :
  fst (add_tx account_id kind amount note now c) = Raise insufficient_funds <->
  fits_int64 account_id = true /\
  exists b, select_balance account_id (working c) = Some b /\ b + amount < 0.
Proof.
  add_tx_branches; cbn [fst];
    (split;
     [ first [ discriminate
             | intros _; split; [reflexivity|];
               eexists; split; [reflexivity | apply Z.ltb_lt; assumption] ]
     | first [ reflexivity
             | intros [Hf [b' [E Hlt]]];
               first [ discriminate
                     | injection E as <-;
                       match goal with
                       | H : (_ <? 0) = false |- _ => apply Z.ltb_ge in H; lia
                       end ] ] ]).
Qed.

Lemma add_tx_sql_preserves (P : Db -> Prop) :
  (forall db account_id kind amount note now b,
      P db -> select_balance account_id db = Some b -> 0 <= b + amount ->
      P (posted account_id kind amount (b + amount) note now db)) ->
  forall account_id kind amount note now,
    sql_preserves P (add_tx account_id kind amount note now).
Proof.
  intros HP account_id kind amount note now c Hc Hw.
  split.
  - rewrite add_tx_committed. exact Hc.
  - destruct (add_tx account_id kind amount note now c) as [[[]|e] c'] eqn:E;
      simpl; [intros _ | discriminate].
    apply add_tx_inv in E. destruct E as [b [Hsel [Hnn [_ ->]]]]. simpl.
    apply HP; auto.
Qed.

(** ** What the two [INSERT]s of the account service do *)

Lemma insert_account_cases user_id name type_ balance now c :
  (exists e, insert_account user_id name type_ balance now c = (Raise e, c)) \/
  insert_account user_id name type_ balance now c =
  (Ok (next_rowid (accounts_seq (working c)) (map a_id (accounts (working c)))),
   {| committed := committed c;
      working := account_added user_id name type_ balance now (working c) |}).
Proof.
  unfold insert_account. cbv [bind read write raise ret bind_ints].
  destruct (fits_int64 user_id); [|left; eexists; reflexivity].
  destruct (fits_int64 balance); [|left; eexists; reflexivity].
  destruct (negb (member type_ account_types)); [left; eexists; reflexivity|].
  destruct (existsb _ _); [left; eexists; reflexivity|].
  right. reflexivity.
Qed.

Lemma insert_account_sql_preserves (P : Db -> Prop) :
  (forall db user_id name type_ now,
      P db -> P (account_added user_id name type_ 0 now db)) ->
  forall user_id name type_ now,
    sql_preserves P (insert_account user_id name type_ 0 now).
Proof.
  intros HP user_id name type_ now c Hc Hw.
  destruct (insert_account_cases user_id name type_ 0 now c) as [[e ->] | ->];
    simpl.
  - split; [exact Hc | discriminate].
  - split; [exact Hc | intros _; apply HP; exact Hw].
Qed.

Lemma insert_user_sql_preserves (P : Db -> Prop) :
  (forall db db', accounts db' = accounts db ->
                  transactions db' = transactions db -> P db -> P db') ->
  forall username salt pw_hash now,
    sql_preserves P (insert_user username salt pw_hash now).
Proof.
  intros HP username salt pw_hash now c Hc Hw.
  unfold insert_user. cbv [bind read write raise ret].
  destruct (existsb _ _); simpl.
  - split; [exact Hc | discriminate].
  - split; [exact Hc | intros _].
    eapply HP; [| | exact Hw]; reflexivity.
Qed.

(** ** Balances never go below zero *)

Lemma nonneg_posted db account_id kind amount note now b :
  nonneg_balances db -> select_balance account_id db = Some b ->
  0 <= b + amount ->
  nonneg_balances (posted account_id kind amount (b + amount) note now db).
Proof.
  intros H _ Hnn. unfold nonneg_balances, posted, update_balance in *. simpl.
  apply Forall_map. eapply Forall_impl; [| exact H].
  intros a Ha. cbv beta in Ha. destruct (a_id a =? account_id); simpl; lia.
Qed.

Lemma nonneg_account_added db user_id name type_ now :
  nonneg_balances db ->
  nonneg_balances (account_added user_id name type_ 0 now db).
Proof.
  intros H. unfold nonneg_balances, account_added in *. simpl.
  apply Forall_app. split; [exact H|].
  constructor; [simpl; lia | constructor].
Qed.

Lemma nonneg_same_tables db db' :
  accounts db' = accounts db -> transactions db' = transactions db ->
  nonneg_balances db -> nonneg_balances db'.
Proof. unfold nonneg_balances. intros -> _ H. exact H. Qed.

Lemma nonneg_exec (o : operation) (db : Db) :
  nonneg_balances db -> nonneg_balances (exec o db).
Proof.
  apply exec_preserves.
  - apply add_tx_sql_preserves. intros. apply nonneg_posted; assumption.
  - apply insert_account_sql_preserves. intros.
    apply nonneg_account_added; assumption.
  - apply insert_user_sql_preserves. apply nonneg_same_tables.
Qed.

(** ** The balance is the sum of the history *)

Lemma sum_amounts_app account_id l1 l2 :
  sum_amounts account_id (l1 ++ l2) =
  sum_amounts account_id l1 + sum_amounts account_id l2.
Proof.
  unfold sum_amounts. induction l1 as [|t l1 IH]; simpl.
  - reflexivity.
  - rewrite IH. destruct (t_account_id t =? account_id); lia.
Qed.

Lemma sum_amounts_none account_id l :
  (forall t, In t l -> t_account_id t <> account_id) ->
  sum_amounts account_id l = 0.
Proof.
  unfold sum_amounts. induction l as [|t l IH]; intros H; simpl.
  - reflexivity.
  - rewrite IH by (intros t' Ht'; apply H; right; exact Ht').
    destruct (t_account_id t =? account_id) eqn:E; [|reflexivity].
    apply Z.eqb_eq in E. exfalso. apply (H t); [left; reflexivity | exact E].
Qed.

Lemma next_rowid_above seq ids x : In x ids -> x < next_rowid seq ids.
Proof.
  unfold next_rowid. induction ids as [|y ids IH]; simpl; intros H.
  - contradiction.
  - destruct H as [-> | H]; [lia | specialize (IH H); lia].
Qed.

Lemma select_balance_in account_id db b :
  select_balance account_id db = Some b ->
  exists a, In a (accounts db) /\ a_id a = account_id /\ a_balance_cents a = b.
Proof.
  unfold select_balance. destruct (find _ _) as [a|] eqn:E; simpl; [|discriminate].
  intros H. injection H as <-. apply find_some in E. destruct E as [Hin Hid].
  apply Z.eqb_eq in Hid. exists a. auto.
Qed.

Lemma ledger_inv_posted db account_id kind amount note now b :
  ledger_inv db -> select_balance account_id db = Some b ->
  0 <= b + amount ->
  ledger_inv (posted account_id kind amount (b + amount) note now db).
Proof.
  intros [Hc Hr] Hsel _.
  apply select_balance_in in Hsel. destruct Hsel as [a0 [Hin0 [Hid0 Hb0]]].
  assert (Hsum : b = sum_amounts account_id (transactions db)).
  { rewrite <- Hb0, <- Hid0. apply Hc. exact Hin0. }
  split.
  - intros a' Ha'. unfold posted, update_balance in Ha' |- *. simpl in *.
    apply in_map_iff in Ha'. destruct Ha' as [a [<- Ha]].
    rewrite sum_amounts_app. unfold sum_amounts at 2. simpl.
    destruct (a_id a =? account_id) eqn:E; simpl.
    + apply Z.eqb_eq in E. rewrite E, Z.eqb_refl. lia.
    + replace (account_id =? a_id a) with false
        by (symmetry; rewrite Z.eqb_sym; exact E).
      rewrite (Hc a Ha). lia.
  - intros t Ht. unfold posted, update_balance in Ht |- *. simpl in *.
    assert (Hkeep : forall a, In a (accounts db) ->
              exists a', In a' (map (fun r =>
                 if a_id r =? account_id then set_balance (b + amount) r else r)
                 (accounts db)) /\ a_id a' = a_id a).
    { intros a Ha. eexists. split; [apply in_map; exact Ha|].
      destruct (a_id a =? account_id); reflexivity. }
    apply in_app_or in Ht. destruct Ht as [Ht | [<- | []]].
    + destruct (Hr t Ht) as [a [Ha Hida]].
      destruct (Hkeep a Ha) as [a' [Ha' Hida']].
      exists a'. split; [exact Ha' | congruence].
    + destruct (Hkeep a0 Hin0) as [a' [Ha' Hida']].
      exists a'. split; [exact Ha' | simpl; congruence].
Qed.

Lemma ledger_inv_account_added db user_id name type_ now :
  ledger_inv db -> ledger_inv (account_added user_id name type_ 0 now db).
Proof.
  intros [Hc Hr]. split.
  - intros a Ha. unfold account_added in Ha |- *. simpl in *.
    apply in_app_or in Ha. destruct Ha as [Ha | [<- | []]].
    + apply Hc. exact Ha.
    + simpl. symmetry. apply sum_amounts_none. intros t Ht E.
      destruct (Hr t Ht) as [a [Ha Hid]].
      assert (a_id a < next_rowid (accounts_seq db) (map a_id (accounts db)))
        by (apply next_rowid_above, in_map; exact Ha).
      lia.
  - intros t Ht. unfold account_added in Ht |- *. simpl in *.
    destruct (Hr t Ht) as [a [Ha Hid]].
    exists a. split; [apply in_or_app; left; exact Ha | exact Hid].
Qed.

Lemma ledger_inv_same_tables db db' :
  accounts db' = accounts db -> transactions db' = transactions db ->
  ledger_inv db -> ledger_inv db'.
Proof.
  unfold ledger_inv, consistent, referential. intros -> ->. auto.
Qed.

Lemma ledger_inv_exec (o : operation) (db : Db) :
  ledger_inv db -> ledger_inv (exec o db).
Proof.
  apply exec_preserves.
  - apply add_tx_sql_preserves. intros. apply ledger_inv_posted; assumption.
  - apply insert_account_sql_preserves. intros.
    apply ledger_inv_account_added; assumption.
  - apply insert_user_sql_preserves. apply ledger_inv_same_tables.
Qed.

Lemma ledger_inv_empty : ledger_inv empty_db.
Proof. split; intros x []. Qed.

Lemma ledger_inv_run (ops : list operation) (db : Db) :
  ledger_inv db -> ledger_inv (run ops db).
Proof.
  apply run_preserves.
  - apply add_tx_sql_preserves. intros. apply ledger_inv_posted; assumption.
  - apply insert_account_sql_preserves. intros.
    apply ledger_inv_account_added; assumption.
  - apply insert_user_sql_preserves. apply ledger_inv_same_tables.
Qed.

(** ** The operations of the engine, call by call *)

Lemma str_eqb_eq (a b : str) : str_eqb a b = true <-> a = b.
Proof.
  revert b. induction a as [|x a IH]; intros [|y b]; simpl;
    try (split; [discriminate | discriminate]); try tauto.
  rewrite andb_true_iff, Ascii.eqb_eq, IH.
  split; [intros [-> ->]; reflexivity | intros H; injection H; auto].
Qed.

Lemma str_eqb_refl (a : str) : str_eqb a a = true.
Proof. apply str_eqb_eq. reflexivity. Qed.

Lemma get_account_eq user_id name db :
  get_account user_id name db =
  (if fits_int64 user_id
   then Ok (option_map Account_of_row (select_account user_id name db))
   else Raise overflow_error, db).
Proof.
  unfold get_account, with_conn. cbv [bind read raise ret bind_ints get_conn].
  destruct (fits_int64 user_id); reflexivity.
Qed.

Lemma select_account_some user_id name db r :
  select_account user_id name db = Some r ->
  In r (accounts db) /\ a_user_id r = user_id /\ a_name r = name.
Proof.
  unfold select_account. intros H. apply find_some in H.
  destruct H as [Hin H]. apply andb_true_iff in H. destruct H as [H1 H2].
  apply Z.eqb_eq in H1. apply str_eqb_eq in H2. auto.
Qed.

Lemma select_account_none user_id name db :
  select_account user_id name db = None <->
  (forall a, In a (accounts db) -> ~ (a_user_id a = user_id /\ a_name a = name)).
Proof.
  unfold select_account. split.
  - intros H a Ha [Hu Hn].
    pose proof (find_none _ _ H a Ha) as Hf. cbv beta in Hf.
    rewrite Hu, Hn, Z.eqb_refl, str_eqb_refl in Hf. discriminate.
  - intros H. destruct (find _ _) as [r|] eqn:E; [|reflexivity].
    apply find_some in E. destruct E as [Hin E].
    apply andb_true_iff in E. destruct E as [E1 E2].
    apply Z.eqb_eq in E1. apply str_eqb_eq in E2.
    exfalso. apply (H r Hin). auto.
Qed.

Lemma find_by_id (l : list AccountRow) (r : AccountRow) :
  NoDup (map a_id l) -> In r l -> find (fun x => a_id x =? a_id r) l = Some r.
Proof.
  induction l as [|x l IH]; simpl; intros Hnd Hin; [contradiction|].
  inversion Hnd as [|? ? Hnotin Hnd']; subst.
  destruct Hin as [-> | Hin].
  - rewrite Z.eqb_refl. reflexivity.
  - destruct (a_id x =? a_id r) eqn:E.
    + apply Z.eqb_eq in E. exfalso. apply Hnotin. rewrite E.
      apply in_map. exact Hin.
    + apply IH; assumption.
Qed.

Lemma select_balance_row db r :
  NoDup (map a_id (accounts db)) -> In r (accounts db) ->
  select_balance (a_id r) db = Some (a_balance_cents r).
Proof.
  intros Hnd Hin. unfold select_balance.
  rewrite (find_by_id _ _ Hnd Hin). reflexivity.
Qed.

Lemma select_balance_update x new_balance account_id db :
  select_balance x (update_balance new_balance account_id db) =
  if x =? account_id
  then option_map (fun _ => new_balance) (select_balance x db)
  else select_balance x db.
Proof.
  unfold select_balance, update_balance. simpl.
  induction (accounts db) as [|a l IH]; simpl.
  - destruct (x =? account_id); reflexivity.
  - destruct (a_id a =? account_id) eqn:Ea; simpl.
    + apply Z.eqb_eq in Ea. rewrite Ea.
      destruct (account_id =? x) eqn:Ex.
      * apply Z.eqb_eq in Ex. subst x. rewrite Z.eqb_refl. reflexivity.
      * rewrite IH. reflexivity.
    + destruct (a_id a =? x) eqn:Ex.
      * apply Z.eqb_eq in Ex. subst x. rewrite Ea. reflexivity.
      * exact IH.
Qed.

Lemma select_balance_posted x account_id kind amount new_balance note now db :
  select_balance x (posted account_id kind amount new_balance note now db) =
  select_balance x (update_balance new_balance account_id db).
Proof. reflexivity. Qed.

(** One entry in one transaction: committed if [add_tx] returns, rolled back
    if it raises. *)
Lemma with_conn_add_tx account_id kind amount note now db :
  with_conn (add_tx account_id kind amount note now ;;; commit) db =
  match add_tx account_id kind amount note now (get_conn db) with
  | (Ok _, c) => (Ok tt, working c)
  | (Raise e, _) => (Raise e, db)
  end.
Proof.
  unfold with_conn, bind, commit.
  pose proof (add_tx_committed account_id kind amount note now (get_conn db)) as H.
  destruct (add_tx account_id kind amount note now (get_conn db)) as [[[]|e] c];
    simpl in *; [reflexivity | rewrite H; reflexivity].
Qed.

(** The two entries of a transfer in one transaction. *)
Lemma with_conn_two_legs id1 kind1 amount1 now1 id2 kind2 amount2 now2 note db :
  with_conn (begin_immediate ;;;
             add_tx id1 kind1 amount1 note now1 ;;;
             add_tx id2 kind2 amount2 note now2 ;;;
             commit) db =
  match add_tx id1 kind1 amount1 note now1 (get_conn db) with
  | (Raise e, _) => (Raise e, db)
  | (Ok _, c1) =>
      match add_tx id2 kind2 amount2 note now2 c1 with
      | (Raise e, _) => (Raise e, db)
      | (Ok _, c2) => (Ok tt, working c2)
      end
  end.
Proof.
  unfold with_conn, begin_immediate, commit. cbv [bind ret].
  pose proof (add_tx_committed id1 kind1 amount1 note now1 (get_conn db)) as H1.
  destruct (add_tx id1 kind1 amount1 note now1 (get_conn db)) as [[[]|e1] c1];
    simpl in *; [| rewrite H1; reflexivity].
  pose proof (add_tx_committed id2 kind2 amount2 note now2 c1) as H2.
  destruct (add_tx id2 kind2 amount2 note now2 c1) as [[[]|e2] c2];
    simpl in *; [reflexivity | rewrite H2, H1; reflexivity].
Qed.

Lemma member_tx_kinds_deposit : member "deposit" tx_kinds = true.
Proof. reflexivity. Qed.
Lemma member_tx_kinds_withdraw : member "withdraw" tx_kinds = true.
Proof. reflexivity. Qed.
Lemma member_tx_kinds_transfer_in : member "transfer_in" tx_kinds = true.
Proof. reflexivity. Qed.
Lemma member_tx_kinds_transfer_out : member "transfer_out" tx_kinds = true.
Proof. reflexivity. Qed.

Lemma fits_int64_iff z : fits_int64 z = true <-> int64_min <= z <= int64_max.
Proof. unfold fits_int64. rewrite andb_true_iff, !Z.leb_le. tauto. Qed.

(** [withdraw] on an account that exists. *)
Lemma withdraw_existing db user_id account_name amount note now row :
  schema_ok db ->
  select_account user_id account_name db = Some row ->
  0 < amount ->
  withdraw user_id account_name amount note now db =
  if a_balance_cents row <? amount then (Raise insufficient_funds, db)
  else (Ok VNone,
        posted (a_id row) "withdraw" (- amount) (a_balance_cents row - amount)
          note now db).
Proof.
  intros [Hpk Hfit] Hsel Hpos.
  destruct (select_account_some _ _ _ _ Hsel) as [Hin [Hu Hn]].
  destruct (Hfit row Hin) as [Hfid [Hfu Hfb]].
  unfold withdraw.
  replace (amount <=? 0) with false by (symmetry; apply Z.leb_gt; lia).
  unfold bind at 1. rewrite get_account_eq, <- Hu, Hfu, Hu, Hsel. simpl.
  unfold bind at 1. rewrite with_conn_add_tx.
  pose proof (select_balance_row db row Hpk Hin) as Hbal.
  destruct (a_balance_cents row <? amount) eqn:Hlt.
  - apply Z.ltb_lt in Hlt.
    rewrite add_tx_eq. unfold add_tx_outcome. simpl working.
    rewrite Hfid, Hbal. cbn [negb].
    replace (a_balance_cents row + - amount <? 0) with true
      by (symmetry; apply Z.ltb_lt; lia).
    reflexivity.
  - apply Z.ltb_ge in Hlt.
    apply fits_int64_iff in Hfb. unfold int64_min, int64_max in Hfb.
    rewrite (add_tx_returns _ _ _ _ _ _ (a_balance_cents row)); auto;
      try lia; apply fits_int64_iff; unfold int64_min, int64_max; lia.
Qed.

Lemma same_account_iff db user_id from_acc to_acc src dst :
  schema_ok db ->
  select_account user_id from_acc db = Some src ->
  select_account user_id to_acc db = Some dst ->
  (a_id src = a_id dst <-> from_acc = to_acc).
Proof.
  intros [Hpk _] Hs Hd.
  destruct (select_account_some _ _ _ _ Hs) as [Hins [_ Hns]].
  destruct (select_account_some _ _ _ _ Hd) as [Hind [_ Hnd]].
  split.
  - intros E.
    pose proof (find_by_id _ _ Hpk Hins) as F1.
    pose proof (find_by_id _ _ Hpk Hind) as F2.
    rewrite E, F2 in F1. injection F1 as F1. congruence.
  - intros E. rewrite E, Hd in Hs. injection Hs as Hs. congruence.
Qed.

(** [transfer] between two accounts that exist. *)
Lemma transfer_existing db user_id from_acc to_acc amount note now1 now2 src dst :
  schema_ok db ->
  select_account user_id from_acc db = Some src ->
  select_account user_id to_acc db = Some dst ->
  0 < amount ->
  transfer user_id from_acc to_acc amount note now1 now2 db =
  if a_id src =? a_id dst then (Raise same_account_transfer, db)
  else if a_balance_cents src <? amount then (Raise insufficient_funds, db)
  else if a_balance_cents dst + amount <? 0 then (Raise insufficient_funds, db)
  else if int64_max <? a_balance_cents dst + amount then (Raise overflow_error, db)
  else
    (Ok VNone,
     posted (a_id dst) "transfer_in" amount (a_balance_cents dst + amount)
       note now2
       (posted (a_id src) "transfer_out" (- amount)
          (a_balance_cents src - amount) note now1 db)).
Proof.
  intros [Hpk Hfit] Hs Hd Hpos.
  destruct (select_account_some _ _ _ _ Hs) as [Hins [Hus _]].
  destruct (select_account_some _ _ _ _ Hd) as [Hind _].
  destruct (Hfit src Hins) as [Hfs [Hfu Hfbs]].
  destruct (Hfit dst Hind) as [Hfd [_ Hfbd]].
  unfold transfer.
  replace (amount <=? 0) with false by (symmetry; apply Z.leb_gt; lia).
  unfold bind at 1. rewrite get_account_eq, <- Hus, Hfu, Hus, Hs.
  unfold bind at 1. rewrite get_account_eq, <- Hus, Hfu, Hus, Hd.
  cbn [option_map Account_of_row id].
  destruct (a_id src =? a_id dst) eqn:Hid; [reflexivity|].
  apply Z.eqb_neq in Hid.
  unfold bind at 1. rewrite with_conn_two_legs.
  pose proof (select_balance_row db src Hpk Hins) as Hbs.
  pose proof (select_balance_row db dst Hpk Hind) as Hbd.
  apply fits_int64_iff in Hfbs. apply fits_int64_iff in Hfbd.
  unfold int64_min, int64_max in Hfbs, Hfbd.
  destruct (a_balance_cents src <? amount) eqn:Hlt.
  - apply Z.ltb_lt in Hlt.
    rewrite add_tx_eq. unfold add_tx_outcome, get_conn. cbn [working].
    rewrite Hfs, Hbs. cbn [negb].
    replace (a_balance_cents src + - amount <? 0) with true
      by (symmetry; apply Z.ltb_lt; lia).
    reflexivity.
  - apply Z.ltb_ge in Hlt.
    rewrite (add_tx_returns _ _ _ _ _ _ (a_balance_cents src)); auto;
      try lia;
      try (apply fits_int64_iff; unfold int64_min, int64_max; lia).
    cbn [working committed get_conn].
    assert (Hbd' : select_balance (a_id dst)
                     (posted (a_id src) "transfer_out" (- amount)
                        (a_balance_cents src + - amount) note now1 db) =
                   Some (a_balance_cents dst)).
    { rewrite select_balance_posted, select_balance_update.
      replace (a_id dst =? a_id src) with false
        by (symmetry; apply Z.eqb_neq; congruence).
      exact Hbd. }
    destruct (a_balance_cents dst + amount <? 0) eqn:Hneg.
    { rewrite add_tx_eq. unfold add_tx_outcome. cbn [working].
      rewrite Hfd, Hbd', Hneg. reflexivity. }
    apply Z.ltb_ge in Hneg.
    destruct (int64_max <? a_balance_cents dst + amount) eqn:Hov.
    + apply Z.ltb_lt in Hov. unfold int64_max in Hov.
      rewrite add_tx_eq. unfold add_tx_outcome. cbn [working].
      rewrite Hfd, Hbd'. cbn [negb].
      replace (a_balance_cents dst + amount <? 0) with false
        by (symmetry; apply Z.ltb_ge; lia).
      replace (fits_int64 (a_balance_cents dst + amount)) with false.
      * reflexivity.
      * symmetry. apply not_true_is_false. intros F.
        apply fits_int64_iff in F. unfold int64_max in F. lia.
    + apply Z.ltb_ge in Hov. unfold int64_max in Hov.
      rewrite (add_tx_returns _ _ _ _ _ _ (a_balance_cents dst)); auto;
        try lia;
        try (apply fits_int64_iff; unfold int64_min, int64_max; lia).
Qed.

Lemma demo_db_reached : run demo_ops empty_db = demo_db.
Proof. reflexivity. Qed.

Lemma demo_db_schema_ok : schema_ok demo_db.
Proof.
  split.
  - simpl. repeat constructor; simpl; intuition discriminate.
  - intros a [<- | [<- | []]]; repeat split.
Qed.

Lemma vault_db_schema_ok : schema_ok vault_db.
Proof.
  split.
  - simpl. repeat constructor; simpl; intuition discriminate.
  - intros a [<- | [<- | []]]; repeat split.
Qed.

Lemma demo_db_nonneg : nonneg_balances demo_db.
Proof. repeat constructor; simpl; lia. Qed.

(** ** The properties of the engine *)

Lemma nonneg_select_balance db x b :
  nonneg_balances db -> select_balance x db = Some b -> 0 <= b.
Proof.
  intros H Hsel. apply select_balance_in in Hsel.
  destruct Hsel as [a [Hin [_ <-]]].
  unfold nonneg_balances in H. rewrite Forall_forall in H. apply H. exact Hin.
Qed.

Lemma add_tx_credit_sufficient c account_id kind amount note now :
  nonneg_balances (working c) -> 0 <= amount ->
  fst (add_tx account_id kind amount note now c) <> Raise insufficient_funds.
Proof.
  intros Hnn Hpos H. apply add_tx_insufficient in H.
  destruct H as [_ [b [Hsel Hlt]]].
  pose proof (nonneg_select_balance _ _ _ Hnn Hsel). lia.
Qed.

Lemma posted_transactions account_id kind amount new_balance note now db :
  exists e,
    transactions (posted account_id kind amount new_balance note now db) =
    transactions db ++ [e] /\
    t_account_id e = account_id /\ t_kind e = kind /\
    t_amount_cents e = amount /\ t_balance_after_cents e = new_balance /\
    t_note e = note /\ t_created_at e = now.
Proof. unfold posted, update_balance. simpl. eexists. repeat split. Qed.

Lemma posted_accounts account_id kind amount new_balance note now db :
  accounts (posted account_id kind amount new_balance note now db) =
  map (fun r => if a_id r =? account_id then set_balance new_balance r else r)
    (accounts db).
Proof. reflexivity. Qed.

Lemma transfer_committed_posted db src dst amount note now1 now2 :
  a_id src <> a_id dst ->
  transfer_committed db src dst amount
    (posted (a_id dst) "transfer_in" amount (a_balance_cents dst + amount)
       note now2
       (posted (a_id src) "transfer_out" (- amount)
          (a_balance_cents src - amount) note now1 db)).
Proof.
  intros Hid. unfold transfer_committed.
  destruct (posted_transactions (a_id src) "transfer_out" (- amount)
              (a_balance_cents src - amount) note now1 db)
    as [out [E1 [O1 [O2 [O3 [O4 _]]]]]].
  destruct (posted_transactions (a_id dst) "transfer_in" amount
              (a_balance_cents dst + amount) note now2
              (posted (a_id src) "transfer_out" (- amount)
                 (a_balance_cents src - amount) note now1 db))
    as [inn [E2 [I1 [I2 [I3 [I4 _]]]]]].
  exists out, inn. split; [| split; [| split; [| split]]].
  - rewrite E2, E1, <- app_assoc. reflexivity.
  - auto.
  - auto.
  - rewrite !posted_accounts, map_map. apply map_ext. intros a.
    destruct (a_id a =? a_id src) eqn:Es.
    + cbn [set_balance a_id]. apply Z.eqb_eq in Es.
      replace (a_id a =? a_id dst) with false
        by (symmetry; apply Z.eqb_neq; congruence).
      reflexivity.
    + reflexivity.
  - reflexivity.
Qed.

(** C1. A transfer between two distinct accounts of a user, of a positive
    amount, is all or nothing: either it raises and the database is the one
    it started from, or it returns and the database holds exactly two new
    entries, [transfer_out] of [- amount] on the source and [transfer_in] of
    [+ amount] on the destination, with both balances updated.  When the
    source holds less than [amount] it raises [Insufficient funds] and the
    database is unchanged; when the source holds enough and the credited
    balance is a 64-bit integer, it returns; when the source holds enough
    and the credited balance cannot be stored, the credit raises and the
    debit, already written, is rolled back with it. *)
Theorem transfer_atomic :
  forall db user_id from_acc to_acc amount note now1 now2 src dst,
    schema_ok db ->
    select_account user_id from_acc db = Some src ->
    select_account user_id to_acc db = Some dst ->
    from_acc <> to_acc ->
    0 < amount ->
    let r := transfer user_id from_acc to_acc amount note now1 now2 db in
    ((exists e, r = (Raise e, db)) \/
     (exists db', r = (Ok VNone, db') /\
                  transfer_committed db src dst amount db')) /\
    (a_balance_cents src < amount -> r = (Raise insufficient_funds, db)) /\
    (amount <= a_balance_cents src ->
     0 <= a_balance_cents dst ->
     a_balance_cents dst + amount <= int64_max ->
     exists db', r = (Ok VNone, db') /\
                 transfer_committed db src dst amount db') /\
    (amount <= a_balance_cents src ->
     0 <= a_balance_cents dst ->
     int64_max < a_balance_cents dst + amount ->
     r = (Raise overflow_error, db)).
Proof.
  intros db user_id from_acc to_acc amount note now1 now2 src dst
         Hok Hs Hd Hne Hpos r.
  assert (Hid : a_id src <> a_id dst).
  { intros E. apply Hne. eapply same_account_iff; eauto. }
  subst r. rewrite (transfer_existing _ _ _ _ _ _ _ _ _ _ Hok Hs Hd Hpos).
  replace (a_id src =? a_id dst) with false
    by (symmetry; apply Z.eqb_neq; exact Hid).
  split; [| split; [| split]].
  - destruct (a_balance_cents src <? amount); [left; eexists; reflexivity|].
    destruct (a_balance_cents dst + amount <? 0); [left; eexists; reflexivity|].
    destruct (int64_max <? a_balance_cents dst + amount);
      [left; eexists; reflexivity|].
    right. eexists. split; [reflexivity|].
    apply transfer_committed_posted. exact Hid.
  - intros Hlt. apply Z.ltb_lt in Hlt. rewrite Hlt. reflexivity.
  - intros H1 H2 H3.
    replace (a_balance_cents src <? amount) with false
      by (symmetry; apply Z.ltb_ge; lia).
    replace (a_balance_cents dst + amount <? 0) with false
      by (symmetry; apply Z.ltb_ge; lia).
    replace (int64_max <? a_balance_cents dst + amount) with false
      by (symmetry; apply Z.ltb_ge; lia).
    eexists. split; [reflexivity|].
    apply transfer_committed_posted. exact Hid.
  - intros H1 H2 H3.
    replace (a_balance_cents src <? amount) with false
      by (symmetry; apply Z.ltb_ge; lia).
    replace (a_balance_cents dst + amount <? 0) with false
      by (symmetry; apply Z.ltb_ge; lia).
    replace (int64_max <? a_balance_cents dst + amount) with true
      by (symmetry; apply Z.ltb_lt; lia).
    reflexivity.
Qed.

Lemma transfer_atomic_witness :
  (exists db',
      transfer 1 "Checking" "Savings" 4000 "rent" "2024-01-04T00:00:00Z"
        "2024-01-04T00:00:01Z" demo_db = (Ok VNone, db') /\
      transfer_committed demo_db
        {| a_id := 1; a_user_id := 1; a_name := "Checking"; a_type := "checking";
           a_balance_cents := 10000; a_created_at := "2024-01-01T00:00:00Z" |}
        {| a_id := 2; a_user_id := 1; a_name := "Savings"; a_type := "savings";
           a_balance_cents := 0; a_created_at := "2024-01-03T00:00:00Z" |}
        4000 db') /\
  transfer 1 "Savings" "Checking" 4000 "rent" "2024-01-04T00:00:00Z"
    "2024-01-04T00:00:01Z" demo_db = (Raise insufficient_funds, demo_db) /\
  transfer 1 "Checking" "Savings" 4000 "rent" "2024-01-04T00:00:00Z"
    "2024-01-04T00:00:01Z" vault_db = (Raise overflow_error, vault_db).
Proof.
  split; [| split].
  - apply (transfer_atomic demo_db 1 "Checking" "Savings" 4000 "rent"
             "2024-01-04T00:00:00Z" "2024-01-04T00:00:01Z").
    + exact demo_db_schema_ok.
    + reflexivity.
    + reflexivity.
    + discriminate.
    + lia.
    + simpl. lia.
    + simpl. lia.
    + simpl. unfold int64_max. lia.
  - apply (transfer_atomic demo_db 1 "Savings" "Checking" 4000 "rent"
             "2024-01-04T00:00:00Z" "2024-01-04T00:00:01Z"
             {| a_id := 2; a_user_id := 1; a_name := "Savings";
                a_type := "savings"; a_balance_cents := 0;
                a_created_at := "2024-01-03T00:00:00Z" |}
             {| a_id := 1; a_user_id := 1; a_name := "Checking";
                a_type := "checking"; a_balance_cents := 10000;
                a_created_at := "2024-01-01T00:00:00Z" |}).
    + exact demo_db_schema_ok.
    + reflexivity.
    + reflexivity.
    + discriminate.
    + lia.
    + simpl. lia.
  - apply (transfer_atomic vault_db 1 "Checking" "Savings" 4000 "rent"
             "2024-01-04T00:00:00Z" "2024-01-04T00:00:01Z"
             {| a_id := 1; a_user_id := 1; a_name := "Checking";
                a_type := "checking"; a_balance_cents := 10000;
                a_created_at := "2024-01-01T00:00:00Z" |}
             {| a_id := 2; a_user_id := 1; a_name := "Savings";
                a_type := "savings"; a_balance_cents := 9223372036854775807;
                a_created_at := "2024-01-03T00:00:00Z" |}).
    + exact vault_db_schema_ok.
    + reflexivity.
    + reflexivity.
    + discriminate.
    + lia.
    + simpl. lia.
    + simpl. lia.
    + simpl. unfold int64_max. lia.
Defined.

(** C2. From a database where no balance is negative, every operation of the
    engine, whether it returns or raises, leaves a database where no balance
    is negative; so does every run of operations from the empty database. *)
Theorem nonneg_balance_invariant :
  (forall o db, nonneg_balances db -> nonneg_balances (exec o db)) /\
  (forall ops, nonneg_balances (run ops empty_db)).
Proof.
  split.
  - exact nonneg_exec.
  - intros ops. apply run_preserves.
    + apply add_tx_sql_preserves. intros. apply nonneg_posted; assumption.
    + apply insert_account_sql_preserves. intros.
      apply nonneg_account_added; assumption.
    + apply insert_user_sql_preserves. apply nonneg_same_tables.
    + constructor.
Qed.

Lemma nonneg_balance_invariant_witness :
  nonneg_balances
    (exec (Withdraw 1 "Checking" 2500 "cash" "2024-01-05T00:00:00Z") demo_db) /\
  nonneg_balances
    (exec (Withdraw 1 "Checking" 25000 "cash" "2024-01-05T00:00:00Z") demo_db).
Proof.
  split; apply (proj1 nonneg_balance_invariant); exact demo_db_nonneg.
Defined.

(** C3. The balance of every account is the sum of the signed amounts of its
    transactions: this holds after every run of operations from the empty
    database, where each account starts at its creation with balance 0 and
    no transaction, and every operation of the engine preserves it, together
    with the fact that every transaction belongs to an account of the
    table. *)
Theorem balance_is_sum_of_history :
  (forall o db, ledger_inv db -> ledger_inv (exec o db)) /\
  (forall ops a,
      In a (accounts (run ops empty_db)) ->
      a_balance_cents a =
      sum_amounts (a_id a) (transactions (run ops empty_db))).
Proof.
  split.
  - exact ledger_inv_exec.
  - intros ops a Ha.
    destruct (ledger_inv_run ops empty_db ledger_inv_empty) as [Hc _].
    apply Hc. exact Ha.
Qed.

Lemma balance_is_sum_of_history_witness :
  10000 = sum_amounts 1 (transactions demo_db) /\
  ledger_inv (exec (Deposit 1 "Savings" 500 "gift" "2024-01-06T00:00:00Z") demo_db).
Proof.
  split.
  - apply (proj2 balance_is_sum_of_history demo_ops
             {| a_id := 1; a_user_id := 1; a_name := "Checking";
                a_type := "checking"; a_balance_cents := 10000;
                a_created_at := "2024-01-01T00:00:00Z" |}).
    left. reflexivity.
  - apply (proj1 balance_is_sum_of_history).
    exact (ledger_inv_run demo_ops empty_db ledger_inv_empty).
Defined.

(** C4, as the code has it.  On an account that exists, with a positive
    amount, [withdraw] raises [Insufficient funds] exactly when the balance
    is less than the amount, and then leaves the database unchanged.
    Otherwise it appends exactly one entry, of kind [withdraw] and signed
    amount [- amount], records the new balance in the account and in the
    entry, and returns [None]: the new balance is stored, not returned. *)
Theorem withdraw_ledger_entry :
  forall db user_id account_name amount note now row,
    schema_ok db ->
    select_account user_id account_name db = Some row ->
    0 < amount ->
    let r := withdraw user_id account_name amount note now db in
    (fst r = Raise insufficient_funds <-> a_balance_cents row < amount) /\
    (a_balance_cents row < amount -> r = (Raise insufficient_funds, db)) /\
    (amount <= a_balance_cents row ->
     exists db' e,
       r = (Ok VNone, db') /\
       transactions db' = transactions db ++ [e] /\
       t_account_id e = a_id row /\ t_kind e = ("withdraw" : str) /\
       t_amount_cents e = - amount /\
       t_balance_after_cents e = a_balance_cents row - amount /\
       select_balance (a_id row) db' = Some (a_balance_cents row - amount)).
Proof.
  intros db user_id account_name amount note now row Hok Hsel Hpos r.
  subst r. rewrite (withdraw_existing _ _ _ _ _ _ _ Hok Hsel Hpos).
  destruct (a_balance_cents row <? amount) eqn:Hlt.
  - apply Z.ltb_lt in Hlt. split; [| split].
    + simpl. tauto.
    + reflexivity.
    + lia.
  - apply Z.ltb_ge in Hlt. split; [| split].
    + simpl. split; [discriminate | lia].
    + lia.
    + intros _.
      destruct (posted_transactions (a_id row) "withdraw" (- amount)
                  (a_balance_cents row - amount) note now db)
        as [e [E [H1 [H2 [H3 [H4 _]]]]]].
      eexists. exists e. split; [reflexivity|].
      repeat (split; [assumption|]).
      rewrite select_balance_posted, select_balance_update, Z.eqb_refl.
      destruct Hok as [Hpk _].
      destruct (select_account_some _ _ _ _ Hsel) as [Hin _].
      rewrite (select_balance_row db row Hpk Hin). reflexivity.
Qed.

Lemma withdraw_ledger_entry_witness :
  withdraw 1 "Checking" 25000 "cash" "2024-01-05T00:00:00Z" demo_db =
    (Raise insufficient_funds, demo_db) /\
  exists db' e,
    withdraw 1 "Checking" 2500 "cash" "2024-01-05T00:00:00Z" demo_db =
      (Ok VNone, db') /\
    transactions db' = transactions demo_db ++ [e] /\
    t_account_id e = 1 /\ t_kind e = ("withdraw" : str) /\
    t_amount_cents e = - 2500 /\
    t_balance_after_cents e = 10000 - 2500 /\
    select_balance 1 db' = Some (10000 - 2500).
Proof.
  split.
  - apply (withdraw_ledger_entry demo_db 1 "Checking" 25000 "cash"
             "2024-01-05T00:00:00Z"
             {| a_id := 1; a_user_id := 1; a_name := "Checking";
                a_type := "checking"; a_balance_cents := 10000;
                a_created_at := "2024-01-01T00:00:00Z" |}).
    + exact demo_db_schema_ok.
    + reflexivity.
    + lia.
    + simpl. lia.
  - apply (withdraw_ledger_entry demo_db 1 "Checking" 2500 "cash"
             "2024-01-05T00:00:00Z"
             {| a_id := 1; a_user_id := 1; a_name := "Checking";
                a_type := "checking"; a_balance_cents := 10000;
                a_created_at := "2024-01-01T00:00:00Z" |}).
    + exact demo_db_schema_ok.
    + reflexivity.
    + lia.
    + simpl. lia.
Defined.

(** C4, as stated, fails: a withdrawal of 3000 from a balance of 10000 is
    carried out, and the call evaluates to [None], not to the new balance
    7000. *)
Lemma withdraw_returns_none :
  select_balance 1 demo_db = Some 10000 /\
  fst (withdraw 1 "Checking" 3000 "cash" "2024-01-05T00:00:00Z" demo_db) = Ok VNone /\
  fst (withdraw 1 "Checking" 3000 "cash" "2024-01-05T00:00:00Z" demo_db)
    <> Ok (VInt (10000 - 3000)).
Proof.
  split; [reflexivity|]. split; [reflexivity|]. vm_compute. discriminate.
Qed.

(** C8. Between two accounts of a user that exist, with a positive amount,
    [transfer] raises [Cannot transfer to the same account] exactly when the
    two names are the same, which is exactly when the two rows have the same
    id; the database is then unchanged. *)
Theorem transfer_same_account :
  forall db user_id from_acc to_acc amount note now1 now2 src dst,
    schema_ok db ->
    select_account user_id from_acc db = Some src ->
    select_account user_id to_acc db = Some dst ->
    0 < amount ->
    let r := transfer user_id from_acc to_acc amount note now1 now2 db in
    (fst r = Raise same_account_transfer <-> from_acc = to_acc) /\
    (a_id src = a_id dst <-> from_acc = to_acc) /\
    (from_acc = to_acc -> r = (Raise same_account_transfer, db)).
Proof.
  intros db user_id from_acc to_acc amount note now1 now2 src dst
         Hok Hs Hd Hpos r.
  pose proof (same_account_iff _ _ _ _ _ _ Hok Hs Hd) as Hiff.
  subst r. rewrite (transfer_existing _ _ _ _ _ _ _ _ _ _ Hok Hs Hd Hpos).
  destruct (a_id src =? a_id dst) eqn:Hid.
  - apply Z.eqb_eq in Hid. split; [| split]; [simpl; tauto | exact Hiff | reflexivity].
  - apply Z.eqb_neq in Hid.
    assert (Hne : from_acc <> to_acc) by tauto.
    split; [| split]; [| exact Hiff | tauto].
    split; [| tauto].
    destruct (a_balance_cents src <? amount); [discriminate|].
    destruct (a_balance_cents dst + amount <? 0); [discriminate|].
    destruct (int64_max <? a_balance_cents dst + amount); discriminate.
Qed.

Lemma transfer_same_account_witness :
  transfer 1 "Savings" "Savings" 4000 "rent" "2024-01-04T00:00:00Z"
    "2024-01-04T00:00:01Z" demo_db = (Raise same_account_transfer, demo_db).
Proof.
  apply (transfer_same_account demo_db 1 "Savings" "Savings" 4000 "rent"
           "2024-01-04T00:00:00Z" "2024-01-04T00:00:01Z"
           {| a_id := 2; a_user_id := 1; a_name := "Savings";
              a_type := "savings"; a_balance_cents := 0;
              a_created_at := "2024-01-03T00:00:00Z" |}
           {| a_id := 2; a_user_id := 1; a_name := "Savings";
              a_type := "savings"; a_balance_cents := 0;
              a_created_at := "2024-01-03T00:00:00Z" |}).
  - exact demo_db_schema_ok.
  - reflexivity.
  - reflexivity.
  - lia.
  - reflexivity.
Defined.

(** C9. When no balance is negative, a positive entry never raises
    [Insufficient funds]: [deposit] never does, [add_tx] with a positive
    amount never does, and a [transfer] that raises it does so on its debit,
    the balance read for the source being less than the amount. *)
Theorem credit_never_insufficient :
  (forall db user_id account_name amount note now,
      nonneg_balances db ->
      fst (deposit user_id account_name amount note now db)
        <> Raise insufficient_funds) /\
  (forall c account_id kind amount note now,
      nonneg_balances (working c) -> 0 < amount ->
      fst (add_tx account_id kind amount note now c) <> Raise insufficient_funds) /\
  (forall db user_id from_acc to_acc amount note now1 now2,
      nonneg_balances db ->
      fst (transfer user_id from_acc to_acc amount note now1 now2 db)
        = Raise insufficient_funds ->
      exists src b,
        select_account user_id from_acc db = Some src /\
        select_balance (a_id src) db = Some b /\ b < amount).
Proof.
  split; [| split].
  - intros db user_id account_name amount note now Hnn.
    unfold deposit. destruct (amount <=? 0) eqn:Hamt; [discriminate|].
    apply Z.leb_gt in Hamt.
    unfold bind at 1. rewrite get_account_eq.
    destruct (fits_int64 user_id); [|discriminate].
    destruct (select_account user_id account_name db) as [row|]; [|discriminate].
    cbn [option_map Account_of_row id].
    unfold bind at 1. rewrite with_conn_add_tx.
    pose proof (add_tx_credit_sufficient (get_conn db) (a_id row) "deposit"
                  amount note now Hnn (Z.lt_le_incl _ _ Hamt)) as H.
    destruct (add_tx _ _ _ _ _ _) as [[[]|e] c]; simpl in *; [discriminate|].
    intros F. apply H. injection F as ->. reflexivity.
  - intros c account_id kind amount note now Hnn Hpos.
    apply add_tx_credit_sufficient; [exact Hnn | lia].
  - intros db user_id from_acc to_acc amount note now1 now2 Hnn.
    unfold transfer. destruct (amount <=? 0) eqn:Hamt; [discriminate|].
    apply Z.leb_gt in Hamt.
    unfold bind at 1. rewrite get_account_eq.
    destruct (fits_int64 user_id) eqn:Hfit; [|discriminate].
    unfold bind at 1. rewrite get_account_eq, Hfit.
    destruct (select_account user_id from_acc db) as [src|];
      destruct (select_account user_id to_acc db) as [dst|]; try discriminate.
    cbn [option_map Account_of_row id].
    destruct (a_id src =? a_id dst); [discriminate|].
    unfold bind at 1. rewrite with_conn_two_legs.
    destruct (add_tx (a_id src) _ _ _ _ _) as [[[]|e1] c1] eqn:E1.
    + apply add_tx_inv in E1. destruct E1 as [b [Hsel [Hb [_ ->]]]].
      pose proof (add_tx_credit_sufficient
                    {| committed := committed (get_conn db);
                       working := posted (a_id src) "transfer_out" (- amount)
                                    (b + - amount) note now1
                                    (working (get_conn db)) |}
                    (a_id dst) "transfer_in" amount note now2) as H.
      cbn [working] in H.
      specialize (H (nonneg_posted _ _ _ _ _ _ _ Hnn Hsel Hb)
                    (Z.lt_le_incl _ _ Hamt)).
      destruct (add_tx (a_id dst) _ _ _ _ _) as [[[]|e2] c2];
        simpl in *; [discriminate|].
      intros F. exfalso. apply H. injection F as ->. reflexivity.
    + simpl. intros He.
      assert (H : fst (add_tx (a_id src) "transfer_out" (- amount) note now1
                         (get_conn db)) = Raise insufficient_funds)
        by (rewrite E1; injection He as ->; reflexivity).
      apply add_tx_insufficient in H. destruct H as [_ [b [Hsel Hlt]]].
      exists src, b. split; [reflexivity|]. split; [exact Hsel | lia].
Qed.

Lemma credit_never_insufficient_witness :
  fst (deposit 1 "Savings" 500 "gift" "2024-01-06T00:00:00Z" demo_db)
    <> Raise insufficient_funds /\
  fst (add_tx 2 "transfer_in" 500 "gift" "2024-01-06T00:00:00Z" (get_conn demo_db))
    <> Raise insufficient_funds /\
  exists src b,
    select_account 1 "Savings" demo_db = Some src /\
    select_balance (a_id src) demo_db = Some b /\ b < 4000.
Proof.
  split; [| split].
  - apply (proj1 credit_never_insufficient demo_db 1 "Savings" 500 "gift"
             "2024-01-06T00:00:00Z").
    exact demo_db_nonneg.
  - apply (proj1 (proj2 credit_never_insufficient) (get_conn demo_db) 2
             "transfer_in" 500 "gift" "2024-01-06T00:00:00Z").
    + exact demo_db_nonneg.
    + lia.
  - apply (proj2 (proj2 credit_never_insufficient) demo_db 1 "Savings"
             "Checking" 4000 "rent" "2024-01-04T00:00:00Z"
             "2024-01-04T00:00:01Z").
    + exact demo_db_nonneg.
    + reflexivity.
Defined.

(** ** The history *)

Lemma insert_desc_perm t l : Permutation (insert_desc t l) (t :: l).
Proof.
  induction l as [|x l IH]; simpl.
  - apply Permutation_refl.
  - destruct (t_id x <=? t_id t).
    + apply Permutation_refl.
    + eapply Permutation_trans; [apply perm_skip; exact IH | apply perm_swap].
Qed.

Lemma order_by_id_desc_perm l : Permutation (order_by_id_desc l) l.
Proof.
  induction l as [|t l IH]; simpl.
  - constructor.
  - eapply Permutation_trans; [apply insert_desc_perm | apply perm_skip; exact IH].
Qed.

Lemma insert_desc_sorted t l :
  StronglySorted newer_first l -> StronglySorted newer_first (insert_desc t l).
Proof.
  induction l as [|x l IH]; simpl; intros Hs.
  - repeat constructor.
  - inversion Hs as [|? ? Hs' Hall]; subst.
    destruct (t_id x <=? t_id t) eqn:E.
    + apply Z.leb_le in E. constructor; [exact Hs|].
      constructor; [exact E|].
      eapply Forall_impl; [| exact Hall].
      intros y Hy. unfold newer_first in *. lia.
    + apply Z.leb_gt in E. constructor; [apply IH; exact Hs'|].
      rewrite Forall_forall. intros y Hy.
      apply (Permutation_in _ (insert_desc_perm t l)) in Hy.
      destruct Hy as [<- | Hy].
      * unfold newer_first. lia.
      * rewrite Forall_forall in Hall. apply Hall. exact Hy.
Qed.

Lemma order_by_id_desc_sorted l : StronglySorted newer_first (order_by_id_desc l).
Proof.
  induction l as [|t l IH]; simpl.
  - constructor.
  - apply insert_desc_sorted. exact IH.
Qed.

Lemma firstn_In {A} n (l : list A) x : In x (firstn n l) -> In x l.
Proof.
  intros H. rewrite <- (firstn_skipn n l). apply in_or_app. left. exact H.
Qed.

Lemma firstn_sorted {A} (R : A -> A -> Prop) n l :
  StronglySorted R l -> StronglySorted R (firstn n l).
Proof.
  revert l. induction n as [|n IH]; intros [|x l] Hs; simpl; try constructor.
  - inversion Hs; subst. apply IH. assumption.
  - inversion Hs as [|? ? _ Hall]; subst.
    rewrite Forall_forall in *. intros y Hy. apply Hall.
    apply (firstn_In n l). exact Hy.
Qed.

Lemma sql_limit_sorted {A} (R : A -> A -> Prop) limit l :
  StronglySorted R l -> StronglySorted R (sql_limit limit l).
Proof.
  intros Hs. unfold sql_limit. destruct (limit <? 0); [exact Hs|].
  apply firstn_sorted. exact Hs.
Qed.

Lemma sql_limit_length {A} limit (l : list A) :
  0 <= limit -> (Z.of_nat (List.length (sql_limit limit l)) <= limit)%Z.
Proof.
  intros H. unfold sql_limit.
  replace (limit <? 0) with false by (symmetry; apply Z.ltb_ge; lia).
  pose proof (firstn_le_length (Z.to_nat limit) l). lia.
Qed.

Lemma sorted_snoc {A} (R : A -> A -> Prop) l x :
  StronglySorted R l -> Forall (fun y => R y x) l -> StronglySorted R (l ++ [x]).
Proof.
  induction l as [|y l IH]; simpl; intros Hs Hall.
  - repeat constructor.
  - inversion Hs as [|? ? Hs' Hy]; subst.
    inversion Hall as [|? ? Hyx Hall']; subst.
    constructor; [apply IH; assumption|].
    apply Forall_app. split; [exact Hy | repeat constructor; exact Hyx].
Qed.

Lemma rowids_posted db account_id kind amount note now b :
  rowids_increasing db -> select_balance account_id db = Some b ->
  0 <= b + amount ->
  rowids_increasing (posted account_id kind amount (b + amount) note now db).
Proof.
  intros H _ _. unfold rowids_increasing, posted, update_balance in *.
  cbn [transactions transactions_seq]. rewrite map_app. cbn [map t_id].
  apply sorted_snoc; [exact H|].
  rewrite Forall_forall. intros x Hx. apply next_rowid_above. exact Hx.
Qed.

Lemma rowids_same_transactions db db' :
  transactions db' = transactions db -> rowids_increasing db ->
  rowids_increasing db'.
Proof. unfold rowids_increasing. intros ->. auto. Qed.

Lemma rowids_run (ops : list operation) : rowids_increasing (run ops empty_db).
Proof.
  apply run_preserves.
  - apply add_tx_sql_preserves. intros. apply rowids_posted; assumption.
  - apply insert_account_sql_preserves. intros db u n t now H.
    apply (rowids_same_transactions db); [reflexivity | exact H].
  - apply insert_user_sql_preserves. intros db db' _ Ht H.
    apply (rowids_same_transactions db); assumption.
  - constructor.
Qed.

Lemma insert_desc_oldest t l :
  Forall (fun x => t_id t < t_id x) l -> insert_desc t l = l ++ [t].
Proof.
  induction l as [|x l IH]; simpl; intros H; [reflexivity|].
  inversion H as [|? ? Hx Hl]; subst.
  replace (t_id x <=? t_id t) with false by (symmetry; apply Z.leb_gt; exact Hx).
  rewrite IH by exact Hl. reflexivity.
Qed.

(** On a table whose rowids grow, the rows by rowid, largest first, are the
    rows from the last inserted to the first. *)
Lemma order_by_id_desc_rev l :
  StronglySorted Z.lt (map t_id l) -> order_by_id_desc l = rev l.
Proof.
  induction l as [|t l IH]; simpl; intros H; [reflexivity|].
  inversion H as [|? ? Hs Hall]; subst.
  rewrite IH by exact Hs. apply insert_desc_oldest.
  rewrite Forall_forall in *. intros x Hx. apply Hall.
  apply in_map. apply in_rev. exact Hx.
Qed.

Lemma sorted_filter (p : TxRow -> bool) l :
  StronglySorted Z.lt (map t_id l) ->
  StronglySorted Z.lt (map t_id (filter p l)).
Proof.
  induction l as [|t l IH]; simpl; intros H; [constructor|].
  inversion H as [|? ? Hs Hall]; subst.
  destruct (p t); [| apply IH; exact Hs].
  simpl. constructor; [apply IH; exact Hs|].
  rewrite Forall_forall in *. intros x Hx. apply Hall.
  apply in_map_iff in Hx. destruct Hx as [y [<- Hy]].
  apply in_map. apply filter_In in Hy. apply Hy.
Qed.

Lemma get_history_eq user_id account_name limit db :
  get_history user_id account_name limit db =
  (if fits_int64 user_id then
     match select_account user_id account_name db with
     | None => Raise account_not_found
     | Some row =>
         if fits_int64 (a_id row) && fits_int64 limit
         then Ok (select_history (a_id row) limit db)
         else Raise overflow_error
     end
   else Raise overflow_error, db).
Proof.
  unfold get_history. unfold bind at 1. rewrite get_account_eq.
  destruct (fits_int64 user_id); [|reflexivity].
  destruct (select_account user_id account_name db) as [row|]; [|reflexivity].
  cbn [option_map Account_of_row id].
  unfold with_conn. cbv [bind read raise ret bind_ints get_conn].
  destruct (fits_int64 (a_id row)); [|reflexivity].
  destruct (fits_int64 limit); reflexivity.
Qed.

(** ** Characters and strings *)

Lemma ascii_forall (P : ascii -> bool) :
  forallb P (map ascii_of_nat (seq 0 256)) = true -> forall c, P c = true.
Proof.
  intros H c. rewrite forallb_forall in H. apply H.
  rewrite <- (ascii_nat_embedding c). apply in_map. apply in_seq.
  pose proof (nat_ascii_bounded c). lia.
Qed.

Lemma decimal_char c :
  PyStr.isdecimal c = true ->
  PyStr.isdigit_char c = true /\ PyStr.is_ascii c = true /\
  PyStr.isspace c = false /\ PyStr.isspace_c c = false /\
  Ascii.eqb c "-" = false /\ Ascii.eqb c "+" = false /\
  Ascii.eqb c "_" = false /\ Ascii.eqb c "." = false /\
  Ascii.eqb c "," = false /\ Ascii.eqb c "$" = false /\
  Ascii.eqb "." c = false /\ Ascii.eqb "-" c = false /\
  0 <= PyStr.digit_value c <= 9.
Proof.
  intros H.
  pose proof (ascii_forall decimal_char_facts eq_refl c) as F.
  unfold decimal_char_facts in F. rewrite H in F. cbn [implb] in F.
  repeat (apply andb_true_iff in F; destruct F as [F ?]).
  repeat match goal with
         | X : negb _ = true |- _ => apply negb_true_iff in X
         | X : (_ <=? _) = true |- _ => apply Z.leb_le in X
         end.
  repeat split; assumption.
Qed.

Lemma lstrip_by_none p s :
  forallb (fun c => negb (p c)) s = true -> PyStr.lstrip_by p s = s.
Proof.
  destruct s as [|c s]; simpl; [reflexivity|].
  intros H. apply andb_true_iff in H. destruct H as [H _].
  apply negb_true_iff in H. rewrite H. reflexivity.
Qed.

Lemma forallb_rev {A} (f : A -> bool) l : forallb f (rev l) = forallb f l.
Proof.
  induction l as [|x l IH]; simpl; [reflexivity|].
  rewrite forallb_app, IH. simpl. rewrite andb_true_r. apply andb_comm.
Qed.

Lemma strip_by_none p s :
  forallb (fun c => negb (p c)) s = true -> PyStr.strip_by p s = s.
Proof.
  intros H. unfold PyStr.strip_by.
  rewrite (lstrip_by_none p s H).
  rewrite lstrip_by_none by (rewrite forallb_rev; exact H).
  apply rev_involutive.
Qed.

Lemma lstrip_by_class p ws s :
  forallb p ws = true -> PyStr.lstrip_by p (ws ++ s) = PyStr.lstrip_by p s.
Proof.
  induction ws as [|c ws IH]; simpl; intros H; [reflexivity|].
  apply andb_true_iff in H. destruct H as [Hc Hws].
  rewrite Hc. apply IH. exact Hws.
Qed.

Lemma lstrip_by_all p ws :
  forallb p ws = true -> PyStr.lstrip_by p ws = [].
Proof.
  intros H. rewrite <- (app_nil_r ws). rewrite lstrip_by_class by exact H.
  reflexivity.
Qed.

Lemma lstrip_by_app p s t :
  PyStr.lstrip_by p s <> [] ->
  PyStr.lstrip_by p (s ++ t) = PyStr.lstrip_by p s ++ t.
Proof.
  induction s as [|c s IH]; simpl; intros H; [contradiction|].
  destruct (p c); [apply IH; exact H | reflexivity].
Qed.

Lemma strip_by_outer p ws1 ws2 s :
  forallb p ws1 = true -> forallb p ws2 = true ->
  PyStr.strip_by p (ws1 ++ s ++ ws2) = PyStr.strip_by p s.
Proof.
  intros H1 H2. unfold PyStr.strip_by.
  rewrite lstrip_by_class by exact H1.
  destruct (PyStr.lstrip_by p s) as [|c r] eqn:E.
  - assert (Hall : forallb p s = true).
    { clear - E. induction s as [|x s IH]; simpl in *; [reflexivity|].
      destruct (p x); [apply IH; exact E | discriminate]. }
    rewrite (lstrip_by_all p (s ++ ws2)); [reflexivity|].
    rewrite forallb_app, Hall, H2. reflexivity.
  - rewrite lstrip_by_app by (rewrite E; discriminate).
    rewrite E, rev_app_distr.
    rewrite lstrip_by_class by (rewrite forallb_rev; exact H2).
    reflexivity.
Qed.

Lemma strip_by_all p ws :
  forallb p ws = true -> PyStr.strip_by p ws = [].
Proof.
  intros H. unfold PyStr.strip_by. rewrite (lstrip_by_all p ws H). reflexivity.
Qed.

Lemma remove_char_none c s :
  forallb (fun x => negb (Ascii.eqb x c)) s = true -> PyStr.remove_char c s = s.
Proof.
  unfold PyStr.remove_char. induction s as [|x s IH]; simpl; [reflexivity|].
  intros H. apply andb_true_iff in H. destruct H as [H1 H2].
  rewrite H1, IH by exact H2. reflexivity.
Qed.

Lemma split_cut c s :
  PyStr.split c s =
  before_char c s ::
  match after_char c s with
  | None => []
  | Some v => PyStr.split c v
  end.
Proof.
  induction s as [|x s IH]; simpl; [reflexivity|].
  destruct (Ascii.eqb x c); [reflexivity|].
  rewrite IH. reflexivity.
Qed.

Lemma count_cut c s :
  PyStr.count c s =
  match after_char c s with
  | None => 0
  | Some v => 1 + PyStr.count c v
  end.
Proof.
  unfold PyStr.count. induction s as [|x s IH]; [reflexivity|].
  cbn [filter after_char]. rewrite (Ascii.eqb_sym c x).
  destruct (Ascii.eqb x c); [| exact IH].
  cbn [List.length]. rewrite Nat2Z.inj_succ. lia.
Qed.

Lemma count_nonneg c s : 0 <= PyStr.count c s.
Proof. unfold PyStr.count. lia. Qed.

Lemma after_char_none_count c s : PyStr.count c s = 0 -> after_char c s = None.
Proof.
  intros H. rewrite count_cut in H.
  destruct (after_char c s) as [v|]; [|reflexivity].
  pose proof (count_nonneg c v). lia.
Qed.

Lemma before_char_none c s : after_char c s = None -> before_char c s = s.
Proof.
  induction s as [|x s IH]; simpl; [reflexivity|].
  destruct (Ascii.eqb x c); [discriminate|].
  intros E. rewrite IH by exact E. reflexivity.
Qed.

Lemma split_no_sep c s : PyStr.count c s = 0 -> PyStr.split c s = [s].
Proof.
  intros H. pose proof (after_char_none_count c s H) as E.
  rewrite split_cut, E, before_char_none by exact E. reflexivity.
Qed.

(** ** [int()] on digits *)

Lemma digit_char c :
  PyStr.isdigit_char c = true ->
  PyStr.to_ascii c = (if PyStr.isdecimal c then c else "?"%char) /\
  Ascii.eqb c "-" = false /\ Ascii.eqb c "+" = false /\
  Ascii.eqb c "." = false /\ Ascii.eqb c "," = false /\
  Ascii.eqb c "$" = false /\ PyStr.isspace c = false.
Proof.
  intros H.
  pose proof (ascii_forall digit_char_facts eq_refl c) as F.
  unfold digit_char_facts in F. rewrite H in F. cbn [implb] in F.
  repeat (apply andb_true_iff in F; destruct F as [F ?]).
  repeat match goal with
         | X : negb _ = true |- _ => apply negb_true_iff in X
         end.
  apply Ascii.eqb_eq in F. repeat split; assumption.
Qed.

Lemma seen_facts c :
  PyStr.isspace_c (seen c) = false /\ Ascii.eqb (seen c) "-" = false /\
  Ascii.eqb (seen c) "+" = false /\ Ascii.eqb (seen c) "_" = false /\
  PyStr.isdecimal (seen c) = PyStr.isdecimal c /\
  (PyStr.isdecimal c = true -> seen c = c).
Proof.
  unfold seen. destruct (PyStr.isdecimal c) eqn:E.
  - destruct (decimal_char c E) as [_ [_ [_ [H1 [H2 [H3 [H4 _]]]]]]].
    repeat split; auto.
  - repeat split; try reflexivity. discriminate.
Qed.

Lemma map_seen_decimal s :
  forallb PyStr.isdecimal s = true -> map seen s = s.
Proof.
  intros H. rewrite <- (map_id s) at 2. apply map_ext_in. intros c Hc.
  rewrite forallb_forall in H. unfold seen. rewrite (H c Hc). reflexivity.
Qed.

Lemma len_cons c (s : str) : PyStr.len (c :: s) = PyStr.len s + 1.
Proof. unfold PyStr.len. cbn [List.length]. lia. Qed.

Lemma len_nonneg (s : str) : 0 <= PyStr.len s.
Proof. unfold PyStr.len. lia. Qed.

(** The scan of a string of decimal digits takes them all. *)
Lemma scan_digits_decimal s :
  forall digits acc after_digit,
    forallb PyStr.isdecimal s = true ->
    PyStr.scan_digits digits acc after_digit s =
    Some (digits + PyStr.len s,
          fold_left (fun a c => 10 * a + PyStr.digit_value c) s acc, []).
Proof.
  induction s as [|c s IH]; intros digits acc after_digit H.
  - cbn [PyStr.scan_digits fold_left]. unfold PyStr.len. cbn [List.length].
    rewrite Z.add_0_r. reflexivity.
  - cbn [forallb] in H. apply andb_true_iff in H. destruct H as [Hc Hs].
    cbn [PyStr.scan_digits fold_left]. rewrite Hc, (IH _ _ _ Hs), len_cons.
    replace (digits + 1 + PyStr.len s) with (digits + (PyStr.len s + 1)) by lia.
    reflexivity.
Qed.

(** The scan of what [int()] sees of a string of digits stops at the first
    superscript, if there is one. *)
Lemma scan_digits_seen s :
  forall digits acc after_digit,
    exists d a rest,
      PyStr.scan_digits digits acc after_digit (map seen s) = Some (d, a, rest) /\
      (forallb PyStr.isdecimal s = false -> rest <> []).
Proof.
  induction s as [|c s IH]; intros digits acc after_digit.
  - exists digits, acc, []. split; [reflexivity | discriminate].
  - cbn [map PyStr.scan_digits forallb].
    destruct (seen_facts c) as [_ [_ [_ [Hu [Hd Hid]]]]].
    rewrite Hd. destruct (PyStr.isdecimal c) eqn:E.
    + destruct (IH (digits + 1) (10 * acc + PyStr.digit_value (seen c)) true)
        as [d [a [rest [H1 H2]]]].
      exists d, a, rest. split; [exact H1 | exact H2].
    + rewrite Hu. eexists _, _, _. split; [reflexivity | discriminate].
Qed.

(** Every error of [int()] is a [ValueError]. *)
Lemma int_raises_value_error s e :
  PyStr.int s = Raise e -> exists msg, e = ValueError msg.
Proof.
  unfold PyStr.int.
  destruct (match PyStr.strip_by PyStr.isspace_c (map PyStr.to_ascii s) with
            | [] => _ | _ => _ end) as [neg body].
  destruct (PyStr.scan_digits 0 0 false body) as [[[d n] rest]|];
    [| intros [= <-]; eexists; reflexivity].
  destruct (PyStr.max_str_digits <? d); [intros [= <-]; eexists; reflexivity|].
  destruct rest; [| intros [= <-]; eexists; reflexivity].
  destruct (d =? 0); [intros [= <-]; eexists; reflexivity | discriminate].
Qed.

(** [int()] on a sign and decimal digits. *)
Lemma int_of_signed_decimal (neg : bool) s :
  s <> [] -> forallb PyStr.isdecimal s = true ->
  PyStr.int ((if neg then ["-"%char] else []) ++ s) =
  if PyStr.max_str_digits <? PyStr.len s
  then Raise (PyStr.digits_limit_int (PyStr.len s))
  else Ok (if neg then - decimal_value s else decimal_value s).
Proof.
  intros Hne Hdec. unfold PyStr.int.
  assert (Hchars : forall c, In c ((if neg then ["-"%char] else []) ++ s) ->
                     PyStr.to_ascii c = c /\ PyStr.isspace_c c = false).
  { intros c Hc. apply in_app_or in Hc. destruct Hc as [Hc | Hc].
    - destruct neg; [| contradiction]. destruct Hc as [<- | []].
      split; reflexivity.
    - rewrite forallb_forall in Hdec.
      destruct (decimal_char c (Hdec c Hc)) as [_ [Ha [_ [Hs _]]]].
      split; [| exact Hs]. unfold PyStr.to_ascii. rewrite Ha. reflexivity. }
  assert (Hmap : map PyStr.to_ascii ((if neg then ["-"%char] else []) ++ s) =
                 (if neg then ["-"%char] else []) ++ s).
  { rewrite <- (map_id (_ ++ s)) at 2. apply map_ext_in. intros c Hc.
    apply (Hchars c Hc). }
  rewrite Hmap, strip_by_none.
  2:{ rewrite forallb_forall. intros c Hc.
      destruct (Hchars c Hc) as [_ ->]. reflexivity. }
  set (m := match (if neg then ["-"%char] else []) ++ s with
            | [] => _
            | _ :: _ => _
            end).
  assert (Hbody : m = (neg, s)).
  { subst m. destruct neg; [reflexivity|]. cbn [app].
    destruct s as [|c r]; [contradiction|].
    cbn [forallb] in Hdec. apply andb_true_iff in Hdec. destruct Hdec as [Hc _].
    destruct (decimal_char c Hc) as [_ [_ [_ [_ [-> [-> _]]]]]]. reflexivity. }
  rewrite Hbody, (scan_digits_decimal s 0 0 false Hdec). rewrite Z.add_0_l.
  destruct (PyStr.max_str_digits <? PyStr.len s); [reflexivity|].
  replace (PyStr.len s =? 0) with false.
  - reflexivity.
  - symmetry. apply Z.eqb_neq. destruct s; [contradiction|].
    rewrite len_cons. pose proof (len_nonneg s). lia.
Qed.

Lemma int_of_decimal s :
  s <> [] -> forallb PyStr.isdecimal s = true ->
  PyStr.int s =
  if PyStr.max_str_digits <? PyStr.len s
  then Raise (PyStr.digits_limit_int (PyStr.len s))
  else Ok (decimal_value s).
Proof. intros Hne Hdec. apply (int_of_signed_decimal false s Hne Hdec). Qed.

(** [int()] on a text that [str.isdigit] takes: the superscripts are no
    digits for it. *)
Lemma int_of_digits s :
  s <> [] -> forallb PyStr.isdigit_char s = true ->
  forallb PyStr.isdecimal s = false ->
  exists msg, PyStr.int s = Raise (ValueError msg).
Proof.
  intros Hne Hdig Hdec.
  destruct (PyStr.int s) as [n|e] eqn:E.
  2:{ destruct (int_raises_value_error s e E) as [msg ->]. eauto. }
  exfalso. revert E. unfold PyStr.int.
  assert (Hmap : map PyStr.to_ascii s = map seen s).
  { apply map_ext_in. intros c Hc. rewrite forallb_forall in Hdig.
    apply (digit_char c (Hdig c Hc)). }
  rewrite Hmap, strip_by_none.
  2:{ rewrite forallb_forall. intros c Hc. apply in_map_iff in Hc.
      destruct Hc as [x [<- _]]. destruct (seen_facts x) as [-> _]. reflexivity. }
  destruct s as [|c s]; [contradiction|].
  cbn [map]. destruct (seen_facts c) as [_ [-> [-> _]]].
  change (seen c :: map seen s) with (map seen (c :: s)).
  destruct (scan_digits_seen (c :: s) 0 0 false) as [d [a [rest [-> Hrest]]]].
  specialize (Hrest Hdec).
  destruct (PyStr.max_str_digits <? d); [discriminate|].
  destruct rest; [contradiction | discriminate].
Qed.

(** ** The decimal numeral of an integer *)

Lemma uint_chars_decimal d : forallb PyStr.isdecimal (uint_chars d) = true.
Proof. induction d; simpl; auto. Qed.

Lemma uint_chars_nonnil d : d <> Decimal.Nil -> uint_chars d <> [].
Proof. destruct d; simpl; intros H; try discriminate. contradiction. Qed.

Lemma uint_fold_pos d :
  forall p,
    fold_left (fun a c => 10 * a + PyStr.digit_value c) (uint_chars d) (Z.pos p) =
    Z.pos (Pos.of_uint_acc d p).
Proof.
  induction d; intros p; cbn [uint_chars NilEmpty.string_of_uint
    list_ascii_of_string fold_left Pos.of_uint_acc];
    try fold (uint_chars d); try reflexivity;
    rewrite <- IHd; f_equal;
    match goal with
    | |- context [PyStr.digit_value ?c] =>
        let v := eval vm_compute in (PyStr.digit_value c) in
        change (PyStr.digit_value c) with v
    end; lia.
Qed.

Lemma uint_fold_zero d :
  fold_left (fun a c => 10 * a + PyStr.digit_value c) (uint_chars d) 0 =
  Z.of_N (Pos.of_uint d).
Proof.
  induction d; cbn [uint_chars NilEmpty.string_of_uint
    list_ascii_of_string fold_left Pos.of_uint];
    try fold (uint_chars d); try reflexivity; try exact IHd;
    apply (uint_fold_pos d).
Qed.

Lemma to_uint_nonnil n : N.to_uint n <> Decimal.Nil.
Proof.
  destruct n as [|p]; simpl; [discriminate|].
  apply DecimalPos.Unsigned.to_uint_nonnil.
Qed.

Lemma of_nonneg_chars n :
  PyStr.of_nonneg n = uint_chars (N.to_uint (Z.to_N n)).
Proof.
  unfold PyStr.of_nonneg, uint_chars, NilZero.string_of_uint.
  pose proof (to_uint_nonnil (Z.to_N n)) as H.
  destruct (N.to_uint (Z.to_N n)); try reflexivity. contradiction.
Qed.

Lemma of_nonneg_spec n :
  0 <= n ->
  PyStr.of_nonneg n <> [] /\
  forallb PyStr.isdecimal (PyStr.of_nonneg n) = true /\
  decimal_value (PyStr.of_nonneg n) = n.
Proof.
  intros Hn. rewrite of_nonneg_chars. split; [| split].
  - apply uint_chars_nonnil, to_uint_nonnil.
  - apply uint_chars_decimal.
  - unfold decimal_value. rewrite uint_fold_zero.
    change (Pos.of_uint (N.to_uint (Z.to_N n)))
      with (N.of_uint (N.to_uint (Z.to_N n))).
    rewrite DecimalN.Unsigned.of_to. apply Z2N.id. exact Hn.
Qed.

(** *** The number of digits of a numeral *)

Lemma max_str_digits_large : 2 <= PyStr.max_str_digits.
Proof. unfold PyStr.max_str_digits. lia. Qed.

Lemma fold_digits_shift s :
  forall acc,
    fold_left (fun a c => 10 * a + PyStr.digit_value c) s acc =
    acc * 10 ^ PyStr.len s + decimal_value s.
Proof.
  unfold decimal_value.
  induction s as [|c s IH]; intros acc; cbn [fold_left].
  - change (PyStr.len []) with 0. rewrite Z.pow_0_r. lia.
  - rewrite IH, (IH (10 * 0 + PyStr.digit_value c)), len_cons.
    rewrite Z.pow_add_r by (pose proof (len_nonneg s); lia).
    rewrite Z.pow_1_r. ring.
Qed.

Lemma decimal_value_cons c s :
  decimal_value (c :: s) =
  PyStr.digit_value c * 10 ^ PyStr.len s + decimal_value s.
Proof.
  unfold decimal_value at 1. cbn [fold_left]. rewrite fold_digits_shift.
  replace (10 * 0 + PyStr.digit_value c) with (PyStr.digit_value c) by lia.
  reflexivity.
Qed.

Lemma decimal_value_bounds s :
  forallb PyStr.isdecimal s = true ->
  0 <= decimal_value s < 10 ^ PyStr.len s.
Proof.
  induction s as [|c s IH]; intros H.
  - change (PyStr.len []) with 0. rewrite Z.pow_0_r.
    unfold decimal_value. cbn [fold_left]. lia.
  - cbn [forallb] in H. apply andb_true_iff in H. destruct H as [Hc Hs].
    specialize (IH Hs).
    assert (Hd : 0 <= PyStr.digit_value c <= 9) by apply (decimal_char c Hc).
    rewrite decimal_value_cons, len_cons.
    rewrite Z.pow_add_r by (pose proof (len_nonneg s); lia).
    rewrite Z.pow_1_r. nia.
Qed.

(** A numeral of more than one digit does not start with a zero. *)
Lemma uint_chars_leading d c c2 r :
  Decimal.unorm d = d -> uint_chars d = c :: c2 :: r ->
  1 <= PyStr.digit_value c.
Proof.
  intros Hnorm E.
  destruct d as [|d1|d1|d1|d1|d1|d1|d1|d1|d1|d1];
    cbn [uint_chars NilEmpty.string_of_uint list_ascii_of_string] in E;
    try discriminate E;
    try (injection E as <- _; vm_compute; discriminate).
  exfalso. rewrite DecimalFacts.unorm_D0 in Hnorm. unfold Decimal.unorm in Hnorm.
  destruct (Decimal.nzhead d1) eqn:Hz; try discriminate Hnorm.
  - injection Hnorm as <-. discriminate E.
  - apply (DecimalFacts.nzhead_nonzero d1 _ Hz).
Qed.

Lemma to_uint_normal n : Decimal.unorm (N.to_uint n) = N.to_uint n.
Proof.
  rewrite <- (DecimalN.Unsigned.of_to n) at 2.
  rewrite DecimalN.Unsigned.to_of. reflexivity.
Qed.

(** The numeral of [n] has at most [k] digits exactly when [n] is below
    [10 ^ k]. *)
Lemma of_nonneg_length n k :
  0 <= n -> 1 <= k ->
  (PyStr.len (PyStr.of_nonneg n) <= k <-> n < 10 ^ k).
Proof.
  intros Hn Hk.
  destruct (of_nonneg_spec n Hn) as [Hne [Hdec Hval]].
  pose proof (decimal_value_bounds _ Hdec) as Hb. rewrite Hval in Hb.
  split.
  - intros Hlen. apply Z.lt_le_trans with (10 ^ PyStr.len (PyStr.of_nonneg n)).
    + apply Hb.
    + apply Z.pow_le_mono_r; [lia | exact Hlen].
  - intros Hlt.
    destruct (Z.le_gt_cases (PyStr.len (PyStr.of_nonneg n)) k) as [H | H];
      [exact H | exfalso].
    pose proof (to_uint_normal (Z.to_N n)) as Hnorm.
    rewrite of_nonneg_chars in *.
    destruct (uint_chars (N.to_uint (Z.to_N n))) as [|c [|c2 r]] eqn:E.
    + contradiction.
    + rewrite len_cons in H. change (PyStr.len []) with 0 in H. lia.
    + pose proof (uint_chars_leading _ c c2 r Hnorm E) as Hc.
      cbn [forallb] in Hdec. apply andb_true_iff in Hdec.
      destruct Hdec as [_ Hdec].
      pose proof (decimal_value_bounds (c2 :: r) Hdec) as Hr.
      rewrite decimal_value_cons in Hval. rewrite len_cons in H.
      assert (Hpow : 10 ^ k <= 10 ^ PyStr.len (c2 :: r))
        by (apply Z.pow_le_mono_r; lia).
      nia.
Qed.

(** [str(n)] returns exactly for the numbers below [10 ^ max_str_digits]. *)
Lemma of_int_eq n :
  PyStr.of_int n =
  if 10 ^ PyStr.max_str_digits <=? Z.abs n then Raise PyStr.digits_limit_str
  else Ok ((if n <? 0 then ["-"%char] else []) ++ PyStr.of_nonneg (Z.abs n)).
Proof.
  unfold PyStr.of_int. cbv zeta.
  pose proof max_str_digits_large as Hm.
  pose proof (of_nonneg_length (Z.abs n) PyStr.max_str_digits
                ltac:(lia) ltac:(lia)) as H.
  destruct (10 ^ PyStr.max_str_digits <=? Z.abs n) eqn:E.
  - apply Z.leb_le in E.
    replace (PyStr.max_str_digits <? PyStr.len (PyStr.of_nonneg (Z.abs n)))
      with true; [reflexivity|].
    symmetry. apply Z.ltb_lt.
    destruct (Z.le_gt_cases (PyStr.len (PyStr.of_nonneg (Z.abs n)))
                PyStr.max_str_digits) as [L | L]; [| lia].
    apply H in L. lia.
  - apply Z.leb_gt in E. apply H in E.
    replace (PyStr.max_str_digits <? PyStr.len (PyStr.of_nonneg (Z.abs n)))
      with false by (symmetry; apply Z.ltb_ge; exact E).
    destruct (n <? 0); reflexivity.
Qed.

(** ** parseAmount, in the words of the specification *)

Lemma isdigit_forallb s :
  PyStr.isdigit s = match s with [] => false | _ => forallb PyStr.isdigit_char s end.
Proof. reflexivity. Qed.

Lemma forallb_decimal_digit s :
  forallb PyStr.isdecimal s = true -> forallb PyStr.isdigit_char s = true.
Proof.
  rewrite !forallb_forall. intros H c Hc. apply (decimal_char c (H c Hc)).
Qed.

Lemma forallb_decimal_false_digit s :
  forallb PyStr.isdigit_char s = false -> forallb PyStr.isdecimal s = false.
Proof.
  intros H. destruct (forallb PyStr.isdecimal s) eqn:E; [|reflexivity].
  rewrite (forallb_decimal_digit s E) in H. discriminate.
Qed.

(** The check and the conversion of the fractional part. *)
Lemma fraction_parse v :
  (List.length v <= 2)%nat ->
  let frac := firstn 2 (v ++ "00") in
  (PyStr.isdigit frac = forallb PyStr.isdigit_char v) /\
  (PyStr.isdigit frac = true ->
   if forallb PyStr.isdecimal v then PyStr.int frac = Ok (decimal_value frac)
   else exists msg, PyStr.int frac = Raise (ValueError msg)).
Proof.
  intros Hlen frac.
  assert (Hne : frac <> []).
  { subst frac. destruct v as [|a [|b v]]; discriminate. }
  assert (Hdig : forallb PyStr.isdigit_char frac = forallb PyStr.isdigit_char v).
  { subst frac. destruct v as [|a [|b [|c v]]]; simpl in *; try lia;
      rewrite ?andb_true_r; reflexivity. }
  assert (Hdec : forallb PyStr.isdecimal frac = forallb PyStr.isdecimal v).
  { subst frac. destruct v as [|a [|b [|c v]]]; simpl in *; try lia;
      rewrite ?andb_true_r; reflexivity. }
  assert (Hshort : (PyStr.max_str_digits <? PyStr.len frac) = false).
  { apply Z.ltb_ge. pose proof max_str_digits_large.
    assert (List.length frac <= 2)%nat by (subst frac; apply firstn_le_length).
    unfold PyStr.len. lia. }
  split.
  - rewrite isdigit_forallb. destruct frac; [contradiction | exact Hdig].
  - intros H. rewrite isdigit_forallb in H.
    assert (Hd : forallb PyStr.isdigit_char frac = true)
      by (destruct frac; [discriminate | exact H]).
    rewrite <- Hdec. destruct (forallb PyStr.isdecimal frac) eqn:E.
    + rewrite (int_of_decimal frac Hne E), Hshort. reflexivity.
    + apply int_of_digits; assumption.
Qed.

(** The check and the conversion of the whole part. *)
Lemma whole_parse u :
  let whole := match u with [] => ("0" : str) | _ => u end in
  let s := PyStr.startswith "-" u in
  let w := if s then tl u else u in
  let ok := forallb PyStr.isdigit_char w
            && negb (s && match w with [] => true | _ => false end) in
  PyStr.startswith "-" whole = s /\
  (PyStr.startswith "-" whole && PyStr.isdigit (tl whole)) || PyStr.isdigit whole
    = ok /\
  (ok = true ->
   if forallb PyStr.isdecimal w
   then PyStr.int (PyStr.lstrip_char "-" whole) =
        if PyStr.max_str_digits <? PyStr.len w
        then Raise (PyStr.digits_limit_int (PyStr.len w))
        else Ok (decimal_value w)
   else exists msg,
       PyStr.int (PyStr.lstrip_char "-" whole) = Raise (ValueError msg)).
Proof.
  assert (Hint : forall w, w <> [] -> forallb PyStr.isdigit_char w = true ->
            if forallb PyStr.isdecimal w
            then PyStr.int w =
                 if PyStr.max_str_digits <? PyStr.len w
                 then Raise (PyStr.digits_limit_int (PyStr.len w))
                 else Ok (decimal_value w)
            else exists msg, PyStr.int w = Raise (ValueError msg)).
  { intros w Hne Hd. destruct (forallb PyStr.isdecimal w) eqn:E.
    - apply int_of_decimal; assumption.
    - apply int_of_digits; assumption. }
  destruct u as [|c r]; cbn zeta.
  - split; [reflexivity|]. split; [reflexivity|]. intros _. reflexivity.
  - cbn [PyStr.startswith tl].
    destruct (Ascii.eqb c "-") eqn:Ec.
    + apply Ascii.eqb_eq in Ec. subst c.
      split; [reflexivity|]. cbn [andb].
      assert (Hminus : PyStr.isdigit ("-"%char :: r) = false) by reflexivity.
      rewrite Hminus, orb_false_r.
      split.
      * rewrite isdigit_forallb. destruct r; [reflexivity|].
        rewrite andb_true_r. reflexivity.
      * intros Hok. apply andb_true_iff in Hok. destruct Hok as [Hd Hne].
        destruct r as [|x r]; [discriminate|].
        assert (Hx : PyStr.isdigit_char x = true).
        { simpl in Hd. apply andb_true_iff in Hd. apply Hd. }
        destruct (digit_char x Hx) as [_ [Hxm _]].
        unfold PyStr.lstrip_char. cbn [PyStr.lstrip_by].
        rewrite (Ascii.eqb_sym "-" x), Hxm.
        replace (Ascii.eqb "-" "-") with true by reflexivity.
        apply Hint; [discriminate | exact Hd].
    + split; [reflexivity|]. cbn [andb negb]. rewrite andb_true_r.
      split; [reflexivity|].
      intros Hd.
      assert (Hc : PyStr.isdigit_char c = true).
      { simpl in Hd. apply andb_true_iff in Hd. apply Hd. }
      unfold PyStr.lstrip_char. cbn [PyStr.lstrip_by].
      rewrite (Ascii.eqb_sym "-" c), Ec.
      apply Hint; [discriminate | exact Hd].
Qed.

Lemma to_cents_many_points text :
  1 < PyStr.count "." (ParseAmount.stripped text) ->
  to_cents text = Raise (ValueError "Invalid amount format").
Proof.
  intros H. unfold to_cents. cbv zeta.
  change (if PyStr.startswith "$" (PyStr.remove_char "," (PyStr.strip text))
          then tl (PyStr.remove_char "," (PyStr.strip text))
          else PyStr.remove_char "," (PyStr.strip text))
    with (ParseAmount.stripped text).
  replace (1 <? PyStr.count "." (ParseAmount.stripped text)) with true
    by (symmetry; apply Z.ltb_lt; exact H).
  reflexivity.
Qed.

Lemma to_cents_parts text :
  PyStr.count "." (ParseAmount.stripped text) <= 1 ->
  to_cents text =
  if 2 <? PyStr.len (ParseAmount.fraction (ParseAmount.stripped text))
  then Raise (ValueError "Too many decimal places; use at most 2")
  else parse_parts (before_char "." (ParseAmount.stripped text))
         (firstn 2 (ParseAmount.fraction (ParseAmount.stripped text) ++ "00")).
Proof.
  intros H. unfold to_cents. cbv zeta.
  change (if PyStr.startswith "$" (PyStr.remove_char "," (PyStr.strip text))
          then tl (PyStr.remove_char "," (PyStr.strip text))
          else PyStr.remove_char "," (PyStr.strip text))
    with (ParseAmount.stripped text).
  revert H. generalize (ParseAmount.stripped text). intros t H.
  replace (1 <? PyStr.count "." t) with false
    by (symmetry; apply Z.ltb_ge; exact H).
  rewrite split_cut. unfold ParseAmount.fraction.
  rewrite count_cut in H.
  destruct (after_char "." t) as [v|].
  - assert (Hv : PyStr.count "." v = 0) by (pose proof (count_nonneg "." v); lia).
    rewrite (split_no_sep "." v Hv).
    destruct (2 <? PyStr.len v); reflexivity.
  - reflexivity.
Qed.

Lemma parse_parts_spec u v :
  (List.length v <= 2)%nat ->
  let s := PyStr.startswith "-" u in
  let w := if s then tl u else u in
  let accepted :=
    forallb PyStr.isdecimal w && forallb PyStr.isdecimal v
    && negb (s && match w with [] => true | _ => false end)
    && negb (PyStr.max_str_digits <? PyStr.len w) in
  (accepted = true ->
   parse_parts u (firstn 2 (v ++ "00")) =
   Ok ((if s then -1 else 1)
       * (decimal_value w * 100 + decimal_value (firstn 2 (v ++ "00"))))) /\
  (accepted = false ->
   exists msg, parse_parts u (firstn 2 (v ++ "00")) = Raise (ValueError msg)).
Proof.
  intros Hlen s w accepted.
  destruct (whole_parse u) as [Hs [HW Hint]].
  destruct (fraction_parse v Hlen) as [Hfd Hfint].
  fold s in Hs, HW, Hint. fold w in HW, Hint.
  unfold parse_parts. cbv zeta. rewrite HW, Hs.
  subst accepted.
  destruct (forallb PyStr.isdigit_char w
            && negb (s && match w with [] => true | _ => false end)) eqn:Hok.
  - specialize (Hint eq_refl).
    apply andb_true_iff in Hok. destruct Hok as [Hwd Hns]. rewrite Hns.
    rewrite Hfd. destruct (forallb PyStr.isdigit_char v) eqn:Hvd; cbn [negb].
    + rewrite Hfd in Hfint. specialize (Hfint eq_refl).
      destruct (forallb PyStr.isdecimal w); cbn [andb].
      * rewrite Hint.
        destruct (PyStr.max_str_digits <? PyStr.len w); cbn [negb];
          rewrite ?andb_false_r, ?andb_true_r.
        -- split; [discriminate | intros _; eexists; reflexivity].
        -- destruct (forallb PyStr.isdecimal v).
           ++ rewrite Hfint. split; [reflexivity | discriminate].
           ++ destruct Hfint as [msg ->].
              split; [discriminate | intros _; eexists; reflexivity].
      * destruct Hint as [msg ->].
        split; [discriminate | intros _; eexists; reflexivity].
    + rewrite (forallb_decimal_false_digit v Hvd), andb_false_r. cbn [andb].
      split; [discriminate | intros _; eexists; reflexivity].
  - assert (Hacc : forallb PyStr.isdecimal w && forallb PyStr.isdecimal v
                   && negb (s && match w with [] => true | _ => false end)
                   && negb (PyStr.max_str_digits <? PyStr.len w) = false).
    { apply andb_false_iff in Hok. destruct Hok as [Hwd | Hns].
      - rewrite (forallb_decimal_false_digit w Hwd). reflexivity.
      - rewrite Hns, andb_false_r. reflexivity. }
    rewrite Hacc. split; [discriminate | intros _; eexists; reflexivity].
Qed.

Lemma startswith_before_point t :
  PyStr.startswith "-" (before_char "." t) = PyStr.startswith "-" t.
Proof.
  destruct t as [|c r]; simpl; [reflexivity|].
  destruct (Ascii.eqb c ".") eqn:E; [|reflexivity].
  apply Ascii.eqb_eq in E. subst c. reflexivity.
Qed.

Lemma whole_digits_before_point t :
  (if PyStr.startswith "-" (before_char "." t)
   then tl (before_char "." t) else before_char "." t) =
  ParseAmount.whole_digits t.
Proof.
  unfold ParseAmount.whole_digits, ParseAmount.unsigned, ParseAmount.has_sign.
  rewrite startswith_before_point.
  destruct t as [|c r]; simpl; [reflexivity|].
  destruct (Ascii.eqb c "-") eqn:E; [|reflexivity].
  apply Ascii.eqb_eq in E. subst c. reflexivity.
Qed.

(** [to_cents] against the words of the specification: it fails, with a
    [ValueError], exactly for the reasons of [ParseAmount.fails], and
    otherwise gives [ParseAmount.cents]. *)
Lemma to_cents_spec text :
  (ParseAmount.fails text = true ->
   exists msg, to_cents text = Raise (ValueError msg)) /\
  (ParseAmount.fails text = false ->
   to_cents text = Ok (ParseAmount.cents text)).
Proof.
  unfold ParseAmount.fails, ParseAmount.cents. cbv zeta.
  unfold ParseAmount.more_than_one_point.
  destruct (1 <? PyStr.count "." (ParseAmount.stripped text)) eqn:HA.
  - apply Z.ltb_lt in HA. rewrite (to_cents_many_points text HA).
    cbn [orb]. split; [intros _; eexists; reflexivity | discriminate].
  - apply Z.ltb_ge in HA. rewrite (to_cents_parts text HA).
    unfold ParseAmount.too_many_fraction_digits. cbn [orb].
    destruct (2 <? PyStr.len (ParseAmount.fraction (ParseAmount.stripped text)))
      eqn:HB.
    + cbn [orb]. split; [intros _; eexists; reflexivity | discriminate].
    + apply Z.ltb_ge in HB. unfold PyStr.len in HB.
      assert (Hlen : (List.length (ParseAmount.fraction
                        (ParseAmount.stripped text)) <= 2)%nat) by lia.
      destruct (parse_parts_spec (before_char "." (ParseAmount.stripped text))
                  _ Hlen) as [Hyes Hno].
      cbv zeta in Hyes, Hno.
      rewrite whole_digits_before_point, startswith_before_point in Hyes, Hno.
      unfold ParseAmount.non_digit_remains, ParseAmount.sign_without_digit,
        ParseAmount.too_many_digits.
      fold (ParseAmount.has_sign (ParseAmount.stripped text)) in Hyes, Hno.
      cbn [orb].
      set (d := forallb PyStr.isdecimal
                  (ParseAmount.whole_digits (ParseAmount.stripped text))
                && forallb PyStr.isdecimal
                     (ParseAmount.fraction (ParseAmount.stripped text))) in *.
      set (n := ParseAmount.has_sign (ParseAmount.stripped text)
                && match ParseAmount.whole_digits (ParseAmount.stripped text) with
                   | [] => true
                   | _ => false
                   end) in *.
      destruct d, n,
        (PyStr.max_str_digits
         <? PyStr.len (ParseAmount.whole_digits (ParseAmount.stripped text)));
        cbn [negb orb andb] in *; split; intros H;
        try discriminate; auto.
Qed.

(** ** The text [from_cents] writes *)

Lemma amount_chars_stripped s :
  forallb amount_char s = true -> ParseAmount.stripped s = s.
Proof.
  intros H.
  assert (F : forall c, In c s ->
            PyStr.isspace c = false /\ Ascii.eqb c "," = false /\
            Ascii.eqb c "$" = false).
  { rewrite forallb_forall in H. intros c Hc.
    pose proof (ascii_forall amount_char_facts eq_refl c) as G.
    unfold amount_char_facts in G. rewrite (H c Hc) in G. cbn [implb] in G.
    apply andb_true_iff in G. destruct G as [G G3].
    apply andb_true_iff in G. destruct G as [G1 G2].
    apply negb_true_iff in G1, G2, G3. auto. }
  unfold ParseAmount.stripped, PyStr.strip. cbv zeta.
  rewrite strip_by_none.
  2:{ rewrite forallb_forall. intros c Hc. destruct (F c Hc) as [-> _]. reflexivity. }
  rewrite remove_char_none.
  2:{ rewrite forallb_forall. intros c Hc. destruct (F c Hc) as [_ [-> _]]. reflexivity. }
  destruct s as [|c r]; [reflexivity|]. cbn [PyStr.startswith].
  destruct (F c (or_introl eq_refl)) as [_ [_ ->]]. reflexivity.
Qed.

Lemma cut_at_first c u v :
  forallb (fun x => negb (Ascii.eqb x c)) u = true ->
  before_char c (u ++ c :: v) = u /\ after_char c (u ++ c :: v) = Some v.
Proof.
  induction u as [|x u IH]; simpl; intros H.
  - rewrite Ascii.eqb_refl. split; reflexivity.
  - apply andb_true_iff in H. destruct H as [Hx Hu].
    apply negb_true_iff in Hx. rewrite Hx.
    destruct (IH Hu) as [-> ->]. split; reflexivity.
Qed.

Lemma decimal_no_point s :
  forallb PyStr.isdecimal s = true ->
  forallb (fun x => negb (Ascii.eqb x ".")) s = true.
Proof.
  rewrite !forallb_forall. intros H c Hc.
  destruct (decimal_char c (H c Hc)) as [_ [_ [_ [_ [_ [_ [_ [-> _]]]]]]]].
  reflexivity.
Qed.

Lemma decimal_amount_chars s :
  forallb PyStr.isdecimal s = true -> forallb amount_char s = true.
Proof.
  rewrite !forallb_forall. intros H c Hc. unfold amount_char.
  rewrite (H c Hc). reflexivity.
Qed.

(** [to_cents] on a sign, digits, a point and two digits. *)
Lemma to_cents_canonical (neg : bool) (w : str) (a b : ascii) :
  w <> [] -> forallb PyStr.isdecimal w = true ->
  PyStr.len w <= PyStr.max_str_digits ->
  PyStr.isdecimal a = true -> PyStr.isdecimal b = true ->
  to_cents ((if neg then ["-"%char] else []) ++ w ++ "."%char :: [a; b]) =
  Ok ((if neg then -1 else 1) * (decimal_value w * 100 + decimal_value [a; b])).
Proof.
  intros Hne Hw Hlen Ha Hb.
  set (text := (if neg then ["-"%char] else []) ++ w ++ "."%char :: [a; b]).
  assert (Hchars : forallb amount_char text = true).
  { subst text. rewrite !forallb_app. cbn [forallb].
    rewrite (decimal_amount_chars w Hw). unfold amount_char at 2 3 4.
    rewrite Ha, Hb. destruct neg; reflexivity. }
  assert (Hstripped : ParseAmount.stripped text = text)
    by (apply amount_chars_stripped; exact Hchars).
  assert (Hsign : ParseAmount.has_sign text = neg).
  { subst text. unfold ParseAmount.has_sign. destruct neg; [reflexivity|].
    destruct w as [|c w]; [contradiction|]. cbn [app PyStr.startswith].
    cbn [forallb] in Hw. apply andb_true_iff in Hw. destruct Hw as [Hc _].
    apply (decimal_char c Hc). }
  assert (Hunsigned : ParseAmount.unsigned text = w ++ "."%char :: [a; b]).
  { unfold ParseAmount.unsigned. rewrite Hsign. subst text.
    destruct neg; reflexivity. }
  assert (Hab : forallb (fun x => negb (Ascii.eqb x ".")) [a; b] = true)
    by (apply decimal_no_point; cbn [forallb]; rewrite Ha, Hb; reflexivity).
  assert (Hwhole : ParseAmount.whole_digits text = w).
  { unfold ParseAmount.whole_digits. rewrite Hunsigned.
    apply (cut_at_first "." w [a; b]). apply decimal_no_point. exact Hw. }
  assert (Hfrac : ParseAmount.fraction text = [a; b]).
  { unfold ParseAmount.fraction.
    assert (E : after_char "." text = Some [a; b]).
    { subst text. rewrite app_assoc.
      apply (cut_at_first "." ((if neg then ["-"%char] else []) ++ w) [a; b]).
      rewrite forallb_app, (decimal_no_point w Hw).
      destruct neg; reflexivity. }
    rewrite E. reflexivity. }
  assert (Hcount : PyStr.count "." text = 1).
  { rewrite count_cut.
    unfold ParseAmount.fraction in Hfrac.
    destruct (after_char "." text) as [v|] eqn:E; [| discriminate Hfrac].
    subst v. unfold PyStr.count. cbn [filter].
    destruct (decimal_char a Ha) as [_ [_ [_ [_ [_ [_ [_ [_ [_ [_ [-> _]]]]]]]]]]].
    destruct (decimal_char b Hb) as [_ [_ [_ [_ [_ [_ [_ [_ [_ [_ [-> _]]]]]]]]]]].
    reflexivity. }
  destruct (to_cents_spec text) as [_ Hok].
  rewrite Hok.
  - unfold ParseAmount.cents. cbv zeta.
    rewrite Hstripped, Hsign, Hwhole, Hfrac. reflexivity.
  - unfold ParseAmount.fails. cbv zeta. rewrite Hstripped.
    unfold ParseAmount.more_than_one_point, ParseAmount.too_many_fraction_digits,
      ParseAmount.non_digit_remains, ParseAmount.sign_without_digit,
      ParseAmount.too_many_digits.
    rewrite Hcount, Hfrac, Hwhole, Hw, Hsign. cbn [forallb].
    rewrite Ha, Hb.
    replace (PyStr.max_str_digits <? PyStr.len w) with false
      by (symmetry; apply Z.ltb_ge; exact Hlen).
    destruct w; [contradiction|].
    rewrite andb_false_r. reflexivity.
Qed.

Lemma format_02d_spec m :
  0 <= m < 100 ->
  exists a b,
    PyStr.format_02d m = Ok [a; b] /\ PyStr.isdecimal a = true /\
    PyStr.isdecimal b = true /\ decimal_value [a; b] = m.
Proof.
  intros Hm.
  assert (H : two_digits_ok m = true).
  { assert (A : forallb two_digits_ok (map Z.of_nat (seq 0 100)) = true)
      by (vm_compute; reflexivity).
    rewrite forallb_forall in A. apply A.
    rewrite <- (Z2Nat.id m) by lia. apply in_map. apply in_seq. lia. }
  unfold two_digits_ok in H.
  destruct (PyStr.format_02d m) as [[|a [|b [|c r]]]|e]; try discriminate.
  apply andb_true_iff in H. destruct H as [H H3].
  apply andb_true_iff in H. destruct H as [H1 H2].
  apply Z.eqb_eq in H3. exists a, b. auto.
Qed.

(** The amounts [from_cents] writes: those whose whole part has at most
    [max_str_digits] digits. *)
Lemma whole_part_bound x :
  Z.abs x / 100 < 10 ^ PyStr.max_str_digits <->
  Z.abs x < 10 ^ (PyStr.max_str_digits + 2).
Proof.
  pose proof max_str_digits_large as Hm.
  rewrite Z.pow_add_r by lia. change (10 ^ 2) with 100.
  assert (Hp : 0 < 10 ^ PyStr.max_str_digits) by (apply Z.pow_pos_nonneg; lia).
  split; intros H.
  - pose proof (Z.div_mod (Z.abs x) 100 ltac:(lia)) as D.
    pose proof (Z.mod_pos_bound (Z.abs x) 100 ltac:(lia)) as R. nia.
  - apply Z.div_lt_upper_bound; lia.
Qed.

Lemma from_cents_eq x :
  from_cents x =
  if 10 ^ (PyStr.max_str_digits + 2) <=? Z.abs x
  then Raise PyStr.digits_limit_str
  else
    match PyStr.format_02d (Z.abs x mod 100) with
    | Raise e => Raise e
    | Ok frac =>
        Ok ((if x <? 0 then ["-"%char] else [])
            ++ PyStr.of_nonneg (Z.abs x / 100) ++ "."%char :: frac)
    end.
Proof.
  assert (Hq : 0 <= Z.abs x / 100) by (apply Z.div_pos; lia).
  unfold from_cents. cbv zeta. rewrite of_int_eq, (Z.abs_eq _ Hq).
  pose proof (whole_part_bound x) as W.
  destruct (10 ^ (PyStr.max_str_digits + 2) <=? Z.abs x) eqn:E.
  - apply Z.leb_le in E.
    replace (10 ^ PyStr.max_str_digits <=? Z.abs x / 100) with true;
      [reflexivity|].
    symmetry. apply Z.leb_le.
    destruct (Z.le_gt_cases (10 ^ PyStr.max_str_digits) (Z.abs x / 100));
      [assumption | apply W in H; lia].
  - apply Z.leb_gt in E. apply W in E.
    replace (10 ^ PyStr.max_str_digits <=? Z.abs x / 100) with false
      by (symmetry; apply Z.leb_gt; exact E).
    replace (Z.abs x / 100 <? 0) with false
      by (symmetry; apply Z.ltb_ge; exact Hq).
    destruct (PyStr.format_02d _); [| reflexivity].
    destruct (x <? 0); reflexivity.
Qed.

Lemma from_cents_text x :
  Z.abs x < 10 ^ (PyStr.max_str_digits + 2) ->
  exists w a b,
    from_cents x =
      Ok ((if x <? 0 then ["-"%char] else []) ++ w ++ "."%char :: [a; b]) /\
    w <> [] /\ forallb PyStr.isdecimal w = true /\
    PyStr.len w <= PyStr.max_str_digits /\
    PyStr.isdecimal a = true /\ PyStr.isdecimal b = true /\
    decimal_value w = Z.abs x / 100 /\ decimal_value [a; b] = Z.abs x mod 100.
Proof.
  intros Hx.
  assert (Hq : 0 <= Z.abs x / 100) by (apply Z.div_pos; lia).
  assert (Hr : 0 <= Z.abs x mod 100 < 100) by (apply Z.mod_pos_bound; lia).
  destruct (of_nonneg_spec _ Hq) as [Hne [Hdec Hval]].
  destruct (format_02d_spec _ Hr) as [a [b [Hf [Ha [Hb Hab]]]]].
  exists (PyStr.of_nonneg (Z.abs x / 100)), a, b.
  split; [| repeat split; try assumption].
  - rewrite from_cents_eq, Hf.
    replace (10 ^ (PyStr.max_str_digits + 2) <=? Z.abs x) with false
      by (symmetry; apply Z.leb_gt; exact Hx).
    reflexivity.
  - pose proof max_str_digits_large.
    apply of_nonneg_length; [exact Hq | lia |].
    apply whole_part_bound. exact Hx.
Qed.

Lemma from_cents_beyond x :
  10 ^ (PyStr.max_str_digits + 2) <= Z.abs x ->
  from_cents x = Raise PyStr.digits_limit_str.
Proof.
  intros H. rewrite from_cents_eq.
  replace (10 ^ (PyStr.max_str_digits + 2) <=? Z.abs x) with true
    by (symmetry; apply Z.leb_le; exact H).
  reflexivity.
Qed.

Lemma from_cents_returns x text :
  from_cents x = Ok text -> Z.abs x < 10 ^ (PyStr.max_str_digits + 2).
Proof.
  intros E.
  destruct (Z.le_gt_cases (10 ^ (PyStr.max_str_digits + 2)) (Z.abs x))
    as [H | H]; [| lia].
  rewrite (from_cents_beyond x H) in E. discriminate.
Qed.

(** What [from_cents] writes, [to_cents] reads back. *)
Lemma to_cents_reads_back x text :
  from_cents x = Ok text -> to_cents text = Ok x.
Proof.
  intros E. pose proof (from_cents_returns x text E) as Hx.
  destruct (from_cents_text x Hx)
    as [w [a [b [E' [Hne [Hw [Hlen [Ha [Hb [Vw Vab]]]]]]]]]].
  rewrite E' in E. injection E as <-.
  rewrite (to_cents_canonical (x <? 0) w a b Hne Hw Hlen Ha Hb), Vw, Vab.
  f_equal.
  pose proof (Z.div_mod (Z.abs x) 100 ltac:(lia)) as D.
  destruct (x <? 0) eqn:S; [apply Z.ltb_lt in S | apply Z.ltb_ge in S]; lia.
Qed.

Lemma int64_below_digit_limit x :
  int64_min <= x <= int64_max -> Z.abs x < 10 ^ (PyStr.max_str_digits + 2).
Proof.
  intros H. apply Z.lt_le_trans with (10 ^ 19).
  - unfold int64_min, int64_max in H. change (10 ^ 19) with 10000000000000000000.
    lia.
  - apply Z.pow_le_mono_r; [lia|]. unfold PyStr.max_str_digits. lia.
Qed.

(** C5, as the code has it.  Parsing what [from_cents] writes gives the
    integer back, for every integer that [from_cents] writes: those below
    [10 ^ 4302] in absolute value, among them every amount of 64 bits that
    the store can hold.  From there on the whole part has more than the 4300
    digits that the conversion of an [int] to text allows, and [from_cents]
    raises the [ValueError] of that limit. *)
Theorem to_cents_from_cents :
  (forall x : Z,
      Z.abs x < 10 ^ (PyStr.max_str_digits + 2) ->
      exists text, from_cents x = Ok text /\ to_cents text = Ok x) /\
  (forall x : Z,
      int64_min <= x <= int64_max ->
      exists text, from_cents x = Ok text /\ to_cents text = Ok x) /\
  (forall x : Z,
      10 ^ (PyStr.max_str_digits + 2) <= Z.abs x ->
      from_cents x = Raise PyStr.digits_limit_str).
Proof.
  assert (R : forall x, Z.abs x < 10 ^ (PyStr.max_str_digits + 2) ->
                exists text, from_cents x = Ok text /\ to_cents text = Ok x).
  { intros x Hx.
    destruct (from_cents_text x Hx) as [w [a [b [E _]]]].
    eexists. split; [exact E|]. apply (to_cents_reads_back x). exact E. }
  split; [exact R | split].
  - intros x Hx. apply R, int64_below_digit_limit, Hx.
  - exact from_cents_beyond.
Qed.

Lemma to_cents_from_cents_witness :
  exists text, from_cents (-123456) = Ok text /\ to_cents text = Ok (-123456).
Proof.
  apply (proj1 (proj2 to_cents_from_cents) (-123456)).
  unfold int64_min, int64_max. lia.
Defined.

(** C5, as stated, fails: [10 ^ 4302] is an integer, and [from_cents] does
    not write it: its whole part, [10 ^ 4300], has 4301 digits. *)
Lemma from_cents_beyond_digit_limit :
  from_cents (10 ^ 4302) = Raise PyStr.digits_limit_str /\
  PyStr.digits_limit_str =
  ValueError "Exceeds the limit (4300 digits) for integer string conversion; use sys.set_int_max_str_digits() to increase the limit".
Proof.
  split; [| reflexivity].
  apply from_cents_beyond.
  rewrite Z.abs_eq by (apply Z.pow_nonneg; lia).
  apply Z.le_refl.
Qed.

Lemma before_char_without c s :
  forallb (fun x => negb (Ascii.eqb x c)) s = true -> before_char c s = s.
Proof.
  induction s as [|x s IH]; simpl; intros H; [reflexivity|].
  apply andb_true_iff in H. destruct H as [Hx Hs].
  apply negb_true_iff in Hx. rewrite Hx, (IH Hs). reflexivity.
Qed.

(** A whole part of more digits than [int()] reads. *)
Lemma to_cents_long_whole w :
  forallb PyStr.isdecimal w = true -> PyStr.max_str_digits < PyStr.len w ->
  exists msg, to_cents w = Raise (ValueError msg).
Proof.
  intros Hw Hlen. apply (proj1 (to_cents_spec w)).
  assert (Hne : w <> []).
  { intros ->. change (PyStr.len []) with 0 in Hlen.
    pose proof max_str_digits_large. lia. }
  assert (Hstripped : ParseAmount.stripped w = w)
    by (apply amount_chars_stripped, decimal_amount_chars; exact Hw).
  assert (Hsign : ParseAmount.has_sign w = false).
  { unfold ParseAmount.has_sign. destruct w as [|c r]; [contradiction|].
    cbn [PyStr.startswith]. cbn [forallb] in Hw.
    apply andb_true_iff in Hw. destruct Hw as [Hc _].
    apply (decimal_char c Hc). }
  assert (Hwhole : ParseAmount.whole_digits w = w).
  { unfold ParseAmount.whole_digits, ParseAmount.unsigned. rewrite Hsign.
    apply before_char_without, decimal_no_point. exact Hw. }
  unfold ParseAmount.fails. cbv zeta. rewrite Hstripped.
  unfold ParseAmount.too_many_digits. rewrite Hwhole.
  replace (PyStr.max_str_digits <? PyStr.len w) with true
    by (symmetry; apply Z.ltb_lt; exact Hlen).
  apply orb_true_r.
Qed.

(** C6, as the code has it.  [to_cents] strips the surrounding white space,
    the thousands separators and one leading currency symbol, takes an
    optional minus sign and a fractional part of 0 to 2 digits padded to 2
    on the right: so ["5"] gives 500, ["5.1"] gives 510 and ["$1,234.5"]
    gives 123450.  It fails, with a [ValueError], exactly when the stripped
    text has more than one decimal point, more than 2 characters after the
    point, something other than a decimal digit left beside the sign and the
    point, a minus sign that no digit follows in the whole part, or more
    than the 4300 digits in the whole part that the conversion of a text to
    an [int] allows. *)
Theorem to_cents_accepts :
  to_cents "5" = Ok 500 /\
  to_cents "5.1" = Ok 510 /\
  to_cents "$1,234.5" = Ok 123450 /\
  (forall text,
      ParseAmount.fails text = true <->
      exists msg, to_cents text = Raise (ValueError msg)) /\
  (forall text e, to_cents text = Raise e -> exists msg, e = ValueError msg) /\
  (forall text,
      ParseAmount.fails text = false ->
      to_cents text = Ok (ParseAmount.cents text)) /\
  (forall w : str,
      forallb PyStr.isdecimal w = true ->
      PyStr.max_str_digits < PyStr.len w ->
      exists msg, to_cents w = Raise (ValueError msg)).
Proof.
  split; [reflexivity|]. split; [reflexivity|]. split; [reflexivity|].
  split; [| split; [| split]].
  - intros text. destruct (to_cents_spec text) as [Hyes Hno]. split.
    + exact Hyes.
    + intros [msg E]. destruct (ParseAmount.fails text); [reflexivity|].
      rewrite (Hno eq_refl) in E. discriminate.
  - intros text e E. destruct (to_cents_spec text) as [Hyes Hno].
    destruct (ParseAmount.fails text).
    + destruct (Hyes eq_refl) as [msg E']. rewrite E' in E.
      injection E as <-. exists msg. reflexivity.
    + rewrite (Hno eq_refl) in E. discriminate.
  - intros text. apply to_cents_spec.
  - exact to_cents_long_whole.
Qed.

Lemma to_cents_accepts_witness :
  to_cents "-12.3" = Ok (-1230) /\
  (exists msg, to_cents " 1.234" = Raise (ValueError msg)) /\
  (exists msg, to_cents "-" = Raise (ValueError msg)).
Proof.
  split; [| split].
  - apply (proj1 (proj2 (proj2 (proj2 (proj2 (proj2 to_cents_accepts)))))
             "-12.3").
    reflexivity.
  - apply (proj1 (proj1 (proj2 (proj2 (proj2 to_cents_accepts))) " 1.234")).
    reflexivity.
  - apply (proj1 (proj1 (proj2 (proj2 (proj2 to_cents_accepts))) "-")).
    reflexivity.
Defined.

(** C6, as stated, fails: ["-.5"] has one decimal point, one fractional
    digit, and nothing but the digit 5 beside its sign and its point, so
    none of the three stated reasons applies; [to_cents] rejects it all the
    same, while it takes [".5"] for 50. *)
Lemma to_cents_rejects_sign_without_digit :
  ParseAmount.fails_as_stated "-.5" = false /\
  to_cents "-.5" = Raise (ValueError "Invalid amount") /\
  to_cents ".5" = Ok 50.
Proof. split; [reflexivity|]. split; reflexivity. Qed.

Lemma to_cents_depends_on_stripped text text' :
  PyStr.remove_char "," (PyStr.strip text) =
  PyStr.remove_char "," (PyStr.strip text') ->
  to_cents text = to_cents text'.
Proof. intros H. unfold to_cents. cbv zeta. rewrite H. reflexivity. Qed.

(** C10. The commas are removed wherever they are, before anything is
    checked: ["1,2,3"] gives 12300 and [",,5"] gives 500, and in a text
    without white space a comma put at any place changes nothing of the
    result. *)
Theorem to_cents_ignores_commas :
  to_cents "1,2,3" = Ok 12300 /\
  to_cents ",,5" = Ok 500 /\
  (forall a b : str,
      forallb (fun c => negb (PyStr.isspace c)) (a ++ b) = true ->
      to_cents (a ++ ","%char :: b) = to_cents (a ++ b)).
Proof.
  split; [reflexivity|]. split; [reflexivity|].
  intros a b H. apply to_cents_depends_on_stripped.
  unfold PyStr.strip.
  rewrite (strip_by_none PyStr.isspace (a ++ b) H).
  rewrite strip_by_none.
  - unfold PyStr.remove_char. rewrite !filter_app. reflexivity.
  - rewrite forallb_app in *. apply andb_true_iff in H. destruct H as [Ha Hb].
    rewrite Ha. cbn [forallb]. rewrite Hb. reflexivity.
Qed.

Lemma to_cents_ignores_commas_witness :
  to_cents ("$12" ++ ","%char :: "34.5") = to_cents ("$12" ++ "34.5").
Proof.
  apply (proj2 (proj2 to_cents_ignores_commas) "$12" "34.5").
  reflexivity.
Defined.

(** ** The clamp of [Session.do_history] *)

Lemma numeral_not_space n text :
  PyStr.of_int n = Ok text ->
  text <> [] /\ PyStr.strip text = text /\ PyStr.int text = Ok n.
Proof.
  rewrite of_int_eq.
  destruct (10 ^ PyStr.max_str_digits <=? Z.abs n) eqn:E; [discriminate|].
  apply Z.leb_gt in E. intros [= <-].
  destruct (of_nonneg_spec (Z.abs n) ltac:(lia)) as [Hne [Hdec Hval]].
  pose proof max_str_digits_large as Hm.
  assert (Hlen : PyStr.len (PyStr.of_nonneg (Z.abs n)) <= PyStr.max_str_digits)
    by (apply of_nonneg_length; [lia | lia | exact E]).
  split; [| split].
  - destruct (n <? 0); [discriminate | exact Hne].
  - unfold PyStr.strip. apply strip_by_none.
    rewrite forallb_app. apply andb_true_iff. split.
    + destruct (n <? 0); reflexivity.
    + rewrite forallb_forall in *. intros c Hc.
      destruct (decimal_char c (Hdec c Hc)) as [_ [_ [-> _]]]. reflexivity.
  - rewrite (int_of_signed_decimal (n <? 0) _ Hne Hdec), Hval.
    replace (PyStr.max_str_digits <? PyStr.len (PyStr.of_nonneg (Z.abs n)))
      with false by (symmetry; apply Z.ltb_ge; exact Hlen).
    f_equal. destruct (n <? 0) eqn:S;
      [apply Z.ltb_lt in S | apply Z.ltb_ge in S]; lia.
Qed.

Lemma do_history_eq user name_input limit_input db :
  do_history user name_input limit_input db =
  match PyStr.int (match PyStr.strip limit_input with
                   | [] => ("20" : str)
                   | s => s
                   end) with
  | Ok n =>
      get_history (id_of_user user) (PyStr.strip name_input)
        (Z.max 1 (Z.min 200 n)) db
  | Raise e => (Raise e, db)
  end.
Proof. unfold do_history. destruct (PyStr.int _); reflexivity. Qed.

Lemma get_history_length user_id account_name limit db rows db' :
  0 <= limit ->
  get_history user_id account_name limit db = (Ok rows, db') ->
  Z.of_nat (List.length rows) <= limit.
Proof.
  intros Hl. rewrite get_history_eq.
  destruct (fits_int64 user_id); [| discriminate].
  destruct (select_account user_id account_name db) as [row|]; [| discriminate].
  destruct (fits_int64 (a_id row) && fits_int64 limit); [| discriminate].
  intros [= <- _]. unfold select_history. rewrite length_map.
  pose proof (sql_limit_length limit
                (order_by_id_desc
                   (filter (fun t => t_account_id t =? a_id row)
                      (transactions db)))) as H.
  lia.
Qed.

(** C7, as the code has it.  [get_history] raises [Account not found] when
    the user, whose id is a rowid of [users] and so a 64-bit integer, has no
    account of that name.  Otherwise it returns the transactions of the
    account, the most recent first, cut after [limit] of them, or all of
    them when [limit] is negative: by decreasing rowid in any database,
    which after a run of operations is from the last inserted to the first.
    It takes [limit] as it is given; a call that leaves [limit] out returns
    the 20 most recent.  The clamp is in [Session.do_history]: for the
    number [n] it reads from the answer it asks [get_history] for
    [max(1, min(200, n))] rows, so 1 for a numeral below 1, 200 for one
    above 200 and [n] in between; it takes an empty answer for 20, passes
    on the error of [int()] on any other answer, and so prints at most 200
    rows. *)
Theorem history_most_recent_first :
  (forall db user_id account_name limit,
      fits_int64 user_id = true ->
      (forall a, In a (accounts db) ->
                 ~ (a_user_id a = user_id /\ a_name a = account_name)) ->
      get_history user_id account_name limit db = (Raise account_not_found, db)) /\
  (forall db user_id account_name limit row,
      schema_ok db ->
      select_account user_id account_name db = Some row ->
      fits_int64 limit = true ->
      exists every txs,
        Permutation every
          (filter (fun t => t_account_id t =? a_id row) (transactions db)) /\
        StronglySorted newer_first every /\
        txs = (if limit <? 0 then every else firstn (Z.to_nat limit) every) /\
        get_history user_id account_name limit db = (Ok (map history_row txs), db)) /\
  (forall ops user_id account_name limit row,
      let db := run ops empty_db in
      schema_ok db ->
      select_account user_id account_name db = Some row ->
      fits_int64 limit = true ->
      get_history user_id account_name limit db =
      (Ok (map history_row
             (sql_limit limit
                (rev (filter (fun t => t_account_id t =? a_id row)
                        (transactions db))))), db)) /\
  (forall db user_id account_name row,
      schema_ok db ->
      select_account user_id account_name db = Some row ->
      exists every,
        Permutation every
          (filter (fun t => t_account_id t =? a_id row) (transactions db)) /\
        StronglySorted newer_first every /\
        get_history_call user_id account_name None db =
          (Ok (map history_row (firstn 20 every)), db)) /\
  (forall user name_input limit_input db,
      match PyStr.int (match PyStr.strip limit_input with
                       | [] => ("20" : str)
                       | s => s
                       end) with
      | Ok n =>
          do_history user name_input limit_input db =
          get_history (id_of_user user) (PyStr.strip name_input)
            (Z.max 1 (Z.min 200 n)) db
      | Raise e => do_history user name_input limit_input db = (Raise e, db)
      end) /\
  (forall user name_input n text db,
      PyStr.of_int n = Ok text ->
      do_history user name_input text db =
      get_history (id_of_user user) (PyStr.strip name_input)
        (if n <? 1 then 1 else if 200 <? n then 200 else n) db) /\
  (forall user name_input ws db,
      forallb PyStr.isspace ws = true ->
      do_history user name_input ws db =
      get_history (id_of_user user) (PyStr.strip name_input) 20 db) /\
  (forall user name_input limit_input db rows db',
      do_history user name_input limit_input db = (Ok rows, db') ->
      (List.length rows <= 200)%nat).
Proof.
  split; [| split; [| split; [| split; [| split; [| split; [| split]]]]]].
  - intros db user_id account_name limit Hfit Hnone.
    apply select_account_none in Hnone.
    rewrite get_history_eq, Hfit, Hnone. reflexivity.
  - intros db user_id account_name limit row [Hpk Hcol] Hsel Hlim.
    destruct (select_account_some _ _ _ _ Hsel) as [Hin [Hu _]].
    destruct (Hcol row Hin) as [Hfid [Hfu _]].
    exists (order_by_id_desc
              (filter (fun t => t_account_id t =? a_id row) (transactions db))).
    eexists. split; [apply order_by_id_desc_perm|].
    split; [apply order_by_id_desc_sorted|].
    split; [reflexivity|].
    rewrite get_history_eq, <- Hu, Hfu, Hu, Hsel, Hfid, Hlim. reflexivity.
  - intros ops user_id account_name limit row db [Hpk Hcol] Hsel Hlim.
    destruct (select_account_some _ _ _ _ Hsel) as [Hin [Hu _]].
    destruct (Hcol row Hin) as [Hfid [Hfu _]].
    rewrite get_history_eq, <- Hu, Hfu, Hu, Hsel, Hfid, Hlim.
    unfold select_history. cbn [andb].
    rewrite order_by_id_desc_rev; [reflexivity|].
    apply sorted_filter. apply (rowids_run ops).
  - intros db user_id account_name row [Hpk Hcol] Hsel.
    destruct (select_account_some _ _ _ _ Hsel) as [Hin [Hu _]].
    destruct (Hcol row Hin) as [Hfid [Hfu _]].
    exists (order_by_id_desc
              (filter (fun t => t_account_id t =? a_id row) (transactions db))).
    split; [apply order_by_id_desc_perm|].
    split; [apply order_by_id_desc_sorted|].
    unfold get_history_call.
    rewrite get_history_eq, <- Hu, Hfu, Hu, Hsel, Hfid. reflexivity.
  - intros user name_input limit_input db. rewrite do_history_eq.
    destruct (PyStr.int _); reflexivity.
  - intros user name_input n text db Htext.
    destruct (numeral_not_space n text Htext) as [Hne [Hstrip Hint]].
    rewrite do_history_eq, Hstrip.
    destruct text as [|c r]; [contradiction|]. rewrite Hint.
    f_equal.
    destruct (n <? 1) eqn:A; [apply Z.ltb_lt in A | apply Z.ltb_ge in A];
      destruct (200 <? n) eqn:B;
      [apply Z.ltb_lt in B | apply Z.ltb_ge in B
      | apply Z.ltb_lt in B | apply Z.ltb_ge in B]; lia.
  - intros user name_input ws db Hws. rewrite do_history_eq.
    unfold PyStr.strip at 1. rewrite (strip_by_all _ ws Hws). reflexivity.
  - intros user name_input limit_input db rows db'. rewrite do_history_eq.
    destruct (PyStr.int _) as [n|e]; [| discriminate].
    intros H. apply get_history_length in H; lia.
Qed.

Lemma history_most_recent_first_witness :
  get_history 7 "Checking" 20 demo_db = (Raise account_not_found, demo_db) /\
  (exists every txs,
    Permutation every
      (filter (fun t => t_account_id t =? 1) (transactions demo_db)) /\
    StronglySorted newer_first every /\
    txs = (if 20 <? 0 then every else firstn (Z.to_nat 20) every) /\
    get_history 1 "Checking" 20 demo_db = (Ok (map history_row txs), demo_db)) /\
  get_history 1 "Checking" 20 (run demo_ops empty_db) =
    (Ok (map history_row
           (sql_limit 20
              (rev (filter (fun t => t_account_id t =? 1)
                      (transactions (run demo_ops empty_db)))))),
     run demo_ops empty_db) /\
  do_history {| id_of_user := 1; username := "alice" |} " Checking" "500"
    demo_db =
  get_history 1 "Checking" 200 demo_db /\
  do_history {| id_of_user := 1; username := "alice" |} " Checking" "-3"
    demo_db =
  get_history 1 "Checking" 1 demo_db.
Proof.
  split; [| split; [| split; [| split]]].
  - apply (proj1 history_most_recent_first demo_db 7 "Checking" 20).
    + reflexivity.
    + intros a [<- | [<- | []]] [H _]; discriminate H.
  - apply (proj1 (proj2 history_most_recent_first) demo_db 1 "Checking" 20
             {| a_id := 1; a_user_id := 1; a_name := "Checking";
                a_type := "checking"; a_balance_cents := 10000;
                a_created_at := "2024-01-01T00:00:00Z" |}).
    + exact demo_db_schema_ok.
    + reflexivity.
    + reflexivity.
  - apply (proj1 (proj2 (proj2 history_most_recent_first)) demo_ops 1
             "Checking" 20
             {| a_id := 1; a_user_id := 1; a_name := "Checking";
                a_type := "checking"; a_balance_cents := 10000;
                a_created_at := "2024-01-01T00:00:00Z" |}).
    + exact demo_db_schema_ok.
    + reflexivity.
    + reflexivity.
  - apply (proj1 (proj2 (proj2 (proj2 (proj2 (proj2 history_most_recent_first)))))
             {| id_of_user := 1; username := "alice" |} " Checking" 500 "500"
             demo_db).
    reflexivity.
  - apply (proj1 (proj2 (proj2 (proj2 (proj2 (proj2 history_most_recent_first)))))
             {| id_of_user := 1; username := "alice" |} " Checking" (-3) "-3"
             demo_db).
    reflexivity.
Defined.

(** C7, as stated, fails: [get_history] does not clamp its [limit].  Asked
    for 0 rows of an account that has one transaction it returns none, where
    a limit clamped to 1 returns that transaction. *)
Lemma get_history_limit_not_clamped :
  fst (get_history 1 "Checking" 0 demo_db) = Ok [] /\
  fst (get_history 1 "Checking" (Z.max 1 (Z.min 200 0)) demo_db) =
    Ok [("deposit" : str, 10000, 10000, "pay" : str, "2024-01-02T00:00:00Z" : str)] /\
  fst (get_history 1 "Checking" 0 demo_db) <>
  fst (get_history 1 "Checking" (Z.max 1 (Z.min 200 0)) demo_db).
Proof.
  split; [reflexivity|]. split; [reflexivity|]. vm_compute. discriminate.
Qed.

(** * Further properties of the program *)

(** ** What is committed, and when *)

Lemma keeps_committed_ret {A} (a : A) : keeps_committed (ret a).
Proof. intros c. reflexivity. Qed.

Lemma keeps_committed_raise {A} (e : exn) : keeps_committed (@raise Conn A e).
Proof. intros c. reflexivity. Qed.

Lemma keeps_committed_read {A} (q : Db -> A) : keeps_committed (read q).
Proof. intros c. reflexivity. Qed.

Lemma keeps_committed_write (f : Db -> Db) : keeps_committed (write f).
Proof. intros c. reflexivity. Qed.

Lemma keeps_committed_bind {A B} (m : Sql A) (k : A -> Sql B) :
  keeps_committed m -> (forall a, keeps_committed (k a)) ->
  keeps_committed (bind m k).
Proof.
  intros Hm Hk c. unfold bind. specialize (Hm c).
  destruct (m c) as [[a|e] c']; simpl in *.
  - rewrite Hk. exact Hm.
  - exact Hm.
Qed.

Lemma keeps_committed_bind_ints (l : list Z) : keeps_committed (bind_ints l).
Proof.
  induction l as [|z l IH]; simpl.
  - apply keeps_committed_ret.
  - destruct (fits_int64 z); [exact IH | apply keeps_committed_raise].
Qed.

Lemma keeps_committed_add_tx account_id kind amount note now :
  keeps_committed (add_tx account_id kind amount note now).
Proof. intros c. apply add_tx_committed. Qed.

Lemma keeps_committed_insert_account user_id name type_ balance now :
  keeps_committed (insert_account user_id name type_ balance now).
Proof.
  intros c.
  destruct (insert_account_cases user_id name type_ balance now c)
    as [[e ->] | ->]; reflexivity.
Qed.

Lemma keeps_committed_insert_user username salt pw_hash now :
  keeps_committed (insert_user username salt pw_hash now).
Proof.
  intros c. unfold insert_user. cbv [bind read write raise ret].
  destruct (existsb _ _); reflexivity.
Qed.

Lemma raises_uncommitted_keeps {A} (m : Sql A) :
  keeps_committed m -> raises_uncommitted m.
Proof. intros H c _. apply H. Qed.

Lemma raises_uncommitted_bind {A B} (m : Sql A) (k : A -> Sql B) :
  keeps_committed m -> (forall a, raises_uncommitted (k a)) ->
  raises_uncommitted (bind m k).
Proof.
  intros Hm Hk c. unfold bind. specialize (Hm c).
  destruct (m c) as [[a|e] c']; simpl in *.
  - intros H. rewrite (Hk a c' H). exact Hm.
  - intros _. exact Hm.
Qed.

Lemma raises_uncommitted_commit : raises_uncommitted commit.
Proof. intros c H. discriminate H. Qed.

Lemma raises_uncommitted_commit_ret {A} (a : A) :
  raises_uncommitted (commit ;;; ret a).
Proof. intros c H. discriminate H. Qed.

Lemma op_atomic_with_conn {A} (body : Sql A) :
  raises_uncommitted body -> op_atomic (with_conn body).
Proof.
  intros Hb db. unfold with_conn. specialize (Hb (get_conn db)).
  destruct (body (get_conn db)) as [[a|e] c]; simpl in *.
  - discriminate.
  - intros _. apply Hb. reflexivity.
Qed.

Lemma op_readonly_with_conn {A} (body : Sql A) :
  (forall c, working (snd (body c)) = working c) -> keeps_committed body ->
  op_readonly (with_conn body).
Proof.
  intros Hw Hc db. unfold with_conn.
  specialize (Hw (get_conn db)). specialize (Hc (get_conn db)).
  destruct (body (get_conn db)) as [[a|e] c]; simpl in *; assumption.
Qed.

Lemma op_readonly_atomic {A} (m : Op A) : op_readonly m -> op_atomic m.
Proof. intros H db _. apply H. Qed.

Lemma op_atomic_raise {A} (e : exn) : op_atomic (@raise Db A e).
Proof. intros db _. reflexivity. Qed.

Lemma op_atomic_bind_readonly {A B} (m : Op A) (k : A -> Op B) :
  op_readonly m -> (forall a, op_atomic (k a)) -> op_atomic (bind m k).
Proof.
  intros Hm Hk db. unfold bind. specialize (Hm db).
  destruct (m db) as [[a|e] db']; simpl in *; subst db'.
  - apply Hk.
  - reflexivity.
Qed.

Lemma op_atomic_then_ret {A B} (m : Op A) (b : B) :
  op_atomic m -> op_atomic (m ;;; ret b).
Proof.
  intros Hm db. unfold bind. specialize (Hm db).
  destruct (m db) as [[a|e] db']; simpl in *.
  - discriminate.
  - exact Hm.
Qed.

Lemma op_readonly_bind {A B} (m : Op A) (k : A -> Op B) :
  op_readonly m -> (forall a, op_readonly (k a)) -> op_readonly (bind m k).
Proof.
  intros Hm Hk db. unfold bind. specialize (Hm db).
  destruct (m db) as [[a|e] db']; simpl in *; subst db'.
  - apply Hk.
  - reflexivity.
Qed.

Lemma op_readonly_ret {A} (a : A) : op_readonly (@ret Db A a).
Proof. intros db. reflexivity. Qed.

Lemma op_readonly_raise {A} (e : exn) : op_readonly (@raise Db A e).
Proof. intros db. reflexivity. Qed.

Lemma op_readonly_get_account user_id name : op_readonly (get_account user_id name).
Proof. intros db. rewrite get_account_eq. reflexivity. Qed.

Lemma op_readonly_get_history user_id name limit :
  op_readonly (get_history user_id name limit).
Proof. intros db. rewrite get_history_eq. reflexivity. Qed.

Lemma op_readonly_do_history user name_input limit_input :
  op_readonly (do_history user name_input limit_input).
Proof.
  unfold do_history. destruct (PyStr.int _).
  - apply op_readonly_get_history.
  - apply op_readonly_raise.
Qed.

Lemma list_accounts_eq user_id db :
  list_accounts user_id db =
  (if fits_int64 user_id
   then Ok (map Account_of_row (select_accounts user_id db))
   else Raise overflow_error, db).
Proof.
  unfold list_accounts, with_conn. cbv [bind read raise ret bind_ints get_conn].
  destruct (fits_int64 user_id); reflexivity.
Qed.

Lemma get_user_by_username_eq username db :
  get_user_by_username username db =
  (Ok (option_map user_tuple (select_user username db)), db).
Proof. reflexivity. Qed.

Lemma op_readonly_login_flow pbkdf2_hmac username_input password :
  op_readonly (login_flow pbkdf2_hmac username_input password).
Proof.
  intros db. unfold login_flow. unfold bind.
  rewrite get_user_by_username_eq.
  destruct (select_user _ db) as [r|]; simpl; [|reflexivity].
  destruct (verify_password _ _ _ _); reflexivity.
Qed.

Lemma op_atomic_deposit u a amt note now : op_atomic (deposit u a amt note now).
Proof.
  unfold deposit. destruct (amt <=? 0); [apply op_atomic_raise|].
  apply op_atomic_bind_readonly; [apply op_readonly_get_account | intros [acc|]].
  - apply op_atomic_then_ret. apply op_atomic_with_conn.
    apply raises_uncommitted_bind; [apply keeps_committed_add_tx | intros _].
    apply raises_uncommitted_commit.
  - apply op_atomic_raise.
Qed.

Lemma op_atomic_withdraw u a amt note now : op_atomic (withdraw u a amt note now).
Proof.
  unfold withdraw. destruct (amt <=? 0); [apply op_atomic_raise|].
  apply op_atomic_bind_readonly; [apply op_readonly_get_account | intros [acc|]].
  - apply op_atomic_then_ret. apply op_atomic_with_conn.
    apply raises_uncommitted_bind; [apply keeps_committed_add_tx | intros _].
    apply raises_uncommitted_commit.
  - apply op_atomic_raise.
Qed.

Lemma op_atomic_transfer u f t amt note n1 n2 :
  op_atomic (transfer u f t amt note n1 n2).
Proof.
  unfold transfer. destruct (amt <=? 0); [apply op_atomic_raise|].
  apply op_atomic_bind_readonly; [apply op_readonly_get_account | intros src].
  apply op_atomic_bind_readonly; [apply op_readonly_get_account | intros dst].
  destruct src as [src|]; [destruct dst as [dst|] |]; try apply op_atomic_raise.
  destruct (id src =? id dst); [apply op_atomic_raise|].
  apply op_atomic_then_ret. apply op_atomic_with_conn.
  apply raises_uncommitted_bind; [apply keeps_committed_ret | intros _].
  apply raises_uncommitted_bind; [apply keeps_committed_add_tx | intros _].
  apply raises_uncommitted_bind; [apply keeps_committed_add_tx | intros _].
  apply raises_uncommitted_commit.
Qed.

Lemma op_atomic_create_account u n t now : op_atomic (create_account u n t now).
Proof.
  unfold create_account. destruct (negb _); [apply op_atomic_raise|].
  apply op_atomic_with_conn.
  apply raises_uncommitted_bind;
    [apply keeps_committed_insert_account | intros acc_id].
  apply raises_uncommitted_commit_ret.
Qed.

Lemma op_atomic_create_user u s h n1 n2 : op_atomic (create_user u s h n1 n2).
Proof.
  unfold create_user. apply op_atomic_with_conn.
  apply raises_uncommitted_bind; [apply keeps_committed_insert_user | intros uid].
  apply raises_uncommitted_bind;
    [apply keeps_committed_insert_account | intros _].
  apply raises_uncommitted_commit_ret.
Qed.

(** X1. An operation that raises leaves no trace: whatever it had written
    is rolled back, and the database is the one it started from.  This
    holds of the creation of a user and of an account, of deposits,
    withdrawals and transfers, and of the two readings of the history. *)
Theorem failed_operation_leaves_no_trace :
  forall o db, returned o db = false -> exec o db = db.
Proof.
  intros [u s h n1 n2 | u n t now | u a amt note now | u a amt note now
         | u f t amt note n1 n2 | u a l | u n l] db; simpl.
  - apply op_atomic_create_user.
  - apply op_atomic_create_account.
  - apply op_atomic_deposit.
  - apply op_atomic_withdraw.
  - apply op_atomic_transfer.
  - intros _. apply op_readonly_get_history.
  - intros _. apply op_readonly_do_history.
Qed.

Lemma failed_operation_leaves_no_trace_witness :
  exec (Transfer 1 "Checking" "Savings" 4000 "rent" "2024-01-04T00:00:00Z"
          "2024-01-04T00:00:01Z") vault_db = vault_db /\
  exec (CreateAccount 1 "Savings" "savings" "2024-01-07T00:00:00Z") demo_db
    = demo_db.
Proof.
  split; apply failed_operation_leaves_no_trace; reflexivity.
Defined.

(** X2. The lookups never write: [get_account], [list_accounts],
    [get_user_by_username], [get_history], [Session.do_history] and
    [login_flow] leave the database as it is, whether they return or
    raise. *)
Theorem lookups_never_write :
  (forall user_id name db, snd (get_account user_id name db) = db) /\
  (forall user_id db, snd (list_accounts user_id db) = db) /\
  (forall username db, snd (get_user_by_username username db) = db) /\
  (forall user_id name limit db, snd (get_history user_id name limit db) = db) /\
  (forall user name_input limit_input db,
      snd (do_history user name_input limit_input db) = db) /\
  (forall pbkdf2_hmac username_input password db,
      snd (login_flow pbkdf2_hmac username_input password db) = db).
Proof.
  split; [| split; [| split; [| split; [| split]]]].
  - intros. apply op_readonly_get_account.
  - intros. rewrite list_accounts_eq. reflexivity.
  - intros. reflexivity.
  - intros. apply op_readonly_get_history.
  - intros. apply op_readonly_do_history.
  - intros. apply op_readonly_login_flow.
Qed.

(** ** Creating accounts and users, and finding them *)

Lemma insert_account_eq user_id name type_ balance now c :
  insert_account user_id name type_ balance now c =
  if negb (fits_int64 user_id && fits_int64 balance) then (Raise overflow_error, c)
  else if negb (member type_ account_types) then
    (Raise (IntegrityError "CHECK constraint failed: type IN ('checking','savings')"), c)
  else if account_exists user_id name (working c) then (Raise duplicate_account, c)
  else
    (Ok (next_rowid (accounts_seq (working c)) (map a_id (accounts (working c)))),
     {| committed := committed c;
        working := account_added user_id name type_ balance now (working c) |}).
Proof.
  unfold insert_account, account_exists.
  cbv [bind read write raise ret bind_ints].
  destruct (fits_int64 user_id); [|reflexivity].
  destruct (fits_int64 balance); [|reflexivity]. cbn [andb negb].
  destruct (negb (member type_ account_types)); [reflexivity|].
  destruct (existsb _ _); reflexivity.
Qed.

Lemma create_account_eq user_id name type_ now db :
  create_account user_id name type_ now db =
  if negb (member type_ account_types) then (Raise invalid_type, db)
  else if negb (fits_int64 user_id) then (Raise overflow_error, db)
  else if account_exists user_id name db then (Raise duplicate_account, db)
  else
    (Ok {| id := next_rowid (accounts_seq db) (map a_id (accounts db));
           user_id := user_id; name := name; type := type_;
           balance_cents := 0 |},
     account_added user_id name type_ 0 now db).
Proof.
  unfold create_account.
  destruct (negb (member type_ account_types)) eqn:Ht; [reflexivity|].
  unfold with_conn, bind at 1. rewrite insert_account_eq, Ht.
  cbn [get_conn working committed].
  replace (fits_int64 0) with true by reflexivity. rewrite andb_true_r.
  destruct (fits_int64 user_id); cbn [negb]; [|reflexivity].
  destruct (account_exists user_id name db); reflexivity.
Qed.

Lemma account_exists_false user_id name db :
  account_exists user_id name db = false <-> select_account user_id name db = None.
Proof.
  unfold account_exists, select_account. split; intros H.
  - destruct (find _ _) as [r|] eqn:E; [|reflexivity].
    apply find_some in E. destruct E as [Hin Hp].
    assert (X : existsb (fun r => (a_user_id r =? user_id) && str_eqb (a_name r) name)
                  (accounts db) = true)
      by (apply existsb_exists; exists r; auto).
    rewrite X in H. discriminate.
  - apply not_true_is_false. intros X. apply existsb_exists in X.
    destruct X as [r [Hin Hp]].
    pose proof (find_none _ _ H r Hin) as F. cbv beta in F.
    rewrite F in Hp. discriminate.
Qed.

Lemma find_snoc {A} (p : A -> bool) l x :
  find p (l ++ [x]) =
  match find p l with
  | Some r => Some r
  | None => if p x then Some x else None
  end.
Proof.
  induction l as [|y l IH]; simpl; [reflexivity|].
  destruct (p y); [reflexivity | exact IH].
Qed.

Lemma select_account_added user_id name type_ now db u n :
  select_account u n (account_added user_id name type_ 0 now db) =
  match select_account u n db with
  | Some r => Some r
  | None =>
      if (user_id =? u) && str_eqb name n
      then Some {| a_id := next_rowid (accounts_seq db) (map a_id (accounts db));
                   a_user_id := user_id; a_name := name; a_type := type_;
                   a_balance_cents := 0; a_created_at := now |}
      else None
  end.
Proof.
  unfold select_account, account_added. cbn [accounts].
  rewrite find_snoc. reflexivity.
Qed.

(** X3. [create_account] returns exactly when the type is [checking] or
    [savings], the user id is a 64-bit integer and the user has no account
    of that name yet.  The account it returns then has balance 0 and an id
    above every id of the table, and the table has that one row more.  A
    wrong type raises the [ValueError] of the function, a name already taken
    the [IntegrityError] of the [UNIQUE] constraint; when it raises, the
    database is unchanged. *)
Theorem create_account_outcome :
  forall uid nm ty now db,
    let r := create_account uid nm ty now db in
    (is_ok (fst r) = true <->
     member ty account_types = true /\ fits_int64 uid = true /\
     select_account uid nm db = None) /\
    (member ty account_types = false -> r = (Raise invalid_type, db)) /\
    (member ty account_types = true -> fits_int64 uid = true ->
     select_account uid nm db <> None ->
     r = (Raise duplicate_account, db)) /\
    (is_ok (fst r) = false -> snd r = db) /\
    (forall acc db',
        r = (Ok acc, db') ->
        user_id acc = uid /\ name acc = nm /\ type acc = ty /\
        balance_cents acc = 0 /\
        (forall a, In a (accounts db) -> a_id a < id acc) /\
        accounts db' =
          accounts db ++
          [{| a_id := id acc; a_user_id := uid; a_name := nm; a_type := ty;
              a_balance_cents := 0; a_created_at := now |}] /\
        transactions db' = transactions db /\ users db' = users db).
Proof.
  intros uid nm ty now db r. subst r. rewrite create_account_eq.
  pose proof (account_exists_false uid nm db) as Hex.
  destruct (member ty account_types) eqn:Ht; cbn [negb].
  2:{ split; [| split; [| split; [| split]]].
      - split; [discriminate | intros [H _]; discriminate].
      - reflexivity.
      - discriminate.
      - reflexivity.
      - discriminate. }
  destruct (fits_int64 uid) eqn:Hf; cbn [negb].
  2:{ split; [| split; [| split; [| split]]].
      - split; [discriminate | intros [_ [H _]]; discriminate].
      - discriminate.
      - discriminate.
      - reflexivity.
      - discriminate. }
  destruct (account_exists uid nm db) eqn:He.
  - assert (Hsome : select_account uid nm db <> None).
    { intros E. apply Hex in E. discriminate. }
    split; [| split; [| split; [| split]]].
    + split; [discriminate | intros [_ [_ H]]; contradiction].
    + discriminate.
    + reflexivity.
    + reflexivity.
    + discriminate.
  - assert (Hnone : select_account uid nm db = None) by (apply Hex; reflexivity).
    split; [| split; [| split; [| split]]].
    + split; [auto | reflexivity].
    + discriminate.
    + intros _ _ H. contradiction.
    + discriminate.
    + intros acc db' E. injection E as <- <-. cbn.
      repeat split; try reflexivity.
      intros a Ha. apply next_rowid_above. apply in_map. exact Ha.
Qed.

Lemma create_account_outcome_witness :
  create_account 1 "Savings" "savings" "2024-01-07T00:00:00Z" demo_db =
    (Raise duplicate_account, demo_db) /\
  create_account 1 "Holiday" "current" "2024-01-07T00:00:00Z" demo_db =
    (Raise invalid_type, demo_db) /\
  (forall a, In a (accounts demo_db) -> a_id a < 3).
Proof.
  split; [| split].
  - apply (create_account_outcome 1 "Savings" "savings" "2024-01-07T00:00:00Z"
             demo_db); [reflexivity | reflexivity | discriminate].
  - apply (create_account_outcome 1 "Holiday" "current" "2024-01-07T00:00:00Z"
             demo_db). reflexivity.
  - pose proof (create_account_outcome 1 "Holiday" "savings"
                  "2024-01-07T00:00:00Z" demo_db) as H.
    destruct H as (_ & _ & _ & _ & H).
    exact (proj1 (proj2 (proj2 (proj2 (proj2
             (H {| id := 3; user_id := 1; name := "Holiday"; type := "savings";
                   balance_cents := 0 |}
                (account_added 1 "Holiday" "savings" 0 "2024-01-07T00:00:00Z"
                   demo_db)
                eq_refl)))))).
Defined.

Lemma insert_asc_perm r l : Permutation (insert_asc r l) (r :: l).
Proof.
  induction l as [|x l IH]; simpl.
  - apply Permutation_refl.
  - destruct (a_id r <=? a_id x).
    + apply Permutation_refl.
    + eapply Permutation_trans; [apply perm_skip; exact IH | apply perm_swap].
Qed.

Lemma order_by_id_perm l : Permutation (order_by_id l) l.
Proof.
  induction l as [|r l IH]; simpl.
  - constructor.
  - eapply Permutation_trans; [apply insert_asc_perm | apply perm_skip; exact IH].
Qed.

Lemma select_accounts_In user_id db r :
  In r (select_accounts user_id db) <->
  In r (accounts db) /\ a_user_id r = user_id.
Proof.
  unfold select_accounts. split.
  - intros H. apply (Permutation_in _ (order_by_id_perm _)) in H.
    apply filter_In in H. destruct H as [Hin H]. apply Z.eqb_eq in H. auto.
  - intros [Hin H].
    apply (Permutation_in _ (Permutation_sym (order_by_id_perm _))).
    apply filter_In. split; [exact Hin | apply Z.eqb_eq; exact H].
Qed.

Lemma create_account_returns uid nm ty now db acc db' :
  create_account uid nm ty now db = (Ok acc, db') ->
  fits_int64 uid = true /\ select_account uid nm db = None /\
  db' = account_added uid nm ty 0 now db /\
  acc = Account_of_row
          {| a_id := next_rowid (accounts_seq db) (map a_id (accounts db));
             a_user_id := uid; a_name := nm; a_type := ty;
             a_balance_cents := 0; a_created_at := now |}.
Proof.
  rewrite create_account_eq.
  destruct (negb (member ty account_types)); [discriminate|].
  destruct (fits_int64 uid); cbn [negb]; [|discriminate].
  destruct (account_exists uid nm db) eqn:He; [discriminate|].
  intros E. injection E as <- <-.
  repeat split. apply account_exists_false. exact He.
Qed.

(** X4. An account that [create_account] has just created is the one
    [get_account] finds under its owner and name, and [list_accounts] lists
    it; the accounts that were there are found as before. *)
Theorem create_account_then_get_account :
  forall uid nm ty now db acc db',
    create_account uid nm ty now db = (Ok acc, db') ->
    get_account uid nm db' = (Ok (Some acc), db') /\
    (exists accs, list_accounts uid db' = (Ok accs, db') /\ In acc accs) /\
    (forall u n found,
        fst (get_account u n db) = Ok (Some found) ->
        fst (get_account u n db') = Ok (Some found)).
Proof.
  intros uid nm ty now db acc db' H.
  apply create_account_returns in H. destruct H as (Hfit & Hnone & -> & ->).
  assert (Hsel : select_account uid nm (account_added uid nm ty 0 now db) =
                 Some {| a_id := next_rowid (accounts_seq db) (map a_id (accounts db));
                         a_user_id := uid; a_name := nm; a_type := ty;
                         a_balance_cents := 0; a_created_at := now |}).
  { rewrite select_account_added, Hnone, Z.eqb_refl, str_eqb_refl. reflexivity. }
  split; [| split].
  - rewrite get_account_eq, Hfit, Hsel. reflexivity.
  - eexists. rewrite list_accounts_eq, Hfit. split; [reflexivity|].
    apply in_map. apply select_accounts_In. split; [| reflexivity].
    apply (select_account_some _ _ _ _ Hsel).
  - intros u n found. rewrite !get_account_eq.
    destruct (fits_int64 u); cbn [fst]; [|discriminate].
    rewrite select_account_added.
    destruct (select_account u n db); [auto | discriminate].
Qed.

Lemma create_account_then_get_account_witness :
  get_account 1 "Holiday"
    (account_added 1 "Holiday" "savings" 0 "2024-01-07T00:00:00Z" demo_db) =
  (Ok (Some {| id := 3; user_id := 1; name := "Holiday"; type := "savings";
               balance_cents := 0 |}),
   account_added 1 "Holiday" "savings" 0 "2024-01-07T00:00:00Z" demo_db).
Proof.
  apply (create_account_then_get_account 1 "Holiday" "savings"
           "2024-01-07T00:00:00Z" demo_db).
  reflexivity.
Defined.

(** ** What stays unique *)

Lemma NoDup_snoc {A} (l : list A) x : NoDup l -> ~ In x l -> NoDup (l ++ [x]).
Proof.
  intros Hl Hx. apply NoDup_app; [exact Hl | repeat constructor; intros [] |].
  intros y Hy [<- | []]. exact (Hx Hy).
Qed.

Lemma map_key_update {B} (key : AccountRow -> B) new_balance account_id l :
  (forall r, key (set_balance new_balance r) = key r) ->
  map key (map (fun r => if a_id r =? account_id
                         then set_balance new_balance r else r) l) =
  map key l.
Proof.
  intros H. rewrite map_map. apply map_ext. intros r.
  destruct (a_id r =? account_id); [apply H | reflexivity].
Qed.

Lemma keys_unique_posted db account_id kind amount new_balance note now :
  keys_unique db ->
  keys_unique (posted account_id kind amount new_balance note now db).
Proof.
  intros [H1 H2 H3 H4]. split; cbn [posted]; try assumption.
  - rewrite posted_accounts, map_key_update by reflexivity. exact H1.
  - rewrite posted_accounts, map_key_update by reflexivity. exact H2.
Qed.

Lemma account_exists_pair user_id name db :
  account_exists user_id name db = false ->
  ~ In (user_id, name) (map owner_and_name (accounts db)).
Proof.
  intros H Hin. apply in_map_iff in Hin. destruct Hin as [r [E Hr]].
  unfold owner_and_name in E. injection E as E1 E2.
  assert (X : account_exists user_id name db = true).
  { apply existsb_exists. exists r. split; [exact Hr|].
    rewrite E1, E2, Z.eqb_refl, str_eqb_refl. reflexivity. }
  rewrite X in H. discriminate.
Qed.

Lemma next_rowid_fresh seq ids : ~ In (next_rowid seq ids) ids.
Proof. intros H. apply (next_rowid_above seq) in H. lia. Qed.

Lemma keys_unique_insert_account user_id name type_ now :
  sql_preserves keys_unique (insert_account user_id name type_ 0 now).
Proof.
  intros c Hc Hw. rewrite insert_account_eq.
  destruct (negb (fits_int64 user_id && fits_int64 0));
    [split; [exact Hc | discriminate]|].
  destruct (negb (member type_ account_types));
    [split; [exact Hc | discriminate]|].
  destruct (account_exists user_id name (working c)) eqn:He;
    [split; [exact Hc | discriminate]|].
  split; [exact Hc | intros _]. cbn [snd working].
  destruct Hw as [H1 H2 H3 H4].
  split; unfold account_added; cbn [accounts users]; try assumption.
  - rewrite map_app. apply NoDup_snoc; [exact H1 | apply next_rowid_fresh].
  - rewrite map_app. apply NoDup_snoc; [exact H2|].
    apply account_exists_pair. exact He.
Qed.

Lemma insert_user_eq username salt pw_hash now c :
  insert_user username salt pw_hash now c =
  if existsb (fun r => str_eqb (u_username r) username) (users (working c))
  then (Raise duplicate_username, c)
  else
    (Ok (next_rowid (users_seq (working c)) (map u_id (users (working c)))),
     {| committed := committed c;
        working := user_added username salt pw_hash now (working c) |}).
Proof.
  unfold insert_user. cbv [bind read write raise ret].
  destruct (existsb _ _); reflexivity.
Qed.

Lemma keys_unique_insert_user username salt pw_hash now :
  sql_preserves keys_unique (insert_user username salt pw_hash now).
Proof.
  intros c Hc Hw. rewrite insert_user_eq.
  destruct (existsb _ _) eqn:He; [split; [exact Hc | discriminate]|].
  split; [exact Hc | intros _]. cbn [snd working].
  destruct Hw as [H1 H2 H3 H4].
  split; unfold user_added; cbn [accounts users]; try assumption.
  - rewrite map_app. apply NoDup_snoc; [exact H3 | apply next_rowid_fresh].
  - rewrite map_app. apply NoDup_snoc; [exact H4|].
    intros Hin. apply in_map_iff in Hin. destruct Hin as [r [E Hr]].
    assert (X : existsb (fun r => str_eqb (u_username r) username)
                  (users (working c)) = true).
    { apply existsb_exists. exists r. split; [exact Hr|].
      rewrite E. apply str_eqb_refl. }
    rewrite X in He. discriminate.
Qed.

Lemma keys_unique_empty : keys_unique empty_db.
Proof. split; constructor. Qed.

Lemma keys_unique_run (ops : list operation) : keys_unique (run ops empty_db).
Proof.
  apply run_preserves.
  - apply add_tx_sql_preserves. intros. apply keys_unique_posted. assumption.
  - apply keys_unique_insert_account.
  - apply keys_unique_insert_user.
  - apply keys_unique_empty.
Qed.

Lemma demo_db_keys_unique : keys_unique demo_db.
Proof. exact (keys_unique_run demo_ops). Qed.

(** X5. The keys stay unique: every operation keeps the ids of the accounts
    pairwise distinct, no user with two accounts of the same name, and the
    ids and the names of the users pairwise distinct; this holds after every
    run of operations from the empty database. *)
Theorem keys_stay_unique :
  (forall o db, keys_unique db -> keys_unique (exec o db)) /\
  (forall ops, keys_unique (run ops empty_db)).
Proof.
  split.
  - intros o. apply exec_preserves.
    + apply add_tx_sql_preserves. intros. apply keys_unique_posted. assumption.
    + apply keys_unique_insert_account.
    + apply keys_unique_insert_user.
  - exact keys_unique_run.
Qed.

Lemma keys_stay_unique_witness :
  keys_unique
    (exec (CreateAccount 1 "Holiday" "savings" "2024-01-07T00:00:00Z") demo_db).
Proof.
  apply (proj1 keys_stay_unique).
  exact demo_db_keys_unique.
Defined.

(** ** The accounts of a user *)

Lemma insert_asc_sorted r l :
  StronglySorted (fun x y => a_id x <= a_id y) l ->
  StronglySorted (fun x y => a_id x <= a_id y) (insert_asc r l).
Proof.
  induction l as [|x l IH]; simpl; intros Hs.
  - repeat constructor.
  - inversion Hs as [|? ? Hs' Hall]; subst.
    destruct (a_id r <=? a_id x) eqn:E.
    + apply Z.leb_le in E. constructor; [exact Hs|].
      constructor; [exact E|].
      eapply Forall_impl; [| exact Hall]. intros y Hy. cbv beta in *. lia.
    + apply Z.leb_gt in E. constructor; [apply IH; exact Hs'|].
      rewrite Forall_forall. intros y Hy.
      apply (Permutation_in _ (insert_asc_perm r l)) in Hy.
      destruct Hy as [<- | Hy]; [lia|].
      rewrite Forall_forall in Hall. apply Hall. exact Hy.
Qed.

Lemma order_by_id_sorted l :
  StronglySorted (fun x y => a_id x <= a_id y) (order_by_id l).
Proof.
  induction l as [|r l IH]; simpl.
  - constructor.
  - apply insert_asc_sorted. exact IH.
Qed.

Lemma sorted_map {A B} (f : A -> B) (R : A -> A -> Prop) (S : B -> B -> Prop) l :
  (forall x y, R x y -> S (f x) (f y)) ->
  StronglySorted R l -> StronglySorted S (map f l).
Proof.
  intros H. induction 1 as [|x l Hs IH Hall]; simpl; constructor.
  - exact IH.
  - rewrite Forall_forall in *. intros y Hy. apply in_map_iff in Hy.
    destruct Hy as [z [<- Hz]]. apply H. apply Hall. exact Hz.
Qed.

Lemma NoDup_map_eq {A B} (key : A -> B) l x y :
  NoDup (map key l) -> In x l -> In y l -> key x = key y -> x = y.
Proof.
  induction l as [|z l IH]; simpl; intros Hnd Hx Hy E; [contradiction|].
  inversion Hnd as [|? ? Hnotin Hnd']; subst.
  destruct Hx as [-> | Hx]; destruct Hy as [-> | Hy].
  - reflexivity.
  - exfalso. apply Hnotin. rewrite E. apply in_map. exact Hy.
  - exfalso. apply Hnotin. rewrite <- E. apply in_map. exact Hx.
  - apply IH; assumption.
Qed.

(** X6. [list_accounts] gives the accounts of the user by increasing id,
    each of them once, and they are exactly the accounts that [get_account]
    finds for that user: an account is listed if and only if looking up its
    name gives it back. *)
Theorem list_accounts_lists_accounts :
  forall uid db,
    fits_int64 uid = true ->
    NoDup (map owner_and_name (accounts db)) ->
    exists accs,
      list_accounts uid db = (Ok accs, db) /\
      StronglySorted (fun a b => id a <= id b) accs /\
      List.length accs =
        List.length (filter (fun r => a_user_id r =? uid) (accounts db)) /\
      (forall acc,
          In acc accs <-> get_account uid (name acc) db = (Ok (Some acc), db)).
Proof.
  intros uid db Hfit Hnd.
  exists (map Account_of_row (select_accounts uid db)).
  split; [rewrite list_accounts_eq, Hfit; reflexivity|].
  split; [| split].
  - apply (sorted_map Account_of_row (fun x y => a_id x <= a_id y)).
    + intros x y H. exact H.
    + apply order_by_id_sorted.
  - rewrite length_map. apply Permutation_length. apply order_by_id_perm.
  - intros acc. rewrite get_account_eq, Hfit. split.
    + intros H. apply in_map_iff in H. destruct H as [r [<- Hr]].
      apply select_accounts_In in Hr. destruct Hr as [Hin Hu].
      destruct (select_account uid (name (Account_of_row r)) db) as [r'|] eqn:E.
      * destruct (select_account_some _ _ _ _ E) as [Hin' [Hu' Hn']].
        assert (r' = r).
        { apply (NoDup_map_eq owner_and_name (accounts db)); auto.
          unfold owner_and_name. cbn in Hn'. congruence. }
        subst r'. reflexivity.
      * exfalso.
        pose proof (proj1 (select_account_none _ _ _) E) as E'.
        apply (E' r Hin). split; [exact Hu | reflexivity].
    + intros H. injection H as H.
      destruct (select_account uid (name acc) db) as [r|] eqn:E; [|discriminate].
      injection H as <-. apply in_map. apply select_accounts_In.
      destruct (select_account_some _ _ _ _ E) as [Hin [Hu _]]. auto.
Qed.

Lemma list_accounts_lists_accounts_witness :
  exists accs,
    list_accounts 1 demo_db = (Ok accs, demo_db) /\
    StronglySorted (fun a b => id a <= id b) accs /\
    List.length accs =
      List.length (filter (fun r => a_user_id r =? 1) (accounts demo_db)) /\
    (forall acc,
        In acc accs <-> get_account 1 (name acc) demo_db = (Ok (Some acc), demo_db)).
Proof.
  apply (list_accounts_lists_accounts 1 demo_db).
  - reflexivity.
  - exact (account_names_unique _ demo_db_keys_unique).
Defined.

(** ** Deposits, and the money the bank holds *)

Lemma deposit_existing db user_id account_name amount note now row :
  schema_ok db ->
  select_account user_id account_name db = Some row ->
  0 <= a_balance_cents row ->
  0 < amount ->
  deposit user_id account_name amount note now db =
  if int64_max <? a_balance_cents row + amount then (Raise overflow_error, db)
  else (Ok VNone,
        posted (a_id row) "deposit" amount (a_balance_cents row + amount)
          note now db).
Proof.
  intros [Hpk Hfit] Hsel Hnn Hpos.
  destruct (select_account_some _ _ _ _ Hsel) as [Hin [Hu Hn]].
  destruct (Hfit row Hin) as [Hfid [Hfu Hfb]].
  unfold deposit.
  replace (amount <=? 0) with false by (symmetry; apply Z.leb_gt; lia).
  unfold bind at 1. rewrite get_account_eq, <- Hu, Hfu, Hu, Hsel. simpl.
  unfold bind at 1. rewrite with_conn_add_tx.
  pose proof (select_balance_row db row Hpk Hin) as Hbal.
  destruct (int64_max <? a_balance_cents row + amount) eqn:Hov.
  - apply Z.ltb_lt in Hov. unfold int64_max in Hov.
    rewrite add_tx_eq. unfold add_tx_outcome. simpl working.
    rewrite Hfid, Hbal. cbn [negb].
    replace (a_balance_cents row + amount <? 0) with false
      by (symmetry; apply Z.ltb_ge; lia).
    replace (fits_int64 (a_balance_cents row + amount)) with false.
    + reflexivity.
    + symmetry. apply not_true_is_false. intros F.
      apply fits_int64_iff in F. unfold int64_max in F. lia.
  - apply Z.ltb_ge in Hov. unfold int64_max in Hov.
    rewrite (add_tx_returns _ _ _ _ _ _ (a_balance_cents row)); auto;
      try lia; apply fits_int64_iff; unfold int64_min, int64_max; lia.
Qed.

(** X7. [deposit] refuses an amount that is not positive before it looks
    anything up, and an account the user has not, each with its own
    [ValueError] and nothing written.  On an account that exists, with a
    balance that is not negative, it appends exactly one entry of kind
    [deposit] with the amount, and the account and the entry record the new
    balance; unless the new balance is too large for the column: the
    [OverflowError] of the binding then leaves the database unchanged. *)
Theorem deposit_ledger_entry :
  forall db uid account_name amount note now,
    (amount <= 0 ->
     deposit uid account_name amount note now db =
     (Raise (ValueError "Deposit must be positive"), db)) /\
    (0 < amount -> fits_int64 uid = true ->
     select_account uid account_name db = None ->
     deposit uid account_name amount note now db = (Raise account_not_found, db)) /\
    (forall row,
        schema_ok db ->
        select_account uid account_name db = Some row ->
        0 <= a_balance_cents row -> 0 < amount ->
        (a_balance_cents row + amount <= int64_max ->
         exists db' e,
           deposit uid account_name amount note now db = (Ok VNone, db') /\
           transactions db' = transactions db ++ [e] /\
           t_account_id e = a_id row /\ t_kind e = ("deposit" : str) /\
           t_amount_cents e = amount /\
           t_balance_after_cents e = a_balance_cents row + amount /\
           select_balance (a_id row) db' = Some (a_balance_cents row + amount)) /\
        (int64_max < a_balance_cents row + amount ->
         deposit uid account_name amount note now db = (Raise overflow_error, db))).
Proof.
  intros db uid account_name amount note now. split; [| split].
  - intros H. unfold deposit.
    replace (amount <=? 0) with true by (symmetry; apply Z.leb_le; exact H).
    reflexivity.
  - intros Hpos Hfit Hnone. unfold deposit.
    replace (amount <=? 0) with false by (symmetry; apply Z.leb_gt; exact Hpos).
    unfold bind at 1. rewrite get_account_eq, Hfit, Hnone. reflexivity.
  - intros row Hok Hsel Hnn Hpos.
    rewrite (deposit_existing _ _ _ _ _ _ _ Hok Hsel Hnn Hpos). split.
    + intros Hle.
      replace (int64_max <? a_balance_cents row + amount) with false
        by (symmetry; apply Z.ltb_ge; exact Hle).
      destruct (posted_transactions (a_id row) "deposit" amount
                  (a_balance_cents row + amount) note now db)
        as [e [E [H1 [H2 [H3 [H4 _]]]]]].
      eexists. exists e. split; [reflexivity|].
      repeat (split; [assumption|]).
      rewrite select_balance_posted, select_balance_update, Z.eqb_refl.
      destruct Hok as [Hpk _].
      destruct (select_account_some _ _ _ _ Hsel) as [Hin _].
      rewrite (select_balance_row db row Hpk Hin). reflexivity.
    + intros Hlt.
      replace (int64_max <? a_balance_cents row + amount) with true
        by (symmetry; apply Z.ltb_lt; exact Hlt).
      reflexivity.
Qed.

Lemma deposit_ledger_entry_witness :
  deposit 1 "Savings" 0 "gift" "2024-01-06T00:00:00Z" demo_db =
    (Raise (ValueError "Deposit must be positive"), demo_db) /\
  deposit 1 "Holiday" 500 "gift" "2024-01-06T00:00:00Z" demo_db =
    (Raise account_not_found, demo_db) /\
  (exists db' e,
      deposit 1 "Savings" 500 "gift" "2024-01-06T00:00:00Z" demo_db =
        (Ok VNone, db') /\
      transactions db' = transactions demo_db ++ [e] /\
      t_account_id e = 2 /\ t_kind e = ("deposit" : str) /\
      t_amount_cents e = 500 /\ t_balance_after_cents e = 0 + 500 /\
      select_balance 2 db' = Some (0 + 500)) /\
  deposit 1 "Savings" 500 "gift" "2024-01-06T00:00:00Z" vault_db =
    (Raise overflow_error, vault_db).
Proof.
  split; [| split; [| split]].
  - apply (deposit_ledger_entry demo_db 1 "Savings" 0 "gift"
             "2024-01-06T00:00:00Z"). lia.
  - apply (deposit_ledger_entry demo_db 1 "Holiday" 500 "gift"
             "2024-01-06T00:00:00Z"); [lia | reflexivity | reflexivity].
  - apply (proj1 (proj2 (proj2 (deposit_ledger_entry demo_db 1 "Savings" 500
                                  "gift" "2024-01-06T00:00:00Z"))
                    {| a_id := 2; a_user_id := 1; a_name := "Savings";
                       a_type := "savings"; a_balance_cents := 0;
                       a_created_at := "2024-01-03T00:00:00Z" |}
                    demo_db_schema_ok eq_refl
                    ltac:(simpl; lia) ltac:(lia))).
    simpl. unfold int64_max. lia.
  - apply (proj2 (proj2 (proj2 (deposit_ledger_entry vault_db 1 "Savings" 500
                                  "gift" "2024-01-06T00:00:00Z"))
                    {| a_id := 2; a_user_id := 1; a_name := "Savings";
                       a_type := "savings";
                       a_balance_cents := 9223372036854775807;
                       a_created_at := "2024-01-03T00:00:00Z" |}
                    vault_db_schema_ok eq_refl
                    ltac:(simpl; lia) ltac:(lia))).
    simpl. unfold int64_max. lia.
Defined.

Lemma total_update l account_id new_balance b :
  NoDup (map a_id l) ->
  option_map a_balance_cents (find (fun r => a_id r =? account_id) l) = Some b ->
  fold_right (fun a s => a_balance_cents a + s) 0
    (map (fun r => if a_id r =? account_id
                   then set_balance new_balance r else r) l) =
  fold_right (fun a s => a_balance_cents a + s) 0 l - b + new_balance.
Proof.
  induction l as [|x l IH]; simpl; intros Hnd Hf; [discriminate|].
  inversion Hnd as [|? ? Hnotin Hnd']; subst.
  destruct (a_id x =? account_id) eqn:E.
  - simpl in Hf. injection Hf as <-. simpl.
    apply Z.eqb_eq in E.
    assert (Hsame : map (fun r => if a_id r =? account_id
                                  then set_balance new_balance r else r) l = l).
    { rewrite <- (map_id l) at 2. apply map_ext_in. intros r Hr.
      destruct (a_id r =? account_id) eqn:Er; [|reflexivity].
      apply Z.eqb_eq in Er. exfalso. apply Hnotin. rewrite E, <- Er.
      apply in_map. exact Hr. }
    rewrite Hsame. lia.
  - rewrite (IH Hnd' Hf). lia.
Qed.

Lemma total_posted db account_id kind amount new_balance note now b :
  NoDup (map a_id (accounts db)) ->
  select_balance account_id db = Some b ->
  total_balance (posted account_id kind amount new_balance note now db) =
  total_balance db - b + new_balance.
Proof.
  intros Hnd Hsel. unfold total_balance. rewrite posted_accounts.
  apply total_update; assumption.
Qed.

Lemma posted_ids account_id kind amount new_balance note now db :
  map a_id (accounts (posted account_id kind amount new_balance note now db)) =
  map a_id (accounts db).
Proof. rewrite posted_accounts. apply map_key_update. reflexivity. Qed.

Lemma total_after_deposit db user_id account_name amount note now :
  NoDup (map a_id (accounts db)) ->
  total_balance (snd (deposit user_id account_name amount note now db)) =
  total_balance db +
  (if is_ok (fst (deposit user_id account_name amount note now db))
   then amount else 0).
Proof.
  intros Hnd.
  destruct (deposit user_id account_name amount note now db) as [r db'] eqn:E.
  cbn [fst snd]. revert E. unfold deposit.
  destruct (amount <=? 0); [intros [= <- <-]; simpl; lia|].
  unfold bind at 1. rewrite get_account_eq.
  destruct (fits_int64 user_id); [| intros [= <- <-]; simpl; lia].
  destruct (select_account user_id account_name db) as [row|];
    [| intros [= <- <-]; simpl; lia].
  cbn [option_map Account_of_row id].
  unfold bind at 1. rewrite with_conn_add_tx.
  destruct (add_tx (a_id row) _ _ _ _ _) as [[[]|e] c] eqn:E.
  - apply add_tx_inv in E. destruct E as [b [Hsel [_ [_ ->]]]].
    cbn [working get_conn ret] in *. intros [= <- <-]. cbn [is_ok].
    rewrite (total_posted _ _ _ _ _ _ _ b Hnd Hsel). lia.
  - intros [= <- <-]. simpl. lia.
Qed.

Lemma total_after_withdraw db user_id account_name amount note now :
  NoDup (map a_id (accounts db)) ->
  total_balance (snd (withdraw user_id account_name amount note now db)) =
  total_balance db -
  (if is_ok (fst (withdraw user_id account_name amount note now db))
   then amount else 0).
Proof.
  intros Hnd.
  destruct (withdraw user_id account_name amount note now db) as [r db'] eqn:E.
  cbn [fst snd]. revert E. unfold withdraw.
  destruct (amount <=? 0); [intros [= <- <-]; simpl; lia|].
  unfold bind at 1. rewrite get_account_eq.
  destruct (fits_int64 user_id); [| intros [= <- <-]; simpl; lia].
  destruct (select_account user_id account_name db) as [row|];
    [| intros [= <- <-]; simpl; lia].
  cbn [option_map Account_of_row id].
  unfold bind at 1. rewrite with_conn_add_tx.
  destruct (add_tx (a_id row) _ _ _ _ _) as [[[]|e] c] eqn:E.
  - apply add_tx_inv in E. destruct E as [b [Hsel [_ [_ ->]]]].
    cbn [working get_conn ret] in *. intros [= <- <-]. cbn [is_ok].
    rewrite (total_posted _ _ _ _ _ _ _ b Hnd Hsel). lia.
  - intros [= <- <-]. simpl. lia.
Qed.

Lemma total_after_transfer db user_id from_acc to_acc amount note now1 now2 :
  NoDup (map a_id (accounts db)) ->
  total_balance (snd (transfer user_id from_acc to_acc amount note now1 now2 db)) =
  total_balance db.
Proof.
  intros Hnd. unfold transfer.
  destruct (amount <=? 0); [reflexivity|].
  unfold bind at 1. rewrite get_account_eq.
  destruct (fits_int64 user_id) eqn:Hfit; [| reflexivity].
  unfold bind at 1. rewrite get_account_eq, Hfit.
  destruct (select_account user_id from_acc db) as [src|];
    destruct (select_account user_id to_acc db) as [dst|]; try reflexivity.
  cbn [option_map Account_of_row id].
  destruct (a_id src =? a_id dst); [reflexivity|].
  unfold bind at 1. rewrite with_conn_two_legs.
  destruct (add_tx (a_id src) _ _ _ _ _) as [[[]|e1] c1] eqn:E1; [| reflexivity].
  apply add_tx_inv in E1. destruct E1 as [b1 [Hsel1 [_ [_ ->]]]].
  destruct (add_tx (a_id dst) _ _ _ _ _) as [[[]|e2] c2] eqn:E2; [| reflexivity].
  apply add_tx_inv in E2. destruct E2 as [b2 [Hsel2 [_ [_ ->]]]].
  cbn [snd working get_conn ret] in *.
  rewrite (total_posted _ _ _ _ _ _ _ b2); [| rewrite posted_ids; exact Hnd | exact Hsel2].
  rewrite (total_posted _ _ _ _ _ _ _ b1 Hnd Hsel1). lia.
Qed.

(** X8. No money appears or disappears: a transfer leaves the sum of all
    balances as it was, whether it returns or raises; a deposit that returns
    adds its amount to that sum, a withdrawal that returns takes its amount
    from it, and one that raises changes nothing. *)
Theorem money_is_conserved :
  forall db uid name1 name2 amount note now1 now2,
    NoDup (map a_id (accounts db)) ->
    total_balance (snd (transfer uid name1 name2 amount note now1 now2 db)) =
      total_balance db /\
    total_balance (snd (deposit uid name1 amount note now1 db)) =
      total_balance db +
      (if is_ok (fst (deposit uid name1 amount note now1 db)) then amount else 0) /\
    total_balance (snd (withdraw uid name1 amount note now1 db)) =
      total_balance db -
      (if is_ok (fst (withdraw uid name1 amount note now1 db)) then amount else 0).
Proof.
  intros db uid name1 name2 amount note now1 now2 Hnd. split; [| split].
  - apply total_after_transfer. exact Hnd.
  - apply total_after_deposit. exact Hnd.
  - apply total_after_withdraw. exact Hnd.
Qed.

Lemma money_is_conserved_witness :
  total_balance
    (snd (transfer 1 "Checking" "Savings" 4000 "rent" "2024-01-04T00:00:00Z"
            "2024-01-04T00:00:01Z" demo_db)) = 10000.
Proof.
  apply (money_is_conserved demo_db 1 "Checking" "Savings" 4000 "rent"
           "2024-01-04T00:00:00Z" "2024-01-04T00:00:01Z").
  exact (account_ids_unique _ demo_db_keys_unique).
Defined.

(** ** Nothing is ever changed or deleted *)

Lemma extends_refl db : extends db db.
Proof.
  repeat split; exists []; rewrite app_nil_r; reflexivity.
Qed.

Lemma extends_posted db0 db account_id kind amount new_balance note now :
  extends db0 db ->
  extends db0 (posted account_id kind amount new_balance note now db).
Proof.
  intros [[t Ht] [[a Ha] [u Hu]]]. split; [| split].
  - destruct (posted_transactions account_id kind amount new_balance note now db)
      as [e [-> _]].
    exists (t ++ [e]). rewrite Ht, app_assoc. reflexivity.
  - exists a. rewrite posted_accounts, map_key_update by reflexivity. exact Ha.
  - exists u. exact Hu.
Qed.

Lemma extends_account_added db0 db user_id name type_ balance now :
  extends db0 db ->
  extends db0 (account_added user_id name type_ balance now db).
Proof.
  intros [[t Ht] [[a Ha] [u Hu]]]. split; [| split].
  - exists t. exact Ht.
  - eexists. cbn [account_added accounts]. rewrite map_app, Ha, <- app_assoc.
    reflexivity.
  - exists u. exact Hu.
Qed.

Lemma extends_user_added db0 db username salt pw_hash now :
  extends db0 db -> extends db0 (user_added username salt pw_hash now db).
Proof.
  intros [[t Ht] [[a Ha] [u Hu]]]. split; [| split].
  - exists t. exact Ht.
  - exists a. exact Ha.
  - eexists. cbn [user_added users]. rewrite Hu, <- app_assoc. reflexivity.
Qed.

Lemma extends_insert_user db0 username salt pw_hash now :
  sql_preserves (extends db0) (insert_user username salt pw_hash now).
Proof.
  intros c Hc Hw. rewrite insert_user_eq.
  destruct (existsb _ _); cbn [fst snd committed working is_ok].
  - split; [exact Hc | discriminate].
  - split; [exact Hc | intros _; apply extends_user_added; exact Hw].
Qed.

Lemma extends_run db0 (ops : list operation) (db : Db) :
  extends db0 db -> extends db0 (run ops db).
Proof.
  apply run_preserves.
  - apply add_tx_sql_preserves. intros. apply extends_posted. assumption.
  - apply insert_account_sql_preserves. intros.
    apply extends_account_added. assumption.
  - apply extends_insert_user.
Qed.

(** X9. The tables only grow.  Whatever operation runs, and whatever run of
    operations, the transactions there were are still there afterwards, in
    their places and unchanged, with the new ones after them; so are the
    accounts, up to their balances, and the users: no entry of the ledger is
    ever rewritten or deleted, no account renamed, retyped or given to
    another user. *)
Theorem ledger_is_append_only :
  (forall o db, extends db (exec o db)) /\
  (forall ops db, extends db (run ops db)).
Proof.
  split.
  - intros o db. apply (extends_run db [o]), extends_refl.
  - intros ops db. apply extends_run, extends_refl.
Qed.

(** ** The balance an entry records *)

Lemma snoc_split {A} (before after l : list A) (t e : A) :
  before ++ t :: after = l ++ [e] ->
  (after = [] /\ t = e /\ before = l) \/
  (exists after', after = after' ++ [e] /\ l = before ++ t :: after').
Proof.
  destruct after as [|x after _] using rev_ind.
  - intros H. apply app_inj_tail in H. destruct H as [-> ->]. left. auto.
  - intros H. right. exists after.
    change (before ++ t :: after ++ [x]) with (before ++ (t :: after) ++ [x]) in H.
    rewrite app_assoc in H. apply app_inj_tail in H. destruct H as [<- ->].
    auto.
Qed.

Lemma running_balances_snoc txs e :
  running_balances txs ->
  t_balance_after_cents e = sum_amounts (t_account_id e) (txs ++ [e]) ->
  running_balances (txs ++ [e]).
Proof.
  intros Hr He before t after H.
  symmetry in H. apply snoc_split in H. destruct H as [[_ [-> ->]] | [after' [_ ->]]].
  - exact He.
  - apply (Hr before t after'). reflexivity.
Qed.

Lemma ledger_snapshots_posted db account_id kind amount note now b :
  ledger_snapshots db -> select_balance account_id db = Some b ->
  0 <= b + amount ->
  ledger_snapshots (posted account_id kind amount (b + amount) note now db).
Proof.
  intros [Hl Hr] Hsel Hnn. split; [apply ledger_inv_posted; assumption|].
  destruct (posted_transactions account_id kind amount (b + amount) note now db)
    as [e [-> [Hid [_ [Hamt [Hbal _]]]]]].
  apply running_balances_snoc; [exact Hr|].
  rewrite Hbal, Hid, sum_amounts_app. unfold sum_amounts at 2. cbn [fold_right].
  rewrite Hid, Z.eqb_refl, Hamt.
  apply select_balance_in in Hsel. destruct Hsel as [a [Hin [Ha Hb]]].
  destruct Hl as [Hc _]. rewrite <- Hb, (Hc a Hin), Ha. lia.
Qed.

Lemma ledger_snapshots_same_transactions db db' :
  ledger_inv db' -> transactions db' = transactions db ->
  ledger_snapshots db -> ledger_snapshots db'.
Proof. intros Hl Ht [_ Hr]. split; [exact Hl | rewrite Ht; exact Hr]. Qed.

Lemma ledger_snapshots_run (ops : list operation) (db : Db) :
  ledger_snapshots db -> ledger_snapshots (run ops db).
Proof.
  apply run_preserves.
  - apply add_tx_sql_preserves. intros.
    apply ledger_snapshots_posted; assumption.
  - apply insert_account_sql_preserves. intros db0 u n t now H.
    apply (ledger_snapshots_same_transactions db0);
      [apply ledger_inv_account_added; apply H | reflexivity | exact H].
  - apply insert_user_sql_preserves. intros db0 db' Ha Ht H.
    apply (ledger_snapshots_same_transactions db0);
      [apply (ledger_inv_same_tables db0); [exact Ha | exact Ht | apply H]
      | exact Ht | exact H].
Qed.

Lemma ledger_snapshots_empty : ledger_snapshots empty_db.
Proof.
  split; [split|].
  - intros a [].
  - intros t [].
  - intros before t after H. destruct before; discriminate.
Qed.

(** X10. Every entry of the ledger records the balance its account had
    right after it: in the table of any database reached from the empty one,
    the [balance_after] of an entry is the sum of the amounts of the entries
    of its account up to and including this one.  Every operation keeps
    this, together with each balance being the sum of its account's
    amounts. *)
Theorem entry_records_running_balance :
  (forall ops before t after,
      transactions (run ops empty_db) = before ++ t :: after ->
      t_balance_after_cents t =
      sum_amounts (t_account_id t) (before ++ [t])) /\
  (forall o db, ledger_snapshots db -> ledger_snapshots (exec o db)).
Proof.
  split.
  - intros ops before t after H.
    destruct (ledger_snapshots_run ops empty_db ledger_snapshots_empty)
      as [_ Hr].
    apply (Hr before t after H).
  - intros o db. apply (ledger_snapshots_run [o] db).
Qed.

Lemma entry_records_running_balance_witness :
  10000 = sum_amounts 1 (transactions demo_db).
Proof.
  apply (proj1 entry_records_running_balance demo_ops []
           {| t_id := 1; t_account_id := 1; t_kind := "deposit";
              t_amount_cents := 10000; t_balance_after_cents := 10000;
              t_note := "pay"; t_created_at := "2024-01-02T00:00:00Z" |} []).
  reflexivity.
Defined.

Lemma filter_last_split {A} (p : A -> bool) (l l' : list A) (t : A) :
  filter p l = l' ++ [t] ->
  exists before after,
    l = before ++ t :: after /\ filter p after = [] /\ p t = true.
Proof.
  revert l' t. induction l as [|x l IH] using rev_ind; intros l' t H.
  - destruct l'; discriminate.
  - rewrite filter_app in H. cbn [filter] in H.
    destruct (p x) eqn:Ex.
    + apply app_inj_tail in H. destruct H as [_ ->].
      exists l, []. auto.
    + rewrite app_nil_r in H. destruct (IH _ _ H) as [b [a [-> [Ha Ht]]]].
      exists b, (a ++ [x]). rewrite <- app_assoc. split; [reflexivity|].
      split; [| exact Ht]. rewrite filter_app, Ha. cbn [filter]. rewrite Ex.
      reflexivity.
Qed.

Lemma sum_amounts_no_entry account_id l :
  filter (fun t => t_account_id t =? account_id) l = [] ->
  sum_amounts account_id l = 0.
Proof.
  intros H. apply sum_amounts_none. intros t Ht E.
  assert (Hin : In t (filter (fun t => t_account_id t =? account_id) l)).
  { apply filter_In. split; [exact Ht | apply Z.eqb_eq; exact E]. }
  rewrite H in Hin. exact Hin.
Qed.

Lemma sql_limit_head {A} limit (x : A) l :
  limit <> 0 -> exists l', sql_limit limit (x :: l) = x :: l'.
Proof.
  intros H. unfold sql_limit. destruct (limit <? 0) eqn:E; [eauto|].
  apply Z.ltb_ge in E. destruct (Z.to_nat limit) as [|n] eqn:En; [lia|].
  cbn [firstn]. eauto.
Qed.

Lemma sql_limit_nil {A} limit : @sql_limit A limit [] = [].
Proof. unfold sql_limit. destruct (limit <? 0); [| rewrite firstn_nil]; reflexivity. Qed.

(** X11. The history shows the balance.  In a database reached from the
    empty one, the first row that [get_history] returns for an account, with
    any limit but 0, carries in [balance_after] the balance that
    [get_account] shows for it; and when [get_history] returns no row, that
    balance is 0. *)
Theorem latest_entry_shows_balance :
  forall ops uid nm limit rows acc,
    let db := run ops empty_db in
    limit <> 0 ->
    get_account uid nm db = (Ok (Some acc), db) ->
    get_history uid nm limit db = (Ok rows, db) ->
    match rows with
    | [] => balance_cents acc = 0
    | (_, _, balance_after, _, _) :: _ => balance_after = balance_cents acc
    end.
Proof.
  intros ops uid nm limit rows acc db Hlimit Hacc Hhist.
  destruct (ledger_snapshots_run ops empty_db ledger_snapshots_empty)
    as [[Hc _] Hr]. fold db in Hc, Hr.
  pose proof (rowids_run ops) as Hrow. fold db in Hrow.
  rewrite get_account_eq in Hacc. rewrite get_history_eq in Hhist.
  destruct (fits_int64 uid); [| discriminate].
  destruct (select_account uid nm db) as [row|] eqn:Hsel; [| discriminate].
  injection Hacc as <-.
  destruct (fits_int64 (a_id row) && fits_int64 limit); [| discriminate].
  injection Hhist as <-.
  apply select_account_some in Hsel. destruct Hsel as [Hin _].
  cbn [Account_of_row balance_cents]. rewrite (Hc row Hin).
  unfold select_history.
  rewrite order_by_id_desc_rev by (apply sorted_filter; exact Hrow).
  destruct (filter (fun t => t_account_id t =? a_id row) (transactions db))
    as [|t l' _] eqn:Hf using rev_ind.
  - cbn [rev]. rewrite sql_limit_nil. cbn [map].
    apply sum_amounts_no_entry. exact Hf.
  - rewrite rev_app_distr. cbn [rev app].
    destruct (sql_limit_head limit t (rev l') Hlimit) as [rest ->].
    cbn [map history_row].
    apply filter_last_split in Hf. destruct Hf as [b [a [Ht [Ha Hp]]]].
    apply Z.eqb_eq in Hp.
    rewrite (Hr b t a Ht), Hp, Ht.
    change (b ++ t :: a) with (b ++ [t] ++ a).
    rewrite app_assoc, (sum_amounts_app _ (b ++ [t]) a).
    rewrite (sum_amounts_no_entry _ a Ha). lia.
Qed.

Lemma latest_entry_shows_balance_witness :
  match fst (get_history 1 "Checking" 20 demo_db) with
  | Ok ((_, _, balance_after, _, _) :: _) => balance_after = 10000
  | _ => False
  end.
Proof.
  apply (latest_entry_shows_balance demo_ops 1 "Checking" 20
           [("deposit" : str, 10000, 10000, "pay" : str,
             "2024-01-02T00:00:00Z" : str)]
           {| id := 1; user_id := 1; name := "Checking"; type := "checking";
              balance_cents := 10000 |}).
  - lia.
  - reflexivity.
  - reflexivity.
Defined.

(** ** The kind and the sign of the entries *)

Lemma deposit_effect u a amount note now db :
  snd (deposit u a amount note now db) = db \/
  exists row b,
    select_account u a db = Some row /\
    0 < amount /\ select_balance (a_id row) db = Some b /\ 0 <= b + amount /\
    deposit u a amount note now db =
    (Ok VNone, posted (a_id row) "deposit" amount (b + amount) note now db).
Proof.
  remember (deposit u a amount note now db) as r eqn:E. revert E.
  unfold deposit. destruct (amount <=? 0) eqn:Hpos; [intros ->; left; reflexivity|].
  apply Z.leb_gt in Hpos.
  unfold bind at 1. rewrite get_account_eq.
  destruct (fits_int64 u); [| intros ->; left; reflexivity].
  destruct (select_account u a db) as [row|]; [| intros ->; left; reflexivity].
  cbn [option_map Account_of_row id].
  unfold bind at 1. rewrite with_conn_add_tx.
  destruct (add_tx (a_id row) _ _ _ _ _) as [[[]|e] c] eqn:E;
    [| intros ->; left; reflexivity].
  apply add_tx_inv in E. destruct E as [b [Hsel [Hnn [_ ->]]]].
  intros ->. right. exists row, b. auto.
Qed.

Lemma withdraw_effect u a amount note now db :
  snd (withdraw u a amount note now db) = db \/
  exists row b,
    select_account u a db = Some row /\
    0 < amount /\ select_balance (a_id row) db = Some b /\ 0 <= b - amount /\
    withdraw u a amount note now db =
    (Ok VNone,
     posted (a_id row) "withdraw" (- amount) (b + - amount) note now db).
Proof.
  remember (withdraw u a amount note now db) as r eqn:E. revert E.
  unfold withdraw. destruct (amount <=? 0) eqn:Hpos; [intros ->; left; reflexivity|].
  apply Z.leb_gt in Hpos.
  unfold bind at 1. rewrite get_account_eq.
  destruct (fits_int64 u); [| intros ->; left; reflexivity].
  destruct (select_account u a db) as [row|]; [| intros ->; left; reflexivity].
  cbn [option_map Account_of_row id].
  unfold bind at 1. rewrite with_conn_add_tx.
  destruct (add_tx (a_id row) _ _ _ _ _) as [[[]|e] c] eqn:E;
    [| intros ->; left; reflexivity].
  apply add_tx_inv in E. destruct E as [b [Hsel [Hnn [_ ->]]]].
  intros ->. right. exists row, b. repeat split; auto; lia.
Qed.

Lemma transfer_effect u f t amount note now1 now2 db :
  snd (transfer u f t amount note now1 now2 db) = db \/
  exists src b1 dst b2,
    let db1 := posted (a_id src) "transfer_out" (- amount) (b1 + - amount)
                 note now1 db in
    select_account u f db = Some src /\ select_account u t db = Some dst /\
    0 < amount /\ select_balance (a_id src) db = Some b1 /\ 0 <= b1 - amount /\
    select_balance (a_id dst) db1 = Some b2 /\ 0 <= b2 + amount /\
    transfer u f t amount note now1 now2 db =
    (Ok VNone, posted (a_id dst) "transfer_in" amount (b2 + amount) note now2 db1).
Proof.
  remember (transfer u f t amount note now1 now2 db) as r eqn:E. revert E.
  unfold transfer. destruct (amount <=? 0) eqn:Hpos; [intros ->; left; reflexivity|].
  apply Z.leb_gt in Hpos.
  unfold bind at 1. rewrite get_account_eq.
  destruct (fits_int64 u) eqn:Hfit; [| intros ->; left; reflexivity].
  unfold bind at 1. rewrite get_account_eq, Hfit.
  destruct (select_account u f db) as [src|];
    destruct (select_account u t db) as [dst|];
    try (intros ->; left; reflexivity).
  cbn [option_map Account_of_row id].
  destruct (a_id src =? a_id dst); [intros ->; left; reflexivity|].
  unfold bind at 1. rewrite with_conn_two_legs.
  destruct (add_tx (a_id src) _ _ _ _ _) as [[[]|e1] c1] eqn:E1;
    [| intros ->; left; reflexivity].
  apply add_tx_inv in E1. destruct E1 as [b1 [Hsel1 [Hnn1 [_ ->]]]].
  destruct (add_tx (a_id dst) _ _ _ _ _) as [[[]|e2] c2] eqn:E2;
    [| intros ->; left; reflexivity].
  apply add_tx_inv in E2. destruct E2 as [b2 [Hsel2 [Hnn2 [_ ->]]]].
  intros ->. right. exists src, b1, dst, b2. cbv zeta.
  repeat split; auto; lia.
Qed.

Lemma entries_ok_posted db account_id kind amount new_balance note now :
  entries_ok db -> 0 <= new_balance ->
  (kind = ("deposit" : str) /\ 0 < amount \/
   kind = ("withdraw" : str) /\ amount < 0 \/
   kind = ("transfer_in" : str) /\ 0 < amount \/
   kind = ("transfer_out" : str) /\ amount < 0) ->
  entries_ok (posted account_id kind amount new_balance note now db).
Proof.
  intros H Hb Hk. unfold entries_ok.
  destruct (posted_transactions account_id kind amount new_balance note now db)
    as [e [-> [_ [Hkind [Hamt [Hbal _]]]]]].
  apply Forall_app. split; [exact H|]. constructor; [| constructor].
  unfold entry_ok. rewrite Hkind, Hamt, Hbal. auto.
Qed.

Lemma entries_ok_same_transactions db db' :
  transactions db' = transactions db -> entries_ok db -> entries_ok db'.
Proof. unfold entries_ok. intros ->. auto. Qed.

Lemma entries_ok_exec (o : operation) (db : Db) :
  entries_ok db -> entries_ok (exec o db).
Proof.
  intros H. destruct o as [u s h n1 n2 | u n t now | u a amt note now
                          | u a amt note now | u f t amt note n1 n2
                          | u a l | u n l]; cbn [exec].
  - revert db H. apply op_preserves_create_user.
    + apply insert_account_sql_preserves. intros db u' n t now.
      apply entries_ok_same_transactions. reflexivity.
    + apply insert_user_sql_preserves. intros db db' _ Ht.
      apply entries_ok_same_transactions. exact Ht.
  - revert db H. apply op_preserves_create_account.
    apply insert_account_sql_preserves. intros db u' n' t' now'.
    apply entries_ok_same_transactions. reflexivity.
  - destruct (deposit_effect u a amt note now db)
      as [-> | [i [b [_ [Hpos [_ [Hnn ->]]]]]]]; [exact H|].
    apply entries_ok_posted; auto.
  - destruct (withdraw_effect u a amt note now db)
      as [-> | [i [b [_ [Hpos [_ [Hnn ->]]]]]]]; [exact H|].
    apply entries_ok_posted; [exact H | lia |].
    right. left. split; [reflexivity | lia].
  - destruct (transfer_effect u f t amt note n1 n2 db)
      as [-> | [i1 [b1 [i2 [b2 [_ [_ [Hpos [_ [Hnn1 [_ [Hnn2 ->]]]]]]]]]]]];
    [exact H|].
    apply entries_ok_posted; [| lia | auto].
    apply entries_ok_posted; [exact H | lia |].
    right. right. right. split; [reflexivity | lia].
  - revert db H. apply op_preserves_get_history.
  - revert db H. apply op_preserves_do_history.
Qed.

Lemma entries_ok_run (ops : list operation) (db : Db) :
  entries_ok db -> entries_ok (run ops db).
Proof.
  revert db. induction ops as [|o ops IH]; intros db H; cbn [run].
  - exact H.
  - apply IH, entries_ok_exec, H.
Qed.

(** X12. The entries are well formed.  The engine writes entries of four
    kinds only, a deposit and a transfer in with an amount above zero, a
    withdrawal and a transfer out with an amount below zero, and never
    records a balance below zero: every operation keeps the table so, and
    every entry of a database reached from the empty one is so. *)
Theorem entries_are_well_formed :
  (forall o db, entries_ok db -> entries_ok (exec o db)) /\
  (forall ops t, In t (transactions (run ops empty_db)) -> entry_ok t).
Proof.
  split.
  - exact entries_ok_exec.
  - intros ops t. apply Forall_forall. apply entries_ok_run. constructor.
Qed.

Lemma entries_are_well_formed_witness :
  entries_ok
    (exec (Withdraw 1 "Checking" 2500 "cash" "2024-01-04T00:00:00Z") demo_db).
Proof.
  apply (proj1 entries_are_well_formed).
  constructor; [| constructor].
  split; [simpl; lia | left; split; [reflexivity | simpl; lia]].
Defined.

(** ** The session: amounts as they are typed *)

Lemma then_ret_eq {A B} (m : Op A) (b : B) db :
  snd ((m ;;; ret b) db) = snd (m db) /\
  is_ok (fst ((m ;;; ret b) db)) = is_ok (fst (m db)).
Proof. unfold bind. destruct (m db) as [[a|e] db']; split; reflexivity. Qed.

Lemma deposit_returns_positive u a amount note now db :
  is_ok (fst (deposit u a amount note now db)) = true -> 0 < amount.
Proof.
  unfold deposit. destruct (amount <=? 0) eqn:E; [discriminate|].
  intros _. apply Z.leb_gt. exact E.
Qed.

Lemma withdraw_returns_positive u a amount note now db :
  is_ok (fst (withdraw u a amount note now db)) = true -> 0 < amount.
Proof.
  unfold withdraw. destruct (amount <=? 0) eqn:E; [discriminate|].
  intros _. apply Z.leb_gt. exact E.
Qed.

Lemma do_deposit_total user a amount_input note now db :
  NoDup (map a_id (accounts db)) ->
  let r := do_deposit user a amount_input note now db in
  total_balance db <= total_balance (snd r) /\
  (is_ok (fst r) = true -> total_balance db < total_balance (snd r)).
Proof.
  intros Hnd. cbv zeta. unfold do_deposit.
  destruct (to_cents amount_input) as [amount|e];
    [| split; [apply Z.le_refl | discriminate]].
  destruct (then_ret_eq (deposit (id_of_user user) (PyStr.strip a) amount
                           (PyStr.strip note) now) VNone db) as [-> ->].
  rewrite (total_after_deposit _ _ _ _ _ _ Hnd).
  pose proof (deposit_returns_positive (id_of_user user) (PyStr.strip a) amount
                (PyStr.strip note) now db) as Hpos.
  destruct (is_ok _); [specialize (Hpos eq_refl) |]; split; try lia; discriminate.
Qed.

Lemma do_withdraw_total user a amount_input note now db :
  NoDup (map a_id (accounts db)) ->
  let r := do_withdraw user a amount_input note now db in
  total_balance (snd r) <= total_balance db /\
  (is_ok (fst r) = true -> total_balance (snd r) < total_balance db).
Proof.
  intros Hnd. cbv zeta. unfold do_withdraw.
  destruct (to_cents amount_input) as [amount|e];
    [| split; [apply Z.le_refl | discriminate]].
  destruct (then_ret_eq (withdraw (id_of_user user) (PyStr.strip a) amount
                           (PyStr.strip note) now) VNone db) as [-> ->].
  rewrite (total_after_withdraw _ _ _ _ _ _ Hnd).
  pose proof (withdraw_returns_positive (id_of_user user) (PyStr.strip a) amount
                (PyStr.strip note) now db) as Hpos.
  destruct (is_ok _); [specialize (Hpos eq_refl) |]; split; try lia; discriminate.
Qed.

Lemma do_transfer_total user a b amount_input note now1 now2 db :
  NoDup (map a_id (accounts db)) ->
  total_balance (snd (do_transfer user a b amount_input note now1 now2 db)) =
  total_balance db.
Proof.
  intros Hnd. unfold do_transfer.
  destruct (to_cents amount_input) as [amount|e]; [| reflexivity].
  destruct (then_ret_eq (transfer (id_of_user user) (PyStr.strip a)
                           (PyStr.strip b) amount (PyStr.strip note) now1 now2)
              VNone db) as [-> _].
  apply total_after_transfer. exact Hnd.
Qed.

(** X13. At the menu money moves one way only.  Whatever is typed for the
    account, the amount and the note (a negative amount, or no amount at
    all), [Session.do_deposit] never lowers the sum of the balances and
    raises it when it returns, [Session.do_withdraw] never raises that sum
    and lowers it when it returns, and [Session.do_transfer] leaves it as it
    is: a deposit cannot take money out, nor a withdrawal put money in. *)
Theorem session_moves_money_one_way :
  forall user a b amount_input note now1 now2 db,
    NoDup (map a_id (accounts db)) ->
    let d := do_deposit user a amount_input note now1 db in
    let w := do_withdraw user a amount_input note now1 db in
    let t := do_transfer user a b amount_input note now1 now2 db in
    total_balance db <= total_balance (snd d) /\
    (is_ok (fst d) = true -> total_balance db < total_balance (snd d)) /\
    total_balance (snd w) <= total_balance db /\
    (is_ok (fst w) = true -> total_balance (snd w) < total_balance db) /\
    total_balance (snd t) = total_balance db.
Proof.
  intros user a b amount_input note now1 now2 db Hnd. cbv zeta.
  destruct (do_deposit_total user a amount_input note now1 db Hnd) as [D1 D2].
  destruct (do_withdraw_total user a amount_input note now1 db Hnd) as [W1 W2].
  pose proof (do_transfer_total user a b amount_input note now1 now2 db Hnd).
  auto.
Qed.

Lemma session_moves_money_one_way_witness :
  total_balance demo_db <=
  total_balance
    (snd (do_deposit {| id_of_user := 1; username := "alice" |}
            " Checking " "-25.00" "" "2024-01-05T00:00:00Z" demo_db)).
Proof.
  apply (session_moves_money_one_way {| id_of_user := 1; username := "alice" |}
           " Checking " " Savings" "-25.00" "" "2024-01-05T00:00:00Z"
           "2024-01-05T00:00:01Z" demo_db).
  exact (account_ids_unique _ demo_db_keys_unique).
Defined.

(** ** Signing up and logging in *)

Lemma existsb_find {A} (p : A -> bool) l :
  existsb p l = match find p l with Some _ => true | None => false end.
Proof.
  induction l as [|x l IH]; simpl; [reflexivity|].
  destruct (p x); [reflexivity | exact IH].
Qed.

Lemma create_user_eq username salt pw_hash now1 now2 db :
  create_user username salt pw_hash now1 now2 db =
  match select_user username db with
  | Some _ => (Raise duplicate_username, db)
  | None =>
      let uid := next_rowid (users_seq db) (map u_id (users db)) in
      let db1 := user_added username salt pw_hash now1 db in
      if negb (fits_int64 uid) then (Raise overflow_error, db)
      else if account_exists uid "Checking" db1 then (Raise duplicate_account, db)
      else (Ok {| id_of_user := uid; username := username |},
            account_added uid "Checking" "checking" 0 now2 db1)
  end.
Proof.
  unfold create_user, with_conn, bind at 1. rewrite insert_user_eq.
  cbn [get_conn working committed]. rewrite existsb_find. fold (select_user username db).
  destruct (select_user username db); [reflexivity|].
  unfold bind at 1. rewrite insert_account_eq.
  cbn [working committed member].
  replace (fits_int64 0) with true by reflexivity. rewrite andb_true_r.
  destruct (fits_int64 _); cbn [negb]; [|reflexivity].
  replace (member ("checking" : str) account_types) with true by reflexivity.
  cbn [negb].
  destruct (account_exists _ _ _); reflexivity.
Qed.

Lemma select_user_added username salt pw_hash now db name :
  select_user name (user_added username salt pw_hash now db) =
  match select_user name db with
  | Some r => Some r
  | None =>
      if str_eqb username name
      then Some {| u_id := next_rowid (users_seq db) (map u_id (users db));
                   u_username := username; u_salt := salt;
                   u_password_hash := pw_hash; u_created_at := now |}
      else None
  end.
Proof.
  unfold select_user, user_added. cbn [users]. rewrite find_snoc. reflexivity.
Qed.

Lemma verify_password_eq pbkdf2_hmac password salt hashed :
  verify_password pbkdf2_hmac password salt hashed = true <->
  pbkdf2_hmac password salt = hashed.
Proof. unfold verify_password, hash_password. apply str_eqb_eq. Qed.

Lemma login_flow_eq pbkdf2_hmac username_input password db :
  login_flow pbkdf2_hmac username_input password db =
  (Ok match select_user (PyStr.strip username_input) db with
      | None => None
      | Some r =>
          if verify_password pbkdf2_hmac password (u_salt r) (u_password_hash r)
          then Some {| id_of_user := u_id r; username := u_username r |}
          else None
      end, db).
Proof.
  unfold login_flow, bind. rewrite get_user_by_username_eq.
  destruct (select_user _ db) as [r|]; cbn [option_map user_tuple]; [|reflexivity].
  destruct (verify_password _ _ _ _); reflexivity.
Qed.

(** X14. Who signs up can log in.  When [signup_flow] returns a user, the
    two passwords typed were the same, of 6 characters at least, and the
    name, stripped, was not empty and not taken; right afterwards
    [login_flow] with the same name and that password returns the same
    user, and [get_account] finds the user's account ["Checking"], a
    checking account with balance 0.  When it returns no user, the database
    is as it was. *)
Theorem signup_then_login :
  forall pbkdf2_hmac token_bytes username_input pw1 pw2 now1 now2 db db',
    (forall user,
        signup_flow pbkdf2_hmac token_bytes username_input pw1 pw2 now1 now2 db =
          (Ok (Some user), db') ->
        pw1 = pw2 /\ 6 <= PyStr.len pw1 /\
        username user = PyStr.strip username_input /\ username user <> [] /\
        get_user_by_username (username user) db = (Ok None, db) /\
        login_flow pbkdf2_hmac username_input pw1 db' = (Ok (Some user), db') /\
        exists account_id,
          get_account (id_of_user user) "Checking" db' =
          (Ok (Some {| id := account_id; user_id := id_of_user user;
                       name := "Checking"; type := "checking";
                       balance_cents := 0 |}), db')) /\
    (signup_flow pbkdf2_hmac token_bytes username_input pw1 pw2 now1 now2 db =
       (Ok None, db') -> db' = db).
Proof.
  intros pbkdf2_hmac token_bytes username_input pw1 pw2 now1 now2 db db'.
  unfold signup_flow. cbv zeta.
  destruct (PyStr.strip username_input) as [|c s] eqn:Hname;
    [split; [intros user; discriminate | intros [= <-]; reflexivity]|].
  unfold bind at 1 3. rewrite get_user_by_username_eq.
  destruct (select_user (c :: s) db) as [r|] eqn:Hsu; cbn [option_map];
    [split; [intros user; discriminate | intros [= <-]; reflexivity]|].
  destruct (negb (str_eqb pw1 pw2) || (PyStr.len pw1 <? 6)) eqn:Hpw;
    [split; [intros user; discriminate | intros [= <-]; reflexivity]|].
  apply orb_false_iff in Hpw. destruct Hpw as [Heq Hlen].
  apply negb_false_iff, str_eqb_eq in Heq. apply Z.ltb_ge in Hlen.
  unfold bind, create_user_from_password, hash_password.
  rewrite create_user_eq, Hsu. cbv zeta.
  destruct (fits_int64 _) eqn:Hfit; cbn [negb];
    [| split; [intros user|]; discriminate].
  destruct (account_exists _ _ _) eqn:Hex;
    [split; [intros user|]; discriminate|].
  split; [| discriminate].
  intros user [= <- <-]. cbn [username id_of_user].
  split; [exact Heq|]. split; [exact Hlen|]. split; [reflexivity|].
  split; [discriminate|].
  split; [rewrite get_user_by_username_eq, Hsu; reflexivity|].
  split.
  - rewrite login_flow_eq, Hname.
    replace (select_user (c :: s) (account_added _ _ _ _ _ _))
      with (select_user (c :: s)
              (user_added (c :: s) token_bytes (pbkdf2_hmac pw1 token_bytes)
                 now1 db)) by reflexivity.
    rewrite select_user_added, Hsu, str_eqb_refl.
    cbn [u_salt u_password_hash u_id u_username].
    rewrite (proj2 (verify_password_eq _ _ _ _) eq_refl). reflexivity.
  - eexists. rewrite get_account_eq, Hfit, select_account_added.
    rewrite (proj1 (account_exists_false _ _ _) Hex).
    rewrite Z.eqb_refl, str_eqb_refl. reflexivity.
Qed.

Lemma signup_then_login_witness :
  login_flow demo_pbkdf2 " bob " "secret1"
    (snd (signup_flow demo_pbkdf2 "0123456789abcdef" " bob " "secret1" "secret1"
            "2024-01-06T00:00:00Z" "2024-01-06T00:00:00Z" demo_db)) =
  (Ok (Some {| id_of_user := 2; username := "bob" |}),
   snd (signup_flow demo_pbkdf2 "0123456789abcdef" " bob " "secret1" "secret1"
          "2024-01-06T00:00:00Z" "2024-01-06T00:00:00Z" demo_db)).
Proof.
  apply (proj1 (signup_then_login demo_pbkdf2 "0123456789abcdef" " bob "
                  "secret1" "secret1" "2024-01-06T00:00:00Z"
                  "2024-01-06T00:00:00Z" demo_db _)
           {| id_of_user := 2; username := "bob" |}).
  reflexivity.
Defined.

Lemma find_by_username (l : list UserRow) (r : UserRow) :
  NoDup (map u_username l) -> In r l ->
  find (fun x => str_eqb (u_username x) (u_username r)) l = Some r.
Proof.
  induction l as [|x l IH]; simpl; intros Hnd Hin; [contradiction|].
  inversion Hnd as [|? ? Hnotin Hnd']; subst.
  destruct Hin as [-> | Hin].
  - rewrite str_eqb_refl. reflexivity.
  - destruct (str_eqb (u_username x) (u_username r)) eqn:E.
    + apply str_eqb_eq in E. exfalso. apply Hnotin. rewrite E.
      apply in_map. exact Hin.
    + apply IH; assumption.
Qed.

(** X15. Logging in takes the password.  With the user names distinct, as
    [signup_flow] and the schema keep them, [login_flow] returns a user
    exactly when the table has a user of the name typed, stripped, and the
    key derived from the password typed and the salt stored is the key
    stored; the user returned is that one.  It never raises. *)
Theorem login_needs_the_password :
  forall pbkdf2_hmac db,
    NoDup (map u_username (users db)) ->
    forall username_input password,
      (forall user,
          login_flow pbkdf2_hmac username_input password db =
            (Ok (Some user), db) <->
          exists r,
            In r (users db) /\ u_username r = PyStr.strip username_input /\
            pbkdf2_hmac password (u_salt r) = u_password_hash r /\
            user = {| id_of_user := u_id r; username := u_username r |}) /\
      is_ok (fst (login_flow pbkdf2_hmac username_input password db)) = true.
Proof.
  intros pbkdf2_hmac db Hnd username_input password.
  rewrite login_flow_eq. split; [| reflexivity].
  intros user. split.
  - destruct (select_user _ db) as [r|] eqn:Hsel; [| discriminate].
    destruct (verify_password _ _ _ _) eqn:Hv; [| discriminate].
    intros [= <-]. exists r.
    apply find_some in Hsel. destruct Hsel as [Hin Hname].
    apply str_eqb_eq in Hname. apply verify_password_eq in Hv. auto.
  - intros [r [Hin [Hname [Hkey ->]]]].
    unfold select_user. rewrite <- Hname, (find_by_username _ _ Hnd Hin).
    rewrite (proj2 (verify_password_eq _ _ _ _) Hkey). reflexivity.
Qed.

Lemma login_needs_the_password_witness :
  let db := snd (signup_flow demo_pbkdf2 "0123456789abcdef" "bob" "secret1"
                   "secret1" "2024-01-06T00:00:00Z" "2024-01-06T00:00:00Z"
                   demo_db) in
  login_flow demo_pbkdf2 " bob" "secret1" db =
  (Ok (Some {| id_of_user := 2; username := "bob" |}), db).
Proof.
  intros db.
  apply (proj1 (login_needs_the_password demo_pbkdf2 db
                  ltac:(repeat constructor; simpl; intuition discriminate)
                  " bob" "secret1")).
  exists {| u_id := 2; u_username := "bob"; u_salt := "0123456789abcdef";
            u_password_hash := "0123456789abcdefsecret1";
            u_created_at := "2024-01-06T00:00:00Z" |}.
  repeat split. right. left. reflexivity.
Defined.

(** ** The schema holds on what the program builds *)

Lemma add_tx_sql_preserves_fit (P : Db -> Prop) :
  (forall db account_id kind amount note now b,
      P db -> select_balance account_id db = Some b ->
      fits_int64 (b + amount) = true ->
      P (posted account_id kind amount (b + amount) note now db)) ->
  forall account_id kind amount note now,
    sql_preserves P (add_tx account_id kind amount note now).
Proof.
  intros HP account_id kind amount note now c Hc Hw.
  split.
  - rewrite add_tx_committed. exact Hc.
  - destruct (add_tx account_id kind amount note now c) as [[[]|e] c'] eqn:E;
      simpl; [intros _ | discriminate].
    apply add_tx_inv in E. destruct E as [b [Hsel [_ [Hfit ->]]]]. simpl.
    apply HP; auto.
Qed.

Lemma rows_ok_posted db account_id kind amount new_balance note now :
  rows_ok db -> fits_int64 new_balance = true ->
  rows_ok (posted account_id kind amount new_balance note now db).
Proof.
  intros [Hseq Hall] Hfit. split.
  - rewrite posted_accounts, length_map. exact Hseq.
  - rewrite posted_accounts. apply Forall_map.
    revert Hall. apply Forall_impl. intros a Ha.
    destruct (a_id a =? account_id); [| exact Ha].
    destruct Ha as [H1 [H2 [_ H4]]]. cbn [posted accounts_seq update_balance].
    cbn [set_balance a_id a_user_id a_balance_cents a_type]. auto.
Qed.

Lemma next_rowid_counts seq ids :
  Forall (fun z => z <= seq) ids -> next_rowid seq ids = seq + 1.
Proof.
  intros H. unfold next_rowid. f_equal.
  induction H as [|z l Hz Hl IH]; cbn [fold_right]; [reflexivity|].
  rewrite IH. lia.
Qed.

Lemma rows_ok_insert_account user_id name type_ now :
  sql_preserves rows_ok (insert_account user_id name type_ 0 now).
Proof.
  intros c Hc Hw. rewrite insert_account_eq.
  destruct (fits_int64 user_id) eqn:Hu; cbn [andb negb];
    [| split; [exact Hc | discriminate]].
  replace (fits_int64 0) with true by reflexivity. cbn [negb].
  destruct (member type_ account_types) eqn:Ht; cbn [negb];
    [| split; [exact Hc | discriminate]].
  destruct (account_exists _ _ _); [split; [exact Hc | discriminate]|].
  cbn [fst snd committed working]. split; [exact Hc | intros _].
  destruct Hw as [Hseq Hall]. set (db := working c) in *.
  assert (Hnext : next_rowid (accounts_seq db) (map a_id (accounts db)) =
                  accounts_seq db + 1).
  { apply next_rowid_counts. apply Forall_map.
    revert Hall. apply Forall_impl. intros a [H1 _]. lia. }
  split.
  - cbn [account_added accounts accounts_seq]. rewrite Hnext, length_app.
    cbn [List.length]. lia.
  - cbn [account_added accounts accounts_seq]. rewrite Hnext.
    apply Forall_app. split.
    + revert Hall. apply Forall_impl. intros a [H1 H2]. split; [lia | exact H2].
    + constructor; [| constructor].
      cbn [a_id a_user_id a_balance_cents a_type].
      assert (0 <= accounts_seq db) by lia.
      repeat split; auto; lia.
Qed.

Lemma rows_ok_insert_user username salt pw_hash now :
  sql_preserves rows_ok (insert_user username salt pw_hash now).
Proof.
  intros c Hc Hw. rewrite insert_user_eq.
  destruct (existsb _ _); cbn [fst snd committed working is_ok].
  - split; [exact Hc | discriminate].
  - split; [exact Hc | intros _; exact Hw].
Qed.

Lemma rows_ok_run (ops : list operation) : rows_ok (run ops empty_db).
Proof.
  apply run_preserves.
  - apply add_tx_sql_preserves_fit. intros. apply rows_ok_posted; assumption.
  - apply rows_ok_insert_account.
  - apply rows_ok_insert_user.
  - split; [reflexivity | constructor].
Qed.

(** X16. What the schema says holds of what the program builds.  In every
    database reached from the empty one the accounts are numbered from 1 to
    their number, each has one of the two types and an owner and a balance
    that are 64-bit integers; so, while there are fewer than 2^63 accounts,
    the primary key and the 64-bit columns that the statements on deposits,
    withdrawals and transfers assume are there. *)
Theorem schema_holds_on_runs :
  forall ops,
    let db := run ops empty_db in
    rows_ok db /\
    (Z.of_nat (List.length (accounts db)) <= int64_max -> schema_ok db).
Proof.
  intros ops db. pose proof (rows_ok_run ops) as H. fold db in H.
  split; [exact H|]. intros Hlen. destruct H as [Hseq Hall]. split.
  - exact (account_ids_unique _ (keys_unique_run ops)).
  - intros a Ha. rewrite Forall_forall in Hall.
    destruct (Hall a Ha) as [Hid [Hu [Hb _]]].
    split; [| auto]. apply fits_int64_iff. unfold int64_min. lia.
Qed.

Lemma schema_holds_on_runs_witness : schema_ok (run demo_ops empty_db).
Proof.
  apply (schema_holds_on_runs demo_ops).
  unfold int64_max. simpl. lia.
Defined.

(** ** A deposit can be withdrawn again *)

Lemma find_map_same {A} (p : A -> bool) (f : A -> A) l :
  (forall x, p (f x) = p x) ->
  find p (map f l) = option_map f (find p l).
Proof.
  intros H. induction l as [|x l IH]; simpl; [reflexivity|].
  rewrite H. destruct (p x); [reflexivity | exact IH].
Qed.

Lemma select_account_posted u n account_id kind amount new_balance note now db :
  select_account u n (posted account_id kind amount new_balance note now db) =
  option_map (fun r => if a_id r =? account_id
                       then set_balance new_balance r else r)
    (select_account u n db).
Proof.
  unfold select_account. rewrite posted_accounts.
  apply find_map_same. intros r. destruct (a_id r =? account_id); reflexivity.
Qed.

Lemma schema_ok_posted db account_id kind amount new_balance note now :
  schema_ok db -> fits_int64 new_balance = true ->
  schema_ok (posted account_id kind amount new_balance note now db).
Proof.
  intros [Hpk Hfit] Hnb. split.
  - rewrite posted_ids. exact Hpk.
  - intros a Ha. rewrite posted_accounts in Ha. apply in_map_iff in Ha.
    destruct Ha as [r [<- Hr]]. destruct (Hfit r Hr) as [H1 [H2 H3]].
    destruct (a_id r =? account_id); auto.
Qed.

Lemma update_balance_back (l : list AccountRow) (row : AccountRow) nb :
  NoDup (map a_id l) -> In row l ->
  map (fun r => if a_id r =? a_id row
                then set_balance (a_balance_cents row) r else r)
    (map (fun r => if a_id r =? a_id row then set_balance nb r else r) l) = l.
Proof.
  intros Hnd Hin. rewrite map_map. rewrite <- (map_id l) at 2.
  apply map_ext_in. intros r Hr.
  destruct (a_id r =? a_id row) eqn:E.
  - cbn [set_balance a_id]. rewrite E.
    apply Z.eqb_eq in E.
    assert (r = row).
    { pose proof (find_by_id l r Hnd Hr) as F1.
      pose proof (find_by_id l row Hnd Hin) as F2.
      rewrite E in F1. congruence. }
    subst r. destruct row; reflexivity.
  - rewrite E. reflexivity.
Qed.

Lemma deposit_returns_row u a amount note now db v db1 :
  deposit u a amount note now db = (Ok v, db1) ->
  0 < amount /\ exists row, select_account u a db = Some row.
Proof.
  unfold deposit. destruct (amount <=? 0) eqn:Hpos; [discriminate|].
  apply Z.leb_gt in Hpos.
  unfold bind at 1. rewrite get_account_eq.
  destruct (fits_int64 u); [| discriminate].
  destruct (select_account u a db) as [row|]; [| discriminate].
  intros _. eauto.
Qed.

(** X17. A deposit can be withdrawn again.  In a database that satisfies
    the schema and has no negative balance, after a deposit that returns,
    the withdrawal of the same amount from the same account returns too, and
    leaves the accounts, with their balances, and the users as they were
    before the deposit; the ledger has the two entries more, the deposit and
    the withdrawal, whose amounts add up to zero. *)
Theorem deposit_can_be_withdrawn :
  forall db u a amount note1 note2 now1 now2 db1,
    schema_ok db -> nonneg_balances db ->
    deposit u a amount note1 now1 db = (Ok VNone, db1) ->
    exists db2 e1 e2,
      withdraw u a amount note2 now2 db1 = (Ok VNone, db2) /\
      accounts db2 = accounts db /\ users db2 = users db /\
      transactions db2 = transactions db ++ [e1; e2] /\
      t_kind e1 = ("deposit" : str) /\ t_kind e2 = ("withdraw" : str) /\
      t_account_id e1 = t_account_id e2 /\
      t_amount_cents e1 = amount /\ t_amount_cents e2 = - amount /\
      t_balance_after_cents e2 = t_balance_after_cents e1 - amount.
Proof.
  intros db u a amount note1 note2 now1 now2 db1 Hs Hnn Hdep.
  destruct (deposit_returns_row _ _ _ _ _ _ _ _ Hdep) as [Hpos [row Hsel]].
  destruct (select_account_some _ _ _ _ Hsel) as [Hin _].
  assert (Hb : 0 <= a_balance_cents row).
  { unfold nonneg_balances in Hnn. rewrite Forall_forall in Hnn.
    apply Hnn. exact Hin. }
  rewrite (deposit_existing db u a amount note1 now1 row Hs Hsel Hb Hpos) in Hdep.
  destruct (int64_max <? a_balance_cents row + amount) eqn:Hov; [discriminate|].
  apply Z.ltb_ge in Hov. injection Hdep as <-.
  set (nb := a_balance_cents row + amount) in *.
  set (db1 := posted (a_id row) "deposit" amount nb note1 now1 db).
  assert (Hfit : fits_int64 nb = true).
  { apply fits_int64_iff. unfold int64_min. lia. }
  assert (Hs1 : schema_ok db1) by (apply schema_ok_posted; assumption).
  assert (Hsel1 : select_account u a db1 = Some (set_balance nb row)).
  { unfold db1. rewrite select_account_posted, Hsel. cbn [option_map].
    rewrite Z.eqb_refl. reflexivity. }
  pose proof (withdraw_existing db1 u a amount note2 now2 _ Hs1 Hsel1 Hpos) as Hw.
  cbn [set_balance a_balance_cents a_id] in Hw.
  replace (nb <? amount) with false in Hw by (symmetry; apply Z.ltb_ge; lia).
  destruct (posted_transactions (a_id row) "deposit" amount nb note1 now1 db)
    as [e1 [Ht1 [Hi1 [Hk1 [Ha1 [Hb1 _]]]]]].
  destruct (posted_transactions (a_id row) "withdraw" (- amount) (nb - amount)
              note2 now2 db1)
    as [e2 [Ht2 [Hi2 [Hk2 [Ha2 [Hb2 _]]]]]].
  eexists. exists e1, e2. split; [exact Hw|].
  split; [| split; [reflexivity|]].
  - rewrite posted_accounts. unfold db1. rewrite posted_accounts.
    replace (nb - amount) with (a_balance_cents row) by (unfold nb; lia).
    apply update_balance_back; [apply Hs | exact Hin].
  - rewrite Ht2. unfold db1 at 1. rewrite Ht1, <- app_assoc.
    repeat split; auto; try congruence; lia.
Qed.

Lemma deposit_can_be_withdrawn_witness :
  exists db2,
    withdraw 1 "Savings" 500 "back" "2024-01-07T00:00:00Z"
      (snd (deposit 1 "Savings" 500 "gift" "2024-01-06T00:00:00Z" demo_db)) =
    (Ok VNone, db2) /\ accounts db2 = accounts demo_db.
Proof.
  destruct (deposit_can_be_withdrawn demo_db 1 "Savings" 500 "gift" "back"
              "2024-01-06T00:00:00Z" "2024-01-07T00:00:00Z" _
              demo_db_schema_ok demo_db_nonneg eq_refl)
    as [db2 [e1 [e2 [H1 [H2 _]]]]].
  exists db2. split; assumption.
Defined.

(** ** The history after an operation *)

Lemma order_by_id_desc_newest l e :
  Forall (fun x => t_id x < t_id e) l ->
  order_by_id_desc (l ++ [e]) = e :: order_by_id_desc l.
Proof.
  induction l as [|x l IH]; intros H; [reflexivity|].
  inversion H as [|? ? Hx Hl]; subst.
  cbn [app order_by_id_desc fold_right].
  change (fold_right insert_desc [] (l ++ [e])) with (order_by_id_desc (l ++ [e])).
  rewrite (IH Hl). cbn [insert_desc].
  replace (t_id e <=? t_id x) with false by (symmetry; apply Z.leb_gt; exact Hx).
  reflexivity.
Qed.

Lemma select_history_posted account_id kind amount new_balance note now db limit :
  limit <> 0 ->
  exists rest,
    select_history account_id limit
      (posted account_id kind amount new_balance note now db) =
    (kind, amount, new_balance, note, now) :: rest.
Proof.
  intros Hlimit. unfold select_history, posted, update_balance.
  cbn [transactions transactions_seq]. rewrite filter_app. cbn [filter t_account_id].
  rewrite Z.eqb_refl. rewrite order_by_id_desc_newest.
  - destruct (sql_limit_head limit
                {| t_id := next_rowid (transactions_seq db)
                             (map t_id (transactions db));
                   t_account_id := account_id; t_kind := kind;
                   t_amount_cents := amount;
                   t_balance_after_cents := new_balance;
                   t_note := note; t_created_at := now |}
                (order_by_id_desc
                   (filter (fun t => t_account_id t =? account_id)
                      (transactions db))) Hlimit) as [rest ->].
    eexists. reflexivity.
  - apply Forall_forall. intros x Hx. apply filter_In in Hx.
    cbn [t_id]. apply next_rowid_above. apply in_map. apply Hx.
Qed.

Lemma select_history_posted_other account_id other kind amount new_balance note
    now db limit :
  other <> account_id ->
  select_history account_id limit
    (posted other kind amount new_balance note now db) =
  select_history account_id limit db.
Proof.
  intros Hne. unfold select_history, posted, update_balance.
  cbn [transactions]. rewrite filter_app. cbn [filter t_account_id].
  replace (other =? account_id) with false
    by (symmetry; apply Z.eqb_neq; exact Hne).
  rewrite app_nil_r. reflexivity.
Qed.

Lemma get_history_posted db u a row limit other kind amount new_balance note now :
  schema_ok db -> select_account u a db = Some row ->
  fits_int64 limit = true ->
  get_history u a limit (posted other kind amount new_balance note now db) =
  (Ok (select_history (a_id row) limit
         (posted other kind amount new_balance note now db)),
   posted other kind amount new_balance note now db).
Proof.
  intros [Hpk Hfit] Hsel Hlim.
  destruct (select_account_some _ _ _ _ Hsel) as [Hin [Hu _]].
  destruct (Hfit row Hin) as [Hfid [Hfu _]].
  rewrite get_history_eq, select_account_posted, Hsel, <- Hu, Hfu.
  cbn [option_map].
  replace (a_id (if a_id row =? other then set_balance new_balance row else row))
    with (a_id row) by (destruct (a_id row =? other); reflexivity).
  rewrite Hfid, Hlim. reflexivity.
Qed.

Lemma get_history_posted_same db u a row limit kind amount new_balance note now :
  schema_ok db -> select_account u a db = Some row ->
  fits_int64 limit = true -> limit <> 0 ->
  exists rest,
    get_history u a limit
      (posted (a_id row) kind amount new_balance note now db) =
    (Ok ((kind, amount, new_balance, note, now) :: rest),
     posted (a_id row) kind amount new_balance note now db).
Proof.
  intros Hs Hsel Hlim Hlimit.
  rewrite (get_history_posted db u a row limit _ _ _ _ _ _ Hs Hsel Hlim).
  destruct (select_history_posted (a_id row) kind amount new_balance note now
              db limit Hlimit) as [rest ->].
  eauto.
Qed.

Lemma get_history_posted_other db u a row limit other kind amount new_balance
    note now :
  schema_ok db -> select_account u a db = Some row ->
  fits_int64 limit = true -> other <> a_id row ->
  get_history u a limit (posted other kind amount new_balance note now db) =
  (fst (get_history u a limit db),
   posted other kind amount new_balance note now db).
Proof.
  intros Hs Hsel Hlim Hne.
  rewrite (get_history_posted db u a row limit _ _ _ _ _ _ Hs Hsel Hlim).
  rewrite select_history_posted_other by exact Hne.
  destruct Hs as [Hpk Hfit].
  destruct (select_account_some _ _ _ _ Hsel) as [Hin [Hu _]].
  destruct (Hfit row Hin) as [Hfid [Hfu _]].
  rewrite get_history_eq, Hsel, <- Hu, Hfu, Hfid, Hlim. reflexivity.
Qed.

Lemma withdraw_returns_row u a amount note now db v db1 :
  withdraw u a amount note now db = (Ok v, db1) ->
  0 < amount /\ exists row, select_account u a db = Some row.
Proof.
  unfold withdraw. destruct (amount <=? 0) eqn:Hpos; [discriminate|].
  apply Z.leb_gt in Hpos.
  unfold bind at 1. rewrite get_account_eq.
  destruct (fits_int64 u); [| discriminate].
  destruct (select_account u a db) as [row|]; [| discriminate].
  intros _. eauto.
Qed.

Lemma transfer_returns_rows u f t amount note now1 now2 db v db1 :
  transfer u f t amount note now1 now2 db = (Ok v, db1) ->
  0 < amount /\
  exists src dst, select_account u f db = Some src /\
                  select_account u t db = Some dst.
Proof.
  unfold transfer. destruct (amount <=? 0) eqn:Hpos; [discriminate|].
  apply Z.leb_gt in Hpos.
  unfold bind at 1. rewrite get_account_eq.
  destruct (fits_int64 u) eqn:Hfit; [| discriminate].
  unfold bind at 1. rewrite get_account_eq, Hfit.
  destruct (select_account u f db) as [src|]; [| discriminate].
  destruct (select_account u t db) as [dst|]; [| discriminate].
  intros _. eauto.
Qed.

(** X18. The history shows what was just done.  In a database that
    satisfies the schema and has no negative balance, after a deposit, a
    withdrawal or a transfer that returns, [get_history] with any limit but
    0 gives as first row of the account the entry of that operation: its
    kind, its signed amount, the note and the time given; after a transfer,
    the [transfer_out] row for the source and the [transfer_in] row for the
    destination. *)
Theorem history_shows_last_operation :
  forall db u a amount note now limit db1,
    schema_ok db -> nonneg_balances db ->
    fits_int64 limit = true -> limit <> 0 ->
    (deposit u a amount note now db = (Ok VNone, db1) ->
     exists b rest,
       get_history u a limit db1 =
       (Ok (("deposit" : str, amount, b, note, now) :: rest), db1)) /\
    (withdraw u a amount note now db = (Ok VNone, db1) ->
     exists b rest,
       get_history u a limit db1 =
       (Ok (("withdraw" : str, - amount, b, note, now) :: rest), db1)) /\
    (forall a2 now2,
        transfer u a a2 amount note now now2 db = (Ok VNone, db1) ->
        exists b b2 rest rest2,
          get_history u a limit db1 =
          (Ok (("transfer_out" : str, - amount, b, note, now) :: rest), db1) /\
          get_history u a2 limit db1 =
          (Ok (("transfer_in" : str, amount, b2, note, now2) :: rest2), db1)).
Proof.
  intros db u a amount note now limit db1 Hs Hnn Hlim Hlimit.
  split; [| split].
  - intros Hdep.
    destruct (deposit_returns_row _ _ _ _ _ _ _ _ Hdep) as [Hpos [row Hsel]].
    destruct (select_account_some _ _ _ _ Hsel) as [Hin _].
    assert (Hb : 0 <= a_balance_cents row).
    { unfold nonneg_balances in Hnn. rewrite Forall_forall in Hnn.
      apply Hnn. exact Hin. }
    rewrite (deposit_existing db u a amount note now row Hs Hsel Hb Hpos) in Hdep.
    destruct (int64_max <? _); [discriminate|]. injection Hdep as <-.
    destruct (get_history_posted_same db u a row limit "deposit" amount
                (a_balance_cents row + amount) note now Hs Hsel Hlim Hlimit)
      as [rest E].
    exists (a_balance_cents row + amount), rest. exact E.
  - intros Hw.
    destruct (withdraw_returns_row _ _ _ _ _ _ _ _ Hw) as [Hpos [row Hsel]].
    rewrite (withdraw_existing db u a amount note now row Hs Hsel Hpos) in Hw.
    destruct (_ <? _); [discriminate|]. injection Hw as <-.
    destruct (get_history_posted_same db u a row limit "withdraw" (- amount)
                (a_balance_cents row - amount) note now Hs Hsel Hlim Hlimit)
      as [rest E].
    exists (a_balance_cents row - amount), rest. exact E.
  - intros a2 now2 Ht.
    destruct (transfer_returns_rows _ _ _ _ _ _ _ _ _ _ Ht)
      as [Hpos [src [dst [Hsrc Hdst]]]].
    rewrite (transfer_existing db u a a2 amount note now now2 src dst
               Hs Hsrc Hdst Hpos) in Ht.
    destruct (a_id src =? a_id dst) eqn:Hid; [discriminate|].
    apply Z.eqb_neq in Hid.
    destruct (a_balance_cents src <? amount) eqn:Hlow; [discriminate|].
    apply Z.ltb_ge in Hlow.
    destruct (_ <? 0); [discriminate|].
    destruct (int64_max <? _); [discriminate|]. injection Ht as <-.
    set (db0 := posted (a_id src) "transfer_out" (- amount)
                  (a_balance_cents src - amount) note now db).
    assert (Hs0 : schema_ok db0).
    { apply schema_ok_posted; [exact Hs|].
      destruct (select_account_some _ _ _ _ Hsrc) as [Hin _].
      destruct (columns_fit _ Hs src Hin) as [_ [_ Hfb]].
      apply fits_int64_iff in Hfb. apply fits_int64_iff.
      unfold int64_min in *. lia. }
    destruct (get_history_posted_same db u a src limit "transfer_out" (- amount)
                (a_balance_cents src - amount) note now Hs Hsrc Hlim Hlimit)
      as [rest E]. fold db0 in E.
    assert (Hsrc0 : select_account u a db0 =
                    Some (set_balance (a_balance_cents src - amount) src)).
    { unfold db0. rewrite select_account_posted, Hsrc. cbn [option_map].
      rewrite Z.eqb_refl. reflexivity. }
    assert (Hdst0 : select_account u a2 db0 = Some dst).
    { unfold db0. rewrite select_account_posted, Hdst. cbn [option_map].
      replace (a_id dst =? a_id src) with false
        by (symmetry; apply Z.eqb_neq; congruence).
      reflexivity. }
    destruct (get_history_posted_same db0 u a2 dst limit "transfer_in" amount
                (a_balance_cents dst + amount) note now2 Hs0 Hdst0 Hlim Hlimit)
      as [rest2 E2].
    exists (a_balance_cents src - amount), (a_balance_cents dst + amount),
      rest, rest2.
    split; [| exact E2].
    rewrite (get_history_posted_other db0 u a _ limit (a_id dst) _ _ _ _ _
               Hs0 Hsrc0 Hlim); [| cbn [set_balance a_id]; congruence].
    rewrite E. reflexivity.
Qed.

Lemma history_shows_last_operation_witness :
  let db1 :=
    snd (withdraw 1 "Checking" 2500 "cash" "2024-01-04T00:00:00Z" demo_db) in
  exists b rest,
    get_history 1 "Checking" 5 db1 =
    (Ok (("withdraw" : str, -2500, b, "cash" : str,
          "2024-01-04T00:00:00Z" : str) :: rest), db1).
Proof.
  intros db1.
  apply (proj1 (proj2 (history_shows_last_operation demo_db 1 "Checking" 2500
                         "cash" "2024-01-04T00:00:00Z" 5 db1
                         demo_db_schema_ok demo_db_nonneg eq_refl
                         ltac:(lia)))).
  reflexivity.
Defined.

(** ** The accounts of the other users *)

Lemma row_by_id (l : list AccountRow) (r row : AccountRow) :
  NoDup (map a_id l) -> In r l -> In row l -> a_id r = a_id row -> r = row.
Proof.
  intros Hnd Hr Hrow E.
  pose proof (find_by_id l r Hnd Hr) as F1.
  pose proof (find_by_id l row Hnd Hrow) as F2.
  rewrite E in F1. congruence.
Qed.

Lemma others_posted u db account_id kind amount new_balance note now :
  (forall r, In r (accounts db) -> a_id r = account_id -> a_user_id r = u) ->
  accounts_of_others u (posted account_id kind amount new_balance note now db) =
  accounts_of_others u db.
Proof.
  unfold accounts_of_others. rewrite posted_accounts.
  induction (accounts db) as [|x l IH]; intros H; [reflexivity|].
  cbn [map filter].
  rewrite IH by (intros r Hr; apply H; right; exact Hr).
  destruct (a_id x =? account_id) eqn:E; [| reflexivity].
  apply Z.eqb_eq in E. cbn [set_balance a_user_id].
  rewrite (H x (or_introl eq_refl) E), Z.eqb_refl. reflexivity.
Qed.

Lemma others_posted_row u a db row kind amount new_balance note now :
  NoDup (map a_id (accounts db)) -> select_account u a db = Some row ->
  accounts_of_others u (posted (a_id row) kind amount new_balance note now db) =
  accounts_of_others u db.
Proof.
  intros Hnd Hsel. apply others_posted. intros r Hr E.
  destruct (select_account_some _ _ _ _ Hsel) as [Hin [Hu _]].
  rewrite (row_by_id _ r row Hnd Hr Hin E). exact Hu.
Qed.

(** X19. A user reaches no account of another.  With the account ids
    distinct, a deposit, a withdrawal, a transfer and the creation of an
    account called for user [u] leave every account of every other user as
    it was, balance included, whatever the names and the amount given. *)
Theorem other_users_untouched :
  forall db u,
    NoDup (map a_id (accounts db)) ->
    (forall a amount note now,
        accounts_of_others u (snd (deposit u a amount note now db)) =
        accounts_of_others u db) /\
    (forall a amount note now,
        accounts_of_others u (snd (withdraw u a amount note now db)) =
        accounts_of_others u db) /\
    (forall a b amount note now1 now2,
        accounts_of_others u (snd (transfer u a b amount note now1 now2 db)) =
        accounts_of_others u db) /\
    (forall n t now,
        accounts_of_others u (snd (create_account u n t now db)) =
        accounts_of_others u db).
Proof.
  intros db u Hnd. split; [| split; [| split]].
  - intros a amount note now.
    destruct (deposit_effect u a amount note now db)
      as [-> | [row [b [Hsel [_ [_ [_ ->]]]]]]]; [reflexivity|].
    apply (others_posted_row u a); assumption.
  - intros a amount note now.
    destruct (withdraw_effect u a amount note now db)
      as [-> | [row [b [Hsel [_ [_ [_ ->]]]]]]]; [reflexivity|].
    apply (others_posted_row u a); assumption.
  - intros a b amount note now1 now2.
    destruct (transfer_effect u a b amount note now1 now2 db)
      as [-> | [src [b1 [dst [b2 [Hs [Hd [_ [_ [_ [_ [_ ->]]]]]]]]]]]];
      [reflexivity|].
    cbn [snd]. rewrite others_posted.
    + apply (others_posted_row u a); assumption.
    + intros r Hr E. rewrite posted_accounts in Hr. apply in_map_iff in Hr.
      destruct Hr as [r0 [<- Hr0]].
      destruct (select_account_some _ _ _ _ Hd) as [Hin [Hu _]].
      assert (a_id r0 = a_id dst)
        by (destruct (a_id r0 =? a_id src); exact E).
      rewrite (row_by_id _ r0 dst Hnd Hr0 Hin) by assumption.
      destruct (a_id dst =? a_id src); exact Hu.
  - intros n t now. rewrite create_account_eq.
    destruct (negb (member t account_types)); [reflexivity|].
    destruct (negb (fits_int64 u)); [reflexivity|].
    destruct (account_exists u n db); [reflexivity|].
    unfold accounts_of_others. cbn [snd account_added accounts].
    rewrite filter_app. cbn [filter a_user_id]. rewrite Z.eqb_refl.
    apply app_nil_r.
Qed.

Lemma other_users_untouched_witness :
  accounts_of_others 2
    (snd (create_account 2 "Checking" "checking" "2024-01-08T00:00:00Z" demo_db)) =
  accounts demo_db.
Proof.
  apply (other_users_untouched demo_db 2
           (account_ids_unique _ demo_db_keys_unique)).
Defined.

(** X20. What [create_user] does.  It returns exactly when the user name
    is not taken, the id of the new user is a 64-bit integer and no account
    ["Checking"] is already there under that id; it then has added one user,
    with a fresh id and the salt and the key given, and one account
    ["Checking"] of type [checking] with balance 0 for that user, and
    nothing to the ledger.  A name that is taken raises the [IntegrityError]
    of the [UNIQUE] constraint; so does an account that is there, and then
    the user inserted before is rolled back: the database is as it was. *)
Theorem create_user_outcome :
  forall nm salt pw_hash now1 now2 db,
    let r := create_user nm salt pw_hash now1 now2 db in
    let uid := next_rowid (users_seq db) (map u_id (users db)) in
    (is_ok (fst r) = true <->
     select_user nm db = None /\ fits_int64 uid = true /\
     select_account uid "Checking" db = None) /\
    (select_user nm db <> None -> r = (Raise duplicate_username, db)) /\
    (select_user nm db = None -> fits_int64 uid = true ->
     select_account uid "Checking" db <> None ->
     r = (Raise duplicate_account, db)) /\
    (is_ok (fst r) = true ->
     fst r = Ok {| id_of_user := uid; username := nm |} /\
     ~ In uid (map u_id (users db)) /\
     users (snd r) =
       users db ++ [{| u_id := uid; u_username := nm; u_salt := salt;
                       u_password_hash := pw_hash; u_created_at := now1 |}] /\
     (exists account_id,
         ~ In account_id (map a_id (accounts db)) /\
         accounts (snd r) =
           accounts db ++
           [{| a_id := account_id; a_user_id := uid; a_name := "Checking";
               a_type := "checking"; a_balance_cents := 0;
               a_created_at := now2 |}]) /\
     transactions (snd r) = transactions db).
Proof.
  intros nm salt pw_hash now1 now2 db. cbv zeta. rewrite create_user_eq.
  destruct (select_user nm db) as [row|] eqn:Hsu.
  - split; [| split; [| split]].
    + split; [discriminate | intros [H _]; discriminate].
    + reflexivity.
    + discriminate.
    + discriminate.
  - cbv zeta.
    destruct (fits_int64 _) eqn:Hfit; cbn [negb].
    + change (account_exists (next_rowid (users_seq db) (map u_id (users db)))
                "Checking" (user_added nm salt pw_hash now1 db))
        with (account_exists (next_rowid (users_seq db) (map u_id (users db)))
                "Checking" db).
      destruct (account_exists _ _ db) eqn:Hex.
      * assert (Hsome : select_account
                          (next_rowid (users_seq db) (map u_id (users db)))
                          "Checking" db <> None).
        { intros N. apply account_exists_false in N. congruence. }
        split; [| split; [| split]].
        -- split; [discriminate | intros [_ [_ N]]; contradiction].
        -- intros N. contradiction.
        -- reflexivity.
        -- discriminate.
      * apply account_exists_false in Hex.
        split; [| split; [| split]].
        -- split; [auto | reflexivity].
        -- intros N. contradiction.
        -- intros _ _ N. contradiction.
        -- intros _. cbn [fst snd].
           split; [reflexivity|]. split; [apply next_rowid_fresh|].
           split; [reflexivity|]. split; [| reflexivity].
           eexists. split; [| reflexivity].
           cbn [user_added accounts accounts_seq]. apply next_rowid_fresh.
    + split; [| split; [| split]].
      * split; [discriminate | intros [_ [N _]]; discriminate].
      * intros N. contradiction.
      * discriminate.
      * discriminate.
Qed.

Lemma create_user_outcome_witness :
  create_user "alice" "pepper" "key2" "2024-01-09T00:00:00Z"
    "2024-01-09T00:00:00Z" demo_db =
  (Raise duplicate_username, demo_db).
Proof.
  apply (proj1 (proj2 (create_user_outcome "alice" "pepper" "key2"
                         "2024-01-09T00:00:00Z" "2024-01-09T00:00:00Z"
                         demo_db))).
  discriminate.
Defined.

(** ** White space around an amount *)

(** X21. White space around an amount does not count.  [to_cents] gives
    the same result, or fails the same way, with any white space before and
    after the text: blanks, tabs, line ends and the other characters that
    [str.strip] removes. *)
Theorem to_cents_ignores_outer_space :
  forall ws1 ws2 s : str,
    forallb PyStr.isspace ws1 = true -> forallb PyStr.isspace ws2 = true ->
    to_cents (ws1 ++ s ++ ws2) = to_cents s.
Proof.
  intros ws1 ws2 s H1 H2. apply to_cents_depends_on_stripped.
  unfold PyStr.strip. rewrite strip_by_outer by assumption. reflexivity.
Qed.

Lemma to_cents_ignores_outer_space_witness :
  to_cents ("  " ++ "$1,234.5" ++ [" "%char; "010"%char]) = to_cents "$1,234.5".
Proof.
  apply (to_cents_ignores_outer_space "  " [" "%char; "010"%char] "$1,234.5");
    reflexivity.
Defined.

(** ** The text of an amount *)

(** X22. The text [from_cents] writes is unambiguous.  Two different
    amounts never give the same text; the text starts with a minus sign
    exactly for the amounts below zero, has four characters at least, and
    holds nothing but decimal digits, that sign and the point: no blank, no
    comma and no currency symbol.  [from_cents] writes a text for the
    amounts below [10 ^ 4302] in absolute value, and for no other. *)
Theorem from_cents_unambiguous :
  (forall x y text,
      from_cents x = Ok text -> from_cents y = Ok text -> x = y) /\
  (forall x text,
      from_cents x = Ok text -> PyStr.startswith "-" text = (x <? 0)) /\
  (forall x text, from_cents x = Ok text -> 4 <= PyStr.len text) /\
  (forall x text, from_cents x = Ok text -> forallb amount_char text = true) /\
  (forall x,
      (exists text, from_cents x = Ok text) <->
      Z.abs x < 10 ^ (PyStr.max_str_digits + 2)).
Proof.
  assert (T : forall x text, from_cents x = Ok text ->
            exists w a b,
              text = (if x <? 0 then ["-"%char] else [])
                     ++ w ++ "."%char :: [a; b] /\
              w <> [] /\ forallb PyStr.isdecimal w = true /\
              PyStr.isdecimal a = true /\ PyStr.isdecimal b = true).
  { intros x text E.
    destruct (from_cents_text x (from_cents_returns x text E))
      as [w [a [b [E' [Hne [Hw [_ [Ha [Hb _]]]]]]]]].
    rewrite E' in E. injection E as <-. exists w, a, b. auto. }
  split; [| split; [| split; [| split]]].
  - intros x y text Hx Hy.
    apply to_cents_reads_back in Hx. apply to_cents_reads_back in Hy.
    congruence.
  - intros x text E. destruct (T x text E) as [w [a [b [-> [Hne [Hw _]]]]]].
    destruct (x <? 0); [reflexivity|].
    destruct w as [|c w]; [contradiction|]. cbn [app PyStr.startswith].
    cbn [forallb] in Hw. apply andb_true_iff in Hw. destruct Hw as [Hc _].
    apply (decimal_char c Hc).
  - intros x text E. destruct (T x text E) as [w [a [b [-> [Hne _]]]]].
    unfold PyStr.len. rewrite !length_app. cbn [List.length].
    destruct w as [|c w]; [contradiction|]. cbn [List.length]. lia.
  - intros x text E.
    destruct (T x text E) as [w [a [b [-> [_ [Hw [Ha Hb]]]]]]].
    rewrite !forallb_app. cbn [forallb].
    rewrite (decimal_amount_chars w Hw). unfold amount_char at 2 3 4.
    rewrite Ha, Hb. destruct (x <? 0); reflexivity.
  - intros x. split.
    + intros [text E]. apply (from_cents_returns x text E).
    + intros Hx. destruct (from_cents_text x Hx) as [w [a [b [E _]]]].
      eexists. exact E.
Qed.

Lemma from_cents_unambiguous_witness :
  PyStr.startswith "-" "-0.05" = (-5 <? 0) /\ 4 <= PyStr.len "1234.50".
Proof.
  split.
  - apply (proj1 (proj2 from_cents_unambiguous) (-5) "-0.05"). reflexivity.
  - apply (proj1 (proj2 (proj2 from_cents_unambiguous)) 123450 "1234.50").
    reflexivity.
Defined.
